(** * What Should I Wear: route sampling, forecast aggregation and
      clothing recommendation

    A shallow embedding of the algorithmic core of the application:
    - [samplePoints]              (frontend/src/utils/gpxParser.js)
    - [fetchWeatherData], [generateMockWeather], the aggregation loop of
      [fetchGPXWeatherData], [generateRecommendations] and the six layer
      tables                      (frontend/src/StandAloneApp.jsx)
    - [parseGPXFile]              (frontend/src/utils/gpxParser.js)
    - [handleAddLocation], [handleRemoveLocation]
                                  (frontend/src/StandAloneApp.jsx)

    JavaScript numbers are modelled by exact integers ([Z]) and rationals
    ([Q]) extended with the three non-finite values; rounding error of
    IEEE doubles is not modelled. A call either returns a value or throws
    an exception ([completion]): [push] throws on a full array,
    [toISOString] on an invalid date, and a property read on [undefined].
    An array holds at most [2^32 - 1] elements and a date is at most
    [8.64e15] milliseconds away from the epoch, as the language defines
    them. *)

From Stdlib Require Import ZArith QArith Qround Lia Lqa String.
From stdpp Require Import base option list sorting strings pretty gmap.

Local Open Scope Z_scope.

(** ** JavaScript numbers *)

(** A JavaScript number whose finite values are taken from [A].  Negative
    zero is identified with zero: it compares, adds and indexes like zero
    in all the code below. *)
Inductive ext (A : Type) : Type :=
  | NaN
  | NegInf
  | PosInf
  | Fin (a : A).
Arguments NaN {A}.
Arguments NegInf {A}.
Arguments PosInf {A}.
Arguments Fin {A} a.

(** Integer-valued JavaScript numbers. *)
Module JsInt.

Definition opp (a : ext Z) : ext Z :=
  match a with
  | NaN => NaN
  | NegInf => PosInf
  | PosInf => NegInf
  | Fin x => Fin (- x)
  end.

(** [a + b] *)
Definition add (a b : ext Z) : ext Z :=
  match a, b with
  | NaN, _ | _, NaN => NaN
  | Fin x, Fin y => Fin (x + y)
  | PosInf, NegInf | NegInf, PosInf => NaN
  | PosInf, _ | _, PosInf => PosInf
  | NegInf, _ | _, NegInf => NegInf
  end.

(** [a - b] *)
Definition sub (a b : ext Z) : ext Z := add a (opp b).

(** [a < b]; every comparison with NaN is false. *)
Definition ltb (a b : ext Z) : bool :=
  match a, b with
  | NaN, _ | _, NaN => false
  | Fin x, Fin y => x <? y
  | PosInf, _ => false
  | _, NegInf => false
  | NegInf, _ => true
  | Fin _, PosInf => true
  end.

(** [a > b] *)
Definition gtb (a b : ext Z) : bool := ltb b a.

(** [Math.floor(a / b)] on two integers. Division by zero gives an
    infinity of the sign of [a], and NaN for [0 / 0]. *)
Definition floor_div (a b : Z) : ext Z :=
  if b =? 0 then
    if 0 <? a then PosInf else if a <? 0 then NegInf else NaN
  else Fin (a / b).

End JsInt.

(** ** Completions *)

(** Completion of a call: a returned value or a thrown exception, named by
    its message. For an [async] function, the promise fulfilled with the
    value or rejected with the exception. *)
Inductive completion (A : Type) : Type :=
  | Return (a : A)
  | Throw (error : string).
Arguments Return {A} a.
Arguments Throw {A} error.

(** The calls of a list in turn: the returned values, or the first
    exception. *)
Fixpoint sequence {A} (calls : list (completion A)) : completion (list A) :=
  match calls with
  | [] => Return []
  | Throw error :: _ => Throw error
  | Return a :: calls' =>
      match sequence calls' with
      | Return values => Return (a :: values)
      | Throw error => Throw error
      end
  end.

(** The value of a completion that returned. *)
Definition returned {A} (c : completion A) : option A :=
  match c with
  | Return a => Some a
  | Throw _ => None
  end.

(** ** Point sampler (gpxParser.js) *)

(** The greatest length of an array, [2^32 - 1]: the limit of the language;
    an engine that runs out of memory gives up earlier. *)
Definition MAX_ARRAY_LENGTH : Z := 4294967295.

Section Sampler.

(** Route points are opaque to the sampler; [undefined] is the value
    JavaScript gives for an absent array element. *)
Variable A : Type.
Variable undefined : A.

(** [allPoints[j]] for a natural number [j]. *)
Definition at_index (allPoints : list A) (j : nat) : A :=
  default undefined (allPoints !! j).

(** [allPoints[i]]: only a non-negative integer below the length names
    an element. *)
Definition index (allPoints : list A) (i : ext Z) : A :=
  match i with
  | Fin z => if 0 <=? z then at_index allPoints (Z.to_nat z) else undefined
  | _ => undefined
  end.

(** [sampled.push(x)]. An array holds at most [2^32 - 1] elements; [push]
    on an array of that length throws. *)
Definition push (sampled : list A) (x : A) : completion (list A) :=
  if Z.of_nat (length sampled) <? MAX_ARRAY_LENGTH
  then Return (sampled ++ [x])
  else Throw "RangeError: Invalid array length".

(** [for (let i = ...; i < allPoints.length - step; i += step)
       sampled.push(allPoints[i]);]
    [None] when the loop is still running after [fuel] iterations; the loop
    ends when its condition fails or when [push] throws. *)
Fixpoint sample_loop (fuel : nat) (allPoints : list A) (step i : ext Z)
    (sampled : list A) : option (completion (list A)) :=
  if JsInt.ltb i (JsInt.sub (Fin (Z.of_nat (length allPoints))) step) then
    match fuel with
    | O => None
    | S fuel' =>
        match push sampled (index allPoints i) with
        | Return sampled' =>
            sample_loop fuel' allPoints step (JsInt.add i step) sampled'
        | Throw error => Some (Throw error)
        end
    end
  else Some (Return sampled).

Definition samplePoints (fuel : nat) (allPoints : list A) (targetCount : Z)
    : option (completion (list A)) :=
  let len := Z.of_nat (length allPoints) in
  if len <=? targetCount then Some (Return allPoints)
  else
    let sampled := [index allPoints (Fin 0)] in
    let step := JsInt.floor_div (len - 1) (targetCount - 1) in
    match sample_loop fuel allPoints step step sampled with
    | None => None
    | Some (Throw error) => Some (Throw error)
    | Some (Return sampled) =>
        Some (push sampled (index allPoints (Fin (len - 1))))
    end.

End Sampler.

Arguments at_index {A} undefined allPoints j.
Arguments index {A} undefined allPoints i.
Arguments push {A} sampled x.
Arguments sample_loop {A} undefined fuel allPoints step i sampled.
Arguments samplePoints {A} undefined fuel allPoints targetCount.


(** ** Rational-valued JavaScript numbers *)

Module JsNum.

(** An integer-valued number read as a rational-valued one. *)
Definition of_int (a : ext Z) : ext Q :=
  match a with
  | NaN => NaN
  | NegInf => NegInf
  | PosInf => PosInf
  | Fin z => Fin (inject_Z z)
  end.

(** [a / b] on two integers. *)
Definition div_int (a b : Z) : ext Q :=
  if b =? 0 then
    if 0 <? a then PosInf else if a <? 0 then NegInf else NaN
  else Fin (inject_Z a / inject_Z b)%Q.

(** [a + q] for a finite [q]. *)
Definition add (a : ext Q) (q : Q) : ext Q :=
  match a with
  | Fin x => Fin (x + q)%Q
  | other => other
  end.

(** [a < c] for a finite [c]. *)
Definition ltb (a : ext Q) (c : Q) : bool :=
  match a with
  | NaN | PosInf => false
  | NegInf => true
  | Fin x => negb (Qle_bool c x)
  end.

(** Equality of numbers as values ([Q] is not in normal form). *)
Definition eqv (a b : ext Q) : Prop :=
  match a, b with
  | NaN, NaN | NegInf, NegInf | PosInf, PosInf => True
  | Fin x, Fin y => (x == y)%Q
  | _, _ => False
  end.

End JsNum.

(** [Math.round]: the nearest integer, halves rounded up. *)
Definition Math_round (q : Q) : Z := Qfloor (q + (1 # 2))%Q.

(** [Math.min(x, ...xs)] and [Math.max(x, ...xs)] with at least one
    argument. *)
Definition min_of (x : Z) (xs : list Z) : Z := foldl Z.min x xs.
Definition max_of (x : Z) (xs : list Z) : Z := foldl Z.max x xs.

(** [Math.min(...xs)] and [Math.max(...xs)]; without argument they are
    [Infinity] and [-Infinity]. *)
Definition Math_min (xs : list Z) : ext Z :=
  match xs with
  | [] => PosInf
  | x :: xs' => Fin (min_of x xs')
  end.

Definition Math_max (xs : list Z) : ext Z :=
  match xs with
  | [] => NegInf
  | x :: xs' => Fin (max_of x xs')
  end.

(** [xs.reduce((sum, x) => sum + x, 0)] *)
Definition sum_of (xs : list Z) : Z := foldl Z.add 0 xs.

(** ** Data model (StandAloneApp.jsx) *)

Record Coords := {
  lat : Q;
  lon : Q;
  name : string
}.

(** One hourly forecast sample. [time] is the instant in milliseconds that
    the code renders with [toISOString]. A field that the object may lack
    is an [option]; a missing [isAggregated] is falsy. Temperatures, wind,
    precipitation chance and humidity are whole numbers: the fetcher and the
    mock generator round them, the provider reports percentages. *)
Record WeatherSample := {
  location : option string;
  time : Z;
  temperature : Z;
  temperatureMin : option Z;
  temperatureMax : option Z;
  windSpeed : Z;
  precipitationChance : Z;
  humidity : Z;
  weatherCode : Z;
  isAggregated : bool
}.

(** One position of the provider's parallel [hourly] arrays ([time],
    [temperature_2m], ...), which are read at a common index.
    [precipitation_probability] can be null. *)
Record HourlyRow := {
  h_time : Z;
  temperature_2m : Q;
  precipitation_probability : option Z;
  wind_speed_10m : Q;
  relative_humidity_2m : Z;
  weather_code : Z
}.

(** The two web services. [geocodeLocation] answers null ([None]) when the
    place is unknown or the call fails; [forecast] is [None] when the fetch,
    the JSON decoding or the access to [data.hourly] throws. *)
Record Provider := {
  geocodeLocation : option string → option Coords;
  forecast : Coords → option (list HourlyRow)
}.

Record LayerItem := {
  type : string;
  item : string;
  reason : string
}.

Record EffortLevel := {
  effort_id : string;
  effort_name : string;
  description : string;
  heatFactor : Q
}.

Definition EFFORT_LEVELS : list EffortLevel := [
  {| effort_id := "easy"; effort_name := "Easy";
     description := "Conversational pace"; heatFactor := 7 # 10 |};
  {| effort_id := "endurance"; effort_name := "Endurance";
     description := "Steady, sustained effort"; heatFactor := 1 |};
  {| effort_id := "tempo"; effort_name := "Tempo";
     description := "Comfortably hard"; heatFactor := 13 # 10 |};
  {| effort_id := "all-out"; effort_name := "All Out";
     description := "Maximum effort"; heatFactor := 16 # 10 |}
].

(** The ids of [ACTIVITIES]. *)
Definition ACTIVITIES : list string :=
  ["run"; "mountain-bike"; "road-bike"; "downhill-ski"; "backcountry-ski";
   "nordic-ski"].

(** ** Forecast fetcher *)

(** A time is given in milliseconds from the epoch, as [Date.getTime]
    does; [None] is the time value NaN of an invalid date. A start time is
    given by the time that it denotes, [None] when it does not parse. *)

(** A date is at most [8.64e15] milliseconds away from the epoch. *)
Definition MAX_TIME : Z := 8640000000000000.

(** [new Date(ms).getTime()] for a number [ms] of milliseconds: an invalid
    date when the number is NaN or out of range. *)
Definition new_Date (ms : option Z) : option Z :=
  t ← ms;
  if decide (- MAX_TIME ≤ t ≤ MAX_TIME) then Some t else None.

(** [t + i * 60 * 60 * 1000] *)
Definition hour_after (startTime : Z) (i : nat) : Z :=
  startTime + Z.of_nat i * 60 * 60 * 1000.

(** [new Date(new Date(startTime).getTime() + i * 60 * 60 * 1000)] *)
Definition slot_date (startTime : option Z) (i : nat) : option Z :=
  new_Date ((λ t, hour_after t i) <$> new_Date startTime).

(** The object that the callback of [Array.from] in [generateMockWeather]
    builds for the index [i], [time] being the time of the slot. [rnd] is
    the sequence of values that the successive calls of [Math.random]
    return; every sample draws five. *)
Definition mock_object (rnd : nat → Q) (locations : list string)
    (time : Z) (i : nat) : WeatherSample :=
  let baseTemp := (50 + rnd (5 * i)%nat * 30)%Q in
  {| location := head locations;
     time := time;
     temperature := Math_round (baseTemp + (rnd (5 * i + 1)%nat - (1 # 2)) * 10)%Q;
     temperatureMin := None;
     temperatureMax := None;
     windSpeed := Math_round (5 + rnd (5 * i + 2)%nat * 15)%Q;
     precipitationChance := Math_round (rnd (5 * i + 3)%nat * 100)%Q;
     humidity := Math_round (40 + rnd (5 * i + 4)%nat * 40)%Q;
     weatherCode := 0;
     isAggregated := false |}.

(** The callback of [Array.from] in [generateMockWeather]: [toISOString]
    throws for an invalid date. *)
Definition mock_sample (rnd : nat → Q) (locations : list string)
    (startTime : option Z) (i : nat) : completion WeatherSample :=
  match slot_date startTime i with
  | Some time => Return (mock_object rnd locations time i)
  | None => Throw "RangeError: Invalid time value"
  end.

(** [generateMockWeather]: [Array.from({ length: 5 }, ...)] calls the
    callback for the indices 0 to 4 in turn, and throws when it does. *)
Definition generateMockWeather (rnd : nat → Q) (locations : list string)
    (startTime : option Z) : completion (list WeatherSample) :=
  sequence (mock_sample rnd locations startTime <$> seq 0 5).

(** One turn of the loop [for (let i = 0; i < 5; i++)] of
    [fetchWeatherData]: the first hourly position at or after the time of
    the slot, if there is one, gives a sample. For an invalid date
    [currentTime.getTime()] is NaN, every comparison with it is false
    and [findIndex] gives -1. *)
Definition fetch_hour (coords : Coords) (hourly : list HourlyRow)
    (startTime : option Z) (weatherData : list WeatherSample) (i : nat)
    : list WeatherSample :=
  match slot_date startTime i with
  | Some currentTime =>
      match list_find (λ r, currentTime ≤ h_time r) hourly with
      | Some (hourIndex, r) =>
          weatherData ++ [
            {| location := Some (name coords);
               time := currentTime;
               temperature := Math_round (temperature_2m r);
               temperatureMin := None;
               temperatureMax := None;
               windSpeed := Math_round (wind_speed_10m r);
               precipitationChance := default 0 (precipitation_probability r);
               humidity := relative_humidity_2m r;
               weatherCode := weather_code r;
               isAggregated := false |} ]
      | None => weatherData
      end
  | None => weatherData
  end.

(** [let coords = providedCoords; if (!coords) { coords = await
    geocodeLocation(locations[0]); if (!coords) throw ... }] *)
Definition resolve_coords (W : Provider) (locations : list string)
    (providedCoords : option Coords) : option Coords :=
  match providedCoords with
  | Some c => Some c
  | None => geocodeLocation W (head locations)
  end.

(** [fetchWeatherData]. The [try] block is a computation in the option
    monad, [None] standing for a thrown exception; the [catch] block
    answers with the mock data, and throws when the mock generator does. *)
Definition fetchWeatherData (W : Provider) (rnd : nat → Q)
    (locations : list string) (startTime : option Z)
    (providedCoords : option Coords)
    : completion (list WeatherSample * option Coords) :=
  let attempt :=
    coords ← resolve_coords W locations providedCoords;
    hourly ← forecast W coords;
    Some (foldl (fetch_hour coords hourly startTime) [] (seq 0 5),
          Some coords) in
  match attempt with
  | Some result => Return result
  | None =>
      match generateMockWeather rnd locations startTime with
      | Return weatherData => Return (weatherData, None)
      | Throw error => Throw error
      end
  end.

(** ** Multi-point aggregation *)

(** [allWeatherResults.map(result => result.weatherData[hourIndex])
       .filter(Boolean)] *)
Definition hourDataPoints (allWeatherResults : list (list WeatherSample))
    (hourIndex : nat) : list WeatherSample :=
  omap (λ weatherData, weatherData !! hourIndex) allWeatherResults.

(** The object that the aggregation loop pushes for the collected samples
    [d0, ...ds] of one hour slot. *)
Definition aggregate_points (d0 : WeatherSample) (ds : list WeatherSample)
    : WeatherSample :=
  let hourDataPoints := d0 :: ds in
  let temps := temperature <$> ds in
  let winds := windSpeed <$> ds in
  let precips := precipitationChance <$> ds in
  let humidities := humidity <$> hourDataPoints in
  {| location := Some "GPX Route";
     time := time d0;
     temperature :=
       Math_round ((inject_Z (min_of (temperature d0) temps)
                    + inject_Z (max_of (temperature d0) temps)) / 2)%Q;
     temperatureMin := Some (min_of (temperature d0) temps);
     temperatureMax := Some (max_of (temperature d0) temps);
     windSpeed := max_of (windSpeed d0) winds;
     precipitationChance := max_of (precipitationChance d0) precips;
     humidity :=
       Math_round (inject_Z (sum_of humidities)
                   / inject_Z (Z.of_nat (length humidities)))%Q;
     weatherCode := weatherCode d0;
     isAggregated := true |}.

(** The body of the aggregation loop for one hour slot:
    [if (hourDataPoints.length > 0) aggregatedWeather.push({...})]. *)
Definition aggregate_hour (aggregatedWeather : list WeatherSample)
    (hourDataPoints : list WeatherSample) : list WeatherSample :=
  match hourDataPoints with
  | [] => aggregatedWeather
  | d0 :: ds => aggregatedWeather ++ [aggregate_points d0 ds]
  end.

(** The aggregation loop of [fetchGPXWeatherData]:
    [for (let hourIndex = 0; hourIndex < 5; hourIndex++)]. *)
Definition aggregatedWeather (allWeatherResults : list (list WeatherSample))
    : list WeatherSample :=
  foldl (λ acc hourIndex,
           aggregate_hour acc (hourDataPoints allWeatherResults hourIndex))
        [] (seq 0 5).

(** ** Recommendation engine *)

(** What [generateRecommendations] can return: an array of layer items, or
    a member that the [layers] object inherits from [Object.prototype]. *)
Inductive value : Type :=
  | Array (items : list LayerItem)
  | Inherited (property : string).

(** The property names of [Object.prototype]; each holds a function or an
    object, all truthy. *)
Definition Object_prototype : list string :=
  ["constructor"; "hasOwnProperty"; "isPrototypeOf"; "propertyIsEnumerable";
   "toLocaleString"; "toString"; "valueOf"; "__proto__";
   "__defineGetter__"; "__defineSetter__"; "__lookupGetter__";
   "__lookupSetter__"].

(** [object[key]] on an object literal: own properties first, then the
    prototype. *)
Definition get (object : gmap string (list LayerItem)) (key : string)
    : option value :=
  match object !! key with
  | Some items => Some (Array items)
  | None =>
      if bool_decide (key ∈ Object_prototype) then Some (Inherited key)
      else None
  end.

Definition mk (t i r : string) : LayerItem :=
  {| type := t; item := i; reason := r |}.

Definition getRunningLayers (temp : ext Q) (wind : ext Z) (rain : bool)
    : list LayerItem :=
  let layers := [] in
  let layers :=
    if JsNum.ltb temp 32 then
      layers ++ [
        mk "Base Layer" "Thermal long-sleeve top" "Cold protection";
        mk "Base Layer" "Thermal tights" "Leg warmth";
        mk "Mid Layer" "Light insulated vest" "Core warmth";
        mk "Accessories" "Running gloves" "Hand protection";
        mk "Accessories" "Headband or beanie" "Ear warmth" ]
    else if JsNum.ltb temp 50 then
      layers ++ [
        mk "Base Layer" "Long-sleeve tech shirt" "Moisture wicking";
        mk "Base Layer" "Running tights or pants" "Leg comfort";
        mk "Accessories" "Light gloves" "Hand warmth" ]
    else if JsNum.ltb temp 65 then
      layers ++ [
        mk "Base Layer" "Short-sleeve tech shirt" "Breathability";
        mk "Base Layer" "Running shorts or capris" "Mobility" ]
    else
      layers ++ [
        mk "Base Layer" "Lightweight singlet" "Maximum cooling";
        mk "Base Layer" "Running shorts" "Comfort";
        mk "Accessories" "Visor or hat" "Sun protection" ] in
  let layers :=
    if JsInt.gtb wind (Fin 15) then
      layers ++ [ mk "Outer Layer" "Windbreaker jacket" "Wind protection" ]
    else layers in
  let layers :=
    if rain then
      layers ++ [ mk "Outer Layer" "Waterproof running jacket" "Rain protection" ]
    else layers in
  layers.

Definition getMountainBikeLayers (temp : ext Q) (wind : ext Z) (rain : bool)
    : list LayerItem :=
  let layers := [] in
  let layers :=
    if JsNum.ltb temp 40 then
      layers ++ [
        mk "Base Layer" "Thermal long-sleeve jersey" "Cold protection";
        mk "Base Layer" "Padded thermal bib tights" "Comfort and warmth";
        mk "Mid Layer" "Softshell jacket" "Insulation";
        mk "Accessories" "Winter cycling gloves" "Hand warmth";
        mk "Accessories" "Thermal headband" "Ear protection" ]
    else if JsNum.ltb temp 60 then
      layers ++ [
        mk "Base Layer" "Long-sleeve MTB jersey" "Trail protection";
        mk "Base Layer" "Padded shorts with knee warmers" "Flexibility";
        mk "Accessories" "Light gloves" "Grip and protection" ]
    else
      layers ++ [
        mk "Base Layer" "Short-sleeve MTB jersey" "Breathability";
        mk "Base Layer" "Padded shorts" "Comfort";
        mk "Accessories" "Full-finger gloves" "Trail protection" ] in
  let layers :=
    if rain then
      layers ++ [ mk "Outer Layer" "Waterproof MTB jacket" "Weather protection" ]
    else layers in
  layers ++ [
    mk "Safety" "Helmet" "Essential safety";
    mk "Safety" "Eye protection" "Debris protection" ].

Definition getRoadBikeLayers (temp : ext Q) (wind : ext Z) (rain : bool)
    : list LayerItem :=
  let layers := [] in
  let layers :=
    if JsNum.ltb temp 45 then
      layers ++ [
        mk "Base Layer" "Thermal cycling jersey" "Warmth";
        mk "Base Layer" "Thermal bib tights" "Leg warmth";
        mk "Mid Layer" "Wind vest" "Core protection";
        mk "Accessories" "Winter cycling gloves" "Hand warmth";
        mk "Accessories" "Thermal cap under helmet" "Head warmth" ]
    else if JsNum.ltb temp 65 then
      layers ++ [
        mk "Base Layer" "Long-sleeve cycling jersey" "Comfort";
        mk "Base Layer" "Bib shorts with leg warmers" "Adaptability";
        mk "Accessories" "Light gloves" "Grip" ]
    else
      layers ++ [
        mk "Base Layer" "Short-sleeve cycling jersey" "Cooling";
        mk "Base Layer" "Bib shorts" "Comfort";
        mk "Accessories" "Cycling cap" "Sun protection" ] in
  let layers :=
    if JsInt.gtb wind (Fin 15) then
      layers ++ [ mk "Outer Layer" "Wind jacket" "Aerodynamics" ]
    else layers in
  let layers :=
    if rain then
      layers ++ [ mk "Outer Layer" "Waterproof cycling jacket" "Rain protection" ]
    else layers in
  layers ++ [
    mk "Safety" "Helmet" "Essential safety";
    mk "Safety" "Cycling glasses" "Eye protection" ].

Definition getDownhillSkiLayers (temp : ext Q) (wind : ext Z) (rain : bool)
    : list LayerItem :=
  let layers := [] in
  let layers :=
    if JsNum.ltb temp 20 then
      layers ++ [
        mk "Base Layer" "Heavyweight thermal top" "Extreme cold";
        mk "Base Layer" "Heavyweight thermal bottoms" "Leg warmth";
        mk "Mid Layer" "Insulated ski jacket" "Core warmth";
        mk "Outer Layer" "Waterproof ski pants" "Snow protection";
        mk "Accessories" "Insulated ski gloves" "Hand warmth";
        mk "Accessories" "Balaclava or neck gaiter" "Face protection" ]
    else
      layers ++ [
        mk "Base Layer" "Midweight thermal top" "Moisture management";
        mk "Base Layer" "Midweight thermal bottoms" "Comfort";
        mk "Mid Layer" "Lightweight insulated jacket" "Warmth";
        mk "Outer Layer" "Waterproof ski pants" "Snow protection";
        mk "Accessories" "Ski gloves" "Hand protection";
        mk "Accessories" "Neck gaiter" "Versatility" ] in
  layers ++ [
    mk "Safety" "Ski helmet" "Essential safety";
    mk "Safety" "Ski goggles" "Vision protection" ].

Definition getBackcountrySkiLayers (temp : ext Q) (wind : ext Z) (rain : bool)
    : list LayerItem :=
  let layers := [] in
  let layers :=
    if JsNum.ltb temp 20 then
      layers ++ [
        mk "Base Layer" "Merino wool top" "Temperature regulation";
        mk "Base Layer" "Merino wool bottoms" "Warmth and breathability";
        mk "Mid Layer" "Lightweight down jacket" "Packable warmth";
        mk "Outer Layer" "Hardshell jacket" "Weather protection";
        mk "Outer Layer" "Hardshell pants" "Snow protection" ]
    else
      layers ++ [
        mk "Base Layer" "Lightweight merino top" "Breathability";
        mk "Base Layer" "Lightweight merino bottoms" "Comfort";
        mk "Mid Layer" "Fleece or softshell" "Active insulation";
        mk "Outer Layer" "Softshell pants" "Mobility" ] in
  layers ++ [
    mk "Accessories" "Lightweight gloves" "Hand warmth while touring";
    mk "Accessories" "Beanie or headband" "Head warmth";
    mk "Safety" "Ski helmet" "Safety";
    mk "Safety" "Ski goggles + sunglasses" "Variable conditions" ].

Definition getNordicSkiLayers (temp : ext Q) (wind : ext Z) (rain : bool)
    : list LayerItem :=
  let layers := [] in
  let layers :=
    if JsNum.ltb temp 20 then
      layers ++ [
        mk "Base Layer" "Thermal racing suit or top/bottom" "Warmth";
        mk "Mid Layer" "Light vest" "Core warmth";
        mk "Accessories" "Insulated gloves" "Hand warmth";
        mk "Accessories" "Headband or light beanie" "Ear protection" ]
    else if JsNum.ltb temp 40 then
      layers ++ [
        mk "Base Layer" "XC ski suit or jersey/tights" "Aerodynamics";
        mk "Accessories" "Light gloves" "Grip and warmth";
        mk "Accessories" "Headband" "Ear warmth" ]
    else
      layers ++ [
        mk "Base Layer" "Lightweight XC top" "Cooling";
        mk "Base Layer" "Lightweight XC tights" "Mobility";
        mk "Accessories" "Thin gloves" "Pole grip" ] in
  let layers :=
    if JsInt.gtb wind (Fin 15) || rain then
      layers ++ [ mk "Outer Layer" "Wind vest or light shell" "Weather protection" ]
    else layers in
  layers ++ [
    mk "Accessories" "Sunglasses or light goggles" "Eye protection" ].

(** [weatherData.length > 0 && weatherData[0].isAggregated] *)
Definition is_aggregated (weatherData : list WeatherSample) : bool :=
  match weatherData with
  | [] => false
  | w :: _ => isAggregated w
  end.

(** [w.temperatureMin || w.temperature]: an absent minimum is falsy, and so
    is a minimum of zero. *)
Definition min_or_temperature (w : WeatherSample) : Z :=
  match temperatureMin w with
  | Some m => if m =? 0 then temperature w else m
  | None => temperature w
  end.

(** The base temperature [avgTemp] of [generateRecommendations]. *)
Definition avgTemp (weatherData : list WeatherSample) : ext Q :=
  if is_aggregated weatherData then
    JsNum.of_int (Math_min (min_or_temperature <$> weatherData))
  else
    JsNum.div_int (sum_of (temperature <$> weatherData))
                  (Z.of_nat (length weatherData)).

Definition maxWind (weatherData : list WeatherSample) : ext Z :=
  Math_max (windSpeed <$> weatherData).

Definition hasRain (weatherData : list WeatherSample) : bool :=
  existsb (λ w, 30 <? precipitationChance w) weatherData.

(** [EFFORT_LEVELS.find(e => e.id === effortLevel)] *)
Definition find_effort (effortLevel : string) : option EffortLevel :=
  snd <$> list_find (λ e, effort_id e = effortLevel) EFFORT_LEVELS.

(** [avgTemp + (effort.heatFactor - 1) * 15] *)
Definition feltTemp (weatherData : list WeatherSample) (effort : EffortLevel)
    : ext Q :=
  JsNum.add (avgTemp weatherData) ((heatFactor effort - 1) * 15)%Q.

(** The object literal [layers]. *)
Definition layers_object (temp : ext Q) (wind : ext Z) (rain : bool)
    : gmap string (list LayerItem) :=
  list_to_map [
    ("run", getRunningLayers temp wind rain);
    ("mountain-bike", getMountainBikeLayers temp wind rain);
    ("road-bike", getRoadBikeLayers temp wind rain);
    ("downhill-ski", getDownhillSkiLayers temp wind rain);
    ("backcountry-ski", getBackcountrySkiLayers temp wind rain);
    ("nordic-ski", getNordicSkiLayers temp wind rain) ].

(** [generateRecommendations]. The parameter [historicalFeedback] is not
    read by the function and is left out. Reading [heatFactor] of an effort
    that [find] did not find throws a TypeError. *)
Definition generateRecommendations (activity : string)
    (weatherData : list WeatherSample) (effortLevel : string)
    : completion value :=
  match find_effort effortLevel with
  | None => Throw "TypeError"
  | Some effort =>
      let temp := feltTemp weatherData effort in
      let layers :=
        layers_object temp (maxWind weatherData) (hasRain weatherData) in
      Return (default (Array []) (get layers activity))
  end.


(** ** Track file reader (gpxParser.js) *)

(** A point element ([trkpt], [rtept] or [wpt]) as the reader sees it:
    the numbers that [parseFloat] gives for the attributes [lat] and [lon]
    ([None] is NaN; infinite values are left out), and the children [ele],
    [time] and [name] when they exist ([child_ele] is the parsed number,
    the others the text content). *)
Record PointElement := {
  attr_lat : option Q;
  attr_lon : option Q;
  child_ele : option (ext Q);
  child_time : option string;
  child_name : option string
}.

(** A [trk] or [rte] element: the text of its first [name] descendant, if
    any, and its [trkpt] or [rtept] elements in document order. *)
Record GroupElement := {
  group_name : option string;
  group_points : list PointElement
}.

(** What [DOMParser] returns: whether the document holds a [parsererror],
    the text of the [name] below [metadata] when both exist, and the
    elements that the three [querySelectorAll] calls select. *)
Record Document := {
  parsererror : bool;
  metadata_name : option string;
  trk : list GroupElement;
  rte : list GroupElement;
  wpt : list PointElement
}.

(** The outcome of [FileReader.readAsText]: the [onerror] event, or the
    [onload] event with its result, [None] when the result is empty or
    not a string. *)
Inductive FileRead : Type :=
  | ReadFailed
  | Loaded (xmlContent : option Document).

(** A route point. [p_time] holds the text given to [new Date]; way points
    have no [time] property. *)
Record RoutePoint := {
  p_lat : Q;
  p_lon : Q;
  p_elevation : option (ext Q);
  p_time : option string;
  p_name : string;
  p_index : nat;
  p_isWaypoint : bool
}.

Record Metadata := {
  meta_name : string;
  totalPoints : nat
}.

(** A settled promise. *)
Inductive settled (A : Type) : Type :=
  | Resolve (a : A)
  | Reject (message : string).
Arguments Resolve {A} a.
Arguments Reject {A} message.

(** [element?.textContent || fallback]: a missing element and an empty text
    both give the fallback. *)
Definition text_or (text : option string) (fallback : string) : string :=
  match text with
  | Some t => if decide (t = "") then fallback else t
  | None => fallback
  end.

(** [list.forEach((x, i) => ...)] visits the pairs of [indexed list]. *)
Definition indexed {A} (l : list A) : list (nat * A) := imap pair l.

(** The body of the three loops over point elements:
    [if (!isNaN(lat) && !isNaN(lon)) points.push({..., index: points.length})]. *)
Definition read_point (name : string) (waypoint : bool)
    (points : list RoutePoint) (el : PointElement) : list RoutePoint :=
  match attr_lat el, attr_lon el with
  | Some lat, Some lon =>
      points ++ [
        {| p_lat := lat;
           p_lon := lon;
           p_elevation := child_ele el;
           p_time := if waypoint then None else child_time el;
           p_name := name;
           p_index := length points;
           p_isWaypoint := waypoint |} ]
  | _, _ => points
  end.

(** The body of [tracks.forEach] and of [routes.forEach]; [label] is
    "Track" or "Route". *)
Definition read_group (label : string) (points : list RoutePoint)
    (group : nat * GroupElement) : list RoutePoint :=
  let '(groupIdx, g) := group in
  let currentName :=
    text_or (group_name g) (label +:+ " " +:+ pretty (groupIdx + 1)%nat) in
  foldl (λ points '(pointIdx, el),
           read_point (currentName +:+ " - Point "
                       +:+ pretty (pointIdx + 1)%nat) false points el)
        points (indexed (group_points g)).

(** The body of [waypoints.forEach]. *)
Definition read_waypoint (points : list RoutePoint)
    (waypoint : nat * PointElement) : list RoutePoint :=
  let '(idx, el) := waypoint in
  read_point (text_or (child_name el) ("Waypoint " +:+ pretty (idx + 1)%nat))
             true points el.

(** The points that the three loops collect. *)
Definition collect_points (d : Document) : list RoutePoint :=
  let points := [] in
  let points := foldl (read_group "Track") points (indexed (trk d)) in
  let points := foldl (read_group "Route") points (indexed (rte d)) in
  let points := foldl read_waypoint points (indexed (wpt d)) in
  points.

(** [parseGPXFile]: how the promise settles for each outcome of the file
    read. Nothing in the [try] block throws on a document. *)
Definition parseGPXFile (file : FileRead)
    : settled (list RoutePoint * Metadata) :=
  match file with
  | ReadFailed => Reject "Failed to read file"
  | Loaded None => Reject "File is empty or not readable"
  | Loaded (Some xmlDoc) =>
      if parsererror xmlDoc then Reject "Invalid XML format"
      else
        let trackName := text_or (metadata_name xmlDoc) "GPX Route" in
        let points := collect_points xmlDoc in
        if decide (length points = 0%nat) then
          Reject "No route data found in GPX file. File must contain tracks, routes, or waypoints."
        else
          Resolve (points,
                   {| meta_name := trackName;
                      totalPoints := length points |})
  end.

(** ** Route weather (StandAloneApp.jsx) *)

Section GPXWeather.

(** [x.toFixed(2)], the decimal rendering of a coordinate. *)
Variable toFixed2 : Q → string.

(** [[point.name || `Point ${point.index}`]]; an absent name is falsy
    like the empty one. *)
Definition point_locations (point : RoutePoint) : list string :=
  [ if decide (p_name point = "") then "Point " +:+ pretty (p_index point)
    else p_name point ].

(** The coordinates object built for one sampled point. *)
Definition point_coords (point : RoutePoint) : Coords :=
  {| lat := p_lat point;
     lon := p_lon point;
     name := if decide (p_name point = "")
             then "Lat " +:+ toFixed2 (p_lat point)
                  +:+ ", Lon " +:+ toFixed2 (p_lon point)
             else p_name point |}.

(** [fetchGPXWeatherData]. An entry of [sampledPoints] is [None] when it is
    [undefined]; reading [point.name] then throws inside [map]. When one of
    the fetches throws, [await Promise.all] throws. Both exceptions are
    caught, and the [catch] block answers with mock data, or throws when
    the mock generator does. The fetch for the point at position [k] draws
    its random numbers from [rnd k], the [catch] block from
    [rnd (length sampledPoints)]: the calls of [Math.random] of concurrent
    fetches interleave in no fixed order. *)
Definition fetchGPXWeatherData (W : Provider) (rnd : nat → nat → Q)
    (sampledPoints : list (option RoutePoint)) (startTime : option Z)
    : completion (list WeatherSample * option Coords) :=
  let attempt :=
    points ← mapM id sampledPoints;
    let weatherPromises :=
      imap (λ k point,
              fetchWeatherData W (rnd k) (point_locations point) startTime
                (Some (point_coords point))) points in
    allWeatherResults ← mapM returned weatherPromises;
    Some (aggregatedWeather (fst <$> allWeatherResults),
          match points with
          | point :: _ =>
              Some {| lat := p_lat point; lon := p_lon point;
                      name := "GPX Route" |}
          | [] => None
          end) in
  match attempt with
  | Some result => Return result
  | None =>
      match generateMockWeather (rnd (length sampledPoints)) ["GPX Route"]
              startTime with
      | Return weatherData => Return (weatherData, None)
      | Throw error => Throw error
      end
  end.

End GPXWeather.

(** ** Location list of the search form (StandAloneApp.jsx) *)

(** [handleAddLocation]: the new value of [locations]. *)
Definition handleAddLocation (locations : list string) : list string :=
  if decide (length locations < 3)%nat then locations ++ [""]
  else locations.

(** [handleRemoveLocation]: [locations.filter((_, i) => i !== index)],
    replaced by [['']] when nothing is left. *)
Definition handleRemoveLocation (locations : list string) (index : nat)
    : list string :=
  let newLocations := delete index locations in
  if decide (length newLocations = 0%nat) then [""] else newLocations.

(** ** Vocabulary of the statements *)

(** A plain single-location sample, for examples. *)
Definition sample_at (t code temp wind precip hum : Z) : WeatherSample :=
  {| location := Some "Point"; time := t; temperature := temp;
     temperatureMin := None; temperatureMax := None; windSpeed := wind;
     precipitationChance := precip; humidity := hum; weatherCode := code;
     isAggregated := false |}.

(** Slot [i] resolves: the start time and the time of the slot,
    [startTime + i] hours, are dates, and some hourly position is at or
    after the time of the slot. *)
Definition resolves (hourly : list HourlyRow) (startTime : Z) (i : nat)
    : Prop :=
  (- MAX_TIME ≤ startTime ∧ hour_after startTime i ≤ MAX_TIME)
  ∧ Exists (λ r, hour_after startTime i ≤ h_time r) hourly.

Global Instance resolves_dec hourly startTime i :
  Decision (resolves hourly startTime i) :=
  ltac:(unfold resolves; apply _).

(** The start time and the four hours after it are dates, as
    [generateMockWeather] needs them. *)
Definition five_hours (startTime : option Z) : Prop :=
  match startTime with
  | Some t => - MAX_TIME ≤ t ∧ hour_after t 4 ≤ MAX_TIME
  | None => False
  end.

Global Instance five_hours_dec startTime : Decision (five_hours startTime) :=
  ltac:(destruct startTime; apply _).

(** The ranges of the mock generator's fields. *)
Definition mock_ranges (w : WeatherSample) : Prop :=
  45 ≤ temperature w ≤ 85
  ∧ 5 ≤ windSpeed w ≤ 20
  ∧ 0 ≤ precipitationChance w ≤ 100
  ∧ 40 ≤ humidity w ≤ 80.

(** An example provider: the forecast has three hourly positions, at
    0, 1 and 2 hours. *)
Definition example_coords : Coords :=
  {| lat := 45; lon := 6; name := "Col" |}.

Definition example_hourly : list HourlyRow :=
  (λ i : nat,
     {| h_time := hour_after 0 i; temperature_2m := 41 # 2;
        precipitation_probability := None; wind_speed_10m := 7;
        relative_humidity_2m := 55; weather_code := 3 |}) <$> seq 0 3.

Definition example_provider : Provider :=
  {| geocodeLocation := λ _, None;
     forecast := λ _, Some example_hourly |}.

(** The ids of [EFFORT_LEVELS]. *)
Definition EFFORT_IDS : list string := effort_id <$> EFFORT_LEVELS.

(** The six layer tables. *)
Definition layer_tables : list (ext Q → ext Z → bool → list LayerItem) :=
  [getRunningLayers; getMountainBikeLayers; getRoadBikeLayers;
   getDownhillSkiLayers; getBackcountrySkiLayers; getNordicSkiLayers].

(** A list of layer items that starts with a base layer. *)
Definition starts_with_base_layer (layers : list LayerItem) : Prop :=
  ∃ x rest, layers = x :: rest ∧ type x = "Base Layer".

(** A two-point route whose coldest point is at 0 degrees, the other at 10. *)
Definition zero_degree_route : list (list WeatherSample) :=
  [[sample_at 0 71 0 5 0 60]; [sample_at 0 71 10 5 0 60]].

(** [m] is the least, respectively greatest, member of [xs]. *)
Definition is_min (m : Z) (xs : list Z) : Prop :=
  m ∈ xs ∧ Forall (λ x, m ≤ x) xs.
Definition is_max (m : Z) (xs : list Z) : Prop :=
  m ∈ xs ∧ Forall (λ x, x ≤ m) xs.

(** The entry that the aggregation loop pushes for one hour slot, if any. *)
Definition slot (allWeatherResults : list (list WeatherSample))
    (hourIndex : nat) : list WeatherSample :=
  aggregate_hour [] (hourDataPoints allWeatherResults hourIndex).

(** Two aggregated samples agree on every field that is computed from all
    the collected samples, that is on all but [time] and [weatherCode]. *)
Definition same_summary (a b : WeatherSample) : Prop :=
  location a = location b
  ∧ temperature a = temperature b
  ∧ temperatureMin a = temperatureMin b
  ∧ temperatureMax a = temperatureMax b
  ∧ windSpeed a = windSpeed b
  ∧ precipitationChance a = precipitationChance b
  ∧ humidity a = humidity b
  ∧ isAggregated a = isAggregated b.

(** The sum of a list of integers. *)
Fixpoint total (xs : list Z) : Z :=
  match xs with
  | [] => 0
  | x :: xs' => x + total xs'
  end.

(** [r] is the fraction [num / den], of positive denominator, rounded to
    the nearest integer, a half being rounded up:
    [r - 1/2 <= num / den < r + 1/2]. *)
Definition rounds_to (r num den : Z) : Prop :=
  (2 * r - 1) * den ≤ 2 * num < (2 * r + 1) * den.

(** The samples that hour slot [h] collects: the sample at position [h] of
    every per-point sequence that has one, in the order of the points. *)
Definition samples_at (rs : list (list WeatherSample)) (h : nat)
    : list WeatherSample :=
  rs ≫= (λ r, take 1 (drop h r)).

(** How the fields of an aggregated entry [a] derive from the non-empty
    collection [points] of one hour slot. *)
Definition summarises (a : WeatherSample) (points : list WeatherSample)
    : Prop :=
  ∃ tmin tmax,
    temperatureMin a = Some tmin
    ∧ is_min tmin (temperature <$> points)
    ∧ temperatureMax a = Some tmax
    ∧ is_max tmax (temperature <$> points)
    ∧ rounds_to (temperature a) (tmin + tmax) 2
    ∧ is_max (windSpeed a) (windSpeed <$> points)
    ∧ is_max (precipitationChance a) (precipitationChance <$> points)
    ∧ rounds_to (humidity a) (total (humidity <$> points))
        (Z.of_nat (length points))
    ∧ Some (time a) = head (time <$> points)
    ∧ Some (weatherCode a) = head (weatherCode <$> points).

(** Example routes: two points with the same five temperatures, and two
    one-sample points that differ in weather code. *)
Definition identical_route : list (list WeatherSample) :=
  let r := (λ i : nat, sample_at (Z.of_nat i) 1 (40 + Z.of_nat i) 5 10 60)
             <$> seq 0 5 in
  [r; r].

Definition clear_point : list WeatherSample := [sample_at 0 0 50 5 0 60].
Definition rainy_point : list WeatherSample := [sample_at 0 61 46 9 80 90].

(** The point elements of a document in the order in which the reader
    visits them: those of the tracks, those of the routes, the way points. *)
Definition all_elements (d : Document) : list PointElement :=
  (trk d ≫= group_points) ++ (rte d ≫= group_points) ++ wpt d.

(** The coordinates of a point element whose [lat] and [lon] both parse. *)
Definition element_coords (el : PointElement) : option (Q * Q) :=
  match attr_lat el, attr_lon el with
  | Some lat, Some lon => Some (lat, lon)
  | _, _ => None
  end.

Definition point_coordinates (p : RoutePoint) : Q * Q := (p_lat p, p_lon p).

(** Every point records its own position and has a name. *)
Definition well_indexed (points : list RoutePoint) : Prop :=
  ∀ i p, points !! i = Some p → p_index p = i ∧ p_name p ≠ "".

(** An example document: a track with a point whose latitude does not
    parse between two valid points, and one unnamed way point. *)
Definition example_document : Document :=
  let pt (lat : option Q) : PointElement :=
    {| attr_lat := lat; attr_lon := Some 6%Q; child_ele := None;
       child_time := None; child_name := None |} in
  {| parsererror := false;
     metadata_name := Some "Tour";
     trk := [ {| group_name := None;
                 group_points := [pt (Some 45%Q); pt None; pt (Some 46%Q)] |} ];
     rte := [];
     wpt := [pt (Some 47%Q)] |}.

(** Bounds on temperature, wind speed, precipitation chance and humidity,
    and the samples within them. *)
Record Ranges := {
  t_lo : Z; t_hi : Z;
  w_lo : Z; w_hi : Z;
  p_lo : Z; p_hi : Z;
  h_lo : Z; h_hi : Z
}.

Definition within (R : Ranges) (w : WeatherSample) : Prop :=
  t_lo R ≤ temperature w ≤ t_hi R
  ∧ w_lo R ≤ windSpeed w ≤ w_hi R
  ∧ p_lo R ≤ precipitationChance w ≤ p_hi R
  ∧ h_lo R ≤ humidity w ≤ h_hi R.

(** The minimum and maximum temperature of a sample, when it has them, are
    within the temperature bounds. *)
Definition extremes_within (R : Ranges) (w : WeatherSample) : Prop :=
  (∀ m, temperatureMin w = Some m → t_lo R ≤ m ≤ t_hi R)
  ∧ (∀ m, temperatureMax w = Some m → t_lo R ≤ m ≤ t_hi R).

(** The bounds of [mock_ranges]. *)
Definition mock_bounds : Ranges :=
  {| t_lo := 45; t_hi := 85; w_lo := 5; w_hi := 20;
     p_lo := 0; p_hi := 100; h_lo := 40; h_hi := 80 |}.

(** The least element of a non-empty group, as a list of at most one. *)
Definition group_min (xs : list Z) : list Z :=
  match xs with
  | [] => []
  | x :: xs' => [min_of x xs']
  end.

(** The samples of a route that fall in the five hour slots: the first
    five samples of every point. *)
Definition route_samples (rs : list (list WeatherSample))
    : list WeatherSample :=
  rs ≫= take 5.

(** The coordinates that [fetchGPXWeatherData] returns for a route that
    starts at [point]. *)
Definition route_coords (point : RoutePoint) : Coords :=
  {| lat := p_lat point; lon := p_lon point; name := "GPX Route" |}.

(** A provider whose geocoder and forecast always fail. *)
Definition offline_provider : Provider :=
  {| geocodeLocation := λ _, None; forecast := λ _, None |}.

(** Hot, calm and dry samples: at least 75 degrees, wind at most 15 mph,
    precipitation chance at most 30 percent. *)
Definition hot_calm_dry (w : WeatherSample) : Prop :=
  75 ≤ temperature w ∧ windSpeed w ≤ 15 ∧ precipitationChance w ≤ 30.

(** The warmest band: no threshold up to 65 is above the temperature. *)
Definition warmest (temp : ext Q) : Prop :=
  ∀ c : Q, (c <= 65)%Q → JsNum.ltb temp c = false.

(** The two outer-layer items of the running table. *)
Definition windbreaker : LayerItem :=
  mk "Outer Layer" "Windbreaker jacket" "Wind protection".
Definition rain_jacket : LayerItem :=
  mk "Outer Layer" "Waterproof running jacket" "Rain protection".

(** * Properties *)

(** ** Point sampler *)

Section SamplerFacts.

Context {A : Type} (undefined : A).
Implicit Types (l sampled : list A) (fuel : nat).

Local Arguments index : simpl never.
Local Arguments push : simpl never.

Lemma index_Fin l (z : Z) :
  0 ≤ z → index undefined l (Fin z) = at_index undefined l (Z.to_nat z).
Proof. intros Hz. unfold index. by destruct (Z.leb_spec 0 z); [|lia]. Qed.

Lemma push_Return sampled (x : A) :
  Z.of_nat (length sampled) < MAX_ARRAY_LENGTH →
  push sampled x = Return (sampled ++ [x]).
Proof.
  intros Hlt. unfold push.
  by destruct (Z.ltb_spec (Z.of_nat (length sampled)) MAX_ARRAY_LENGTH);
    [|lia].
Qed.

Lemma push_Throw sampled (x : A) :
  MAX_ARRAY_LENGTH ≤ Z.of_nat (length sampled) →
  push sampled x = Throw "RangeError: Invalid array length".
Proof.
  intros Hge. unfold push.
  by destruct (Z.ltb_spec (Z.of_nat (length sampled)) MAX_ARRAY_LENGTH);
    [lia|].
Qed.

(** More fuel never changes a result. *)
Lemma sample_loop_fuel_mono fuel fuel' l step i sampled out :
  (fuel ≤ fuel')%nat →
  sample_loop undefined fuel l step i sampled = Some out →
  sample_loop undefined fuel' l step i sampled = Some out.
Proof.
  revert fuel' i sampled.
  induction fuel as [|fuel IH]; intros fuel' i sampled Hle; simpl.
  - destruct fuel'; simpl; by destruct (JsInt.ltb _ _).
  - destruct fuel' as [|fuel']; [lia|]. simpl.
    destruct (JsInt.ltb _ _); [|done].
    destruct (push _ _); [|done]. apply IH. lia.
Qed.

(** With a positive finite step the loop ends and pushes the points at
    strictly increasing indices, all below [length - step], unless the
    array of sampled points gets full. *)
Lemma sample_loop_positive_step fuel l (s i : Z) sampled :
  0 < s → 0 ≤ i →
  (Z.to_nat (Z.of_nat (length l) - s - i) ≤ fuel)%nat →
  Z.of_nat (length sampled) ≤ MAX_ARRAY_LENGTH →
  ∃ idxs : list nat,
    sample_loop undefined fuel l (Fin s) (Fin i) sampled
      = Some (if decide (Z.of_nat (length sampled + length idxs)
                         ≤ MAX_ARRAY_LENGTH)
              then Return (sampled ++ (at_index undefined l <$> idxs))
              else Throw "RangeError: Invalid array length")
    ∧ Forall (λ j : nat, i ≤ Z.of_nat j < Z.of_nat (length l) - s) idxs
    ∧ StronglySorted lt idxs
    ∧ Z.of_nat (length idxs) * s ≤ Z.max 0 (Z.of_nat (length l) - i - 1).
Proof.
  intros Hs. revert i sampled.
  induction fuel as [|fuel IH]; intros i sampled Hi Hfuel Hfit; simpl.
  - destruct (Z.ltb_spec i (Z.of_nat (length l) + - s)); [lia|].
    exists []. rewrite app_nil_r, Nat.add_0_r, decide_True by done.
    repeat split; auto using SSorted_nil. simpl. lia.
  - destruct (Z.ltb_spec i (Z.of_nat (length l) + - s)) as [Hlt|Hge].
    + destruct (decide (Z.of_nat (length sampled) < MAX_ARRAY_LENGTH))
        as [Hroom|Hfull].
      * rewrite push_Return by done.
        destruct (IH (i + s) (sampled ++ [index undefined l (Fin i)]))
          as (idxs & Heq & Hrange & Hsorted & Hlen);
          [lia|lia|rewrite length_app; simpl; lia|].
        exists (Z.to_nat i :: idxs). rewrite Heq, index_Fin by done.
        rewrite <- app_assoc, length_app. simpl length. repeat split.
        -- repeat case_decide; (done || lia).
        -- constructor; [lia|].
           eapply Forall_impl; [exact Hrange|]. simpl. lia.
        -- constructor; [done|].
           eapply Forall_impl; [exact Hrange|]. simpl. lia.
        -- lia.
      * rewrite push_Throw by lia.
        exists [Z.to_nat i]. simpl length.
        rewrite decide_False by lia. repeat split.
        -- repeat constructor; lia.
        -- repeat constructor.
        -- lia.
    + exists []. rewrite app_nil_r, Nat.add_0_r, decide_True by done.
      repeat split; auto using SSorted_nil. simpl. lia.
Qed.

(** With a step that is not positive the loop condition stays true: the
    loop pushes until the array of sampled points is full, and the next
    [push] throws. *)
Lemma sample_loop_nonpositive_step fuel l (s i : Z) sampled :
  s ≤ 0 → i ≤ 0 → l ≠ [] →
  Z.of_nat (length sampled) ≤ MAX_ARRAY_LENGTH →
  sample_loop undefined fuel l (Fin s) (Fin i) sampled
  = if decide (MAX_ARRAY_LENGTH - Z.of_nat (length sampled) < Z.of_nat fuel)
    then Some (Throw "RangeError: Invalid array length")
    else None.
Proof.
  intros Hs Hi Hl. revert i sampled Hi.
  assert (0 < Z.of_nat (length l)) by (destruct l; [done|simpl; lia]).
  induction fuel as [|fuel IH]; intros i sampled Hi Hfit; simpl;
    destruct (Z.ltb_spec i (Z.of_nat (length l) + - s)); try lia.
  - by rewrite decide_False by lia.
  - destruct (decide (Z.of_nat (length sampled) < MAX_ARRAY_LENGTH))
      as [Hroom|Hfull].
    + rewrite push_Return by done.
      rewrite IH by (rewrite ?length_app; simpl; lia).
      rewrite length_app. simpl length. repeat case_decide; (done || lia).
    + rewrite push_Throw by lia. by rewrite decide_True by lia.
Qed.

(** The points at strictly increasing indices form a subsequence. *)
Lemma at_index_sorted_sublist l (idxs : list nat) (k : nat) :
  StronglySorted lt idxs →
  Forall (λ j, k ≤ j < length l)%nat idxs →
  (at_index undefined l <$> idxs) `sublist_of` drop k l.
Proof.
  intros Hsorted. revert k.
  induction Hsorted as [|j idxs Hsorted IH Hj]; intros k Hrange; simpl.
  - apply sublist_nil_l.
  - apply Forall_cons in Hrange as [[Hk Hlen] Hrange].
    destruct (lookup_lt_is_Some_2 l j Hlen) as [x Hx].
    trans (drop j l).
    + rewrite (drop_S l x j Hx). unfold at_index at 1. rewrite Hx. simpl.
      apply sublist_skip, IH.
      apply Forall_forall. intros j' Hj'.
      rewrite Forall_forall in Hj, Hrange.
      specialize (Hj _ Hj'). specialize (Hrange _ Hj'). lia.
    + replace j with (k + (j - k))%nat by lia.
      rewrite <- drop_drop. apply sublist_drop.
Qed.

(** Early return: a route with at most [targetCount] points. *)
Lemma samplePoints_short fuel l (targetCount : Z) :
  Z.of_nat (length l) ≤ targetCount →
  samplePoints undefined fuel l targetCount = Some (Return l).
Proof.
  intros Hle. unfold samplePoints.
  by destruct (Z.leb_spec (Z.of_nat (length l)) targetCount); [|lia].
Qed.

(** The sampled route for a target of at least two, as a list of
    indices into the route. *)
Lemma samplePoints_indices l (targetCount : Z) :
  2 ≤ targetCount → targetCount < Z.of_nat (length l) →
  ∃ idxs : list nat,
    (∀ fuel, (length l ≤ fuel)%nat →
       samplePoints undefined fuel l targetCount
         = Some (if decide (Z.of_nat (length idxs) + 2 ≤ MAX_ARRAY_LENGTH)
                 then Return (at_index undefined l
                                <$> (0%nat :: idxs ++ [pred (length l)]))
                 else Throw "RangeError: Invalid array length"))
    ∧ StronglySorted lt (0%nat :: idxs ++ [pred (length l)])
    ∧ Forall (λ j, j < length l)%nat (0%nat :: idxs ++ [pred (length l)])
    ∧ Z.of_nat (length idxs) + 2 ≤ 2 * targetCount - 2.
Proof.
  intros HT HL.
  set (n := Z.of_nat (length l) - 1). set (m := targetCount - 1).
  assert (Hs : 0 < n / m) by (apply Z.div_str_pos; lia).
  assert (Hmod : n = m * (n / m) + n mod m ∧ 0 ≤ n mod m < m).
  { split; [apply Z.div_mod; lia | apply Z.mod_pos_bound; lia]. }
  assert (Hmax : MAX_ARRAY_LENGTH = 4294967295) by done.
  destruct (sample_loop_positive_step (length l) l (n / m) (n / m)
              [index undefined l (Fin 0)])
    as (idxs & Heq & Hrange & Hsorted & Hlen); [simpl; lia..|].
  exists idxs. split; [|split; [|split]].
  - intros fuel Hfuel. unfold samplePoints.
    destruct (Z.leb_spec (Z.of_nat (length l)) targetCount); [lia|].
    unfold JsInt.floor_div. fold n m.
    destruct (Z.eqb_spec m 0); [lia|].
    rewrite (sample_loop_fuel_mono _ _ _ _ _ _ _ Hfuel Heq).
    simpl length.
    destruct (decide (Z.of_nat (1 + length idxs) ≤ MAX_ARRAY_LENGTH))
      as [Hloop|Hloop]; cbv beta iota.
    + destruct (decide (Z.of_nat (length idxs) + 2 ≤ MAX_ARRAY_LENGTH))
        as [Hfit|Hfull].
      * rewrite push_Return by (rewrite length_app, length_fmap; simpl; lia).
        rewrite !index_Fin by lia. rewrite fmap_cons, fmap_app. simpl.
        by replace (Z.to_nat n) with (pred (length l)) by (subst n; lia).
      * by rewrite push_Throw
          by (rewrite length_app, length_fmap; simpl; lia).
    + by rewrite decide_False by lia.
  - constructor.
    + apply StronglySorted_app_2; [|done|repeat constructor].
      intros j k Hj ->%list_elem_of_singleton.
      rewrite Forall_forall in Hrange. specialize (Hrange _ Hj). lia.
    + apply Forall_app. split.
      * eapply Forall_impl; [exact Hrange|]. simpl. lia.
      * repeat constructor. lia.
  - constructor; [lia|]. apply Forall_app. split.
    + eapply Forall_impl; [exact Hrange|]. simpl. lia.
    + repeat constructor. lia.
  - assert (n / m ≤ n) by nia.
    assert ((Z.of_nat (length idxs) + 1) * (n / m) < 2 * m * (n / m)) by nia.
    nia.
Qed.

(** C1, amended. For a route (an array, of at most [2^32 - 1] points)
    longer than [targetCount], with [targetCount >= 2], [samplePoints]
    returns (the loop ends within [length] iterations) a list that starts
    with the first point of the route, ends with its last point and is a
    subsequence of the route. *)
Theorem samplePoints_ends_order l (targetCount : Z) :
  2 ≤ targetCount → targetCount < Z.of_nat (length l) →
  Z.of_nat (length l) ≤ MAX_ARRAY_LENGTH →
  ∃ out,
    (∀ fuel, (length l ≤ fuel)%nat →
       samplePoints undefined fuel l targetCount = Some (Return out))
    ∧ head out = head l
    ∧ last out = last l
    ∧ out `sublist_of` l.
Proof.
  intros HT HL Harray.
  destruct (samplePoints_indices l targetCount HT HL)
    as (idxs & Hrun & Hsorted & Hrange & _).
  assert (Hsub : (at_index undefined l
                    <$> (0%nat :: idxs ++ [pred (length l)]))
                 `sublist_of` l).
  { apply (at_index_sorted_sublist l _ 0 Hsorted).
    eapply Forall_impl; [exact Hrange|]. simpl. lia. }
  assert (Hfit : Z.of_nat (length idxs) + 2 ≤ MAX_ARRAY_LENGTH).
  { apply sublist_length in Hsub.
    rewrite length_fmap in Hsub. simpl in Hsub.
    rewrite length_app in Hsub. simpl in Hsub. lia. }
  rewrite decide_True in Hrun by done.
  eexists. split; [exact Hrun|].
  destruct (lookup_lt_is_Some_2 l 0) as [x0 Hx0]; [lia|].
  destruct (lookup_lt_is_Some_2 l (pred (length l))) as [xn Hxn]; [lia|].
  repeat split.
  - rewrite (head_lookup l), Hx0. simpl. unfold at_index. by rewrite Hx0.
  - rewrite (last_lookup l), Hxn.
    change (0%nat :: idxs ++ [pred (length l)])
      with ((0%nat :: idxs) ++ [pred (length l)]).
    rewrite fmap_app. simpl fmap at 2. rewrite last_snoc.
    unfold at_index. by rewrite Hxn.
  - exact Hsub.
Qed.

(** C5, amended. With [targetCount = 1] the step is [Infinity], the loop
    body never runs and [samplePoints] returns the first and last points.
    With [targetCount <= 0] and a non-empty route the step is not positive
    and the loop condition stays true: [samplePoints] returns no result,
    whatever the fuel, and it fails with the [RangeError] of [push] once
    the array of sampled points is full, after at most [2^32 - 1]
    iterations. *)
Theorem samplePoints_degenerate_target l (targetCount : Z) :
  targetCount < Z.of_nat (length l) → targetCount ≤ 1 →
  (targetCount = 1 →
     ∀ fuel, samplePoints undefined fuel l targetCount
             = Some (Return [at_index undefined l 0;
                             at_index undefined l (pred (length l))]))
  ∧ (targetCount ≤ 0 → l ≠ [] →
     (∀ fuel out,
        samplePoints undefined fuel l targetCount ≠ Some (Return out))
     ∧ (∀ fuel, MAX_ARRAY_LENGTH ≤ Z.of_nat fuel →
          samplePoints undefined fuel l targetCount
          = Some (Throw "RangeError: Invalid array length"))).
Proof.
  intros HL HT.
  assert (Hmax : MAX_ARRAY_LENGTH = 4294967295) by done.
  split.
  - intros -> fuel. unfold samplePoints.
    destruct (Z.leb_spec (Z.of_nat (length l)) 1); [lia|].
    unfold JsInt.floor_div. simpl.
    destruct (Z.ltb_spec 0 (Z.of_nat (length l) - 1)); [|lia].
    destruct fuel; simpl; rewrite push_Return by (simpl; lia);
      rewrite !index_Fin by lia; simpl;
      by replace (Z.to_nat (Z.of_nat (length l) - 1))
           with (pred (length l)) by lia.
  - intros HT0 Hl.
    assert (Hrun : ∀ fuel,
      samplePoints undefined fuel l targetCount
      = if decide (MAX_ARRAY_LENGTH ≤ Z.of_nat fuel)
        then Some (Throw "RangeError: Invalid array length") else None).
    { intros fuel. unfold samplePoints.
      destruct (Z.leb_spec (Z.of_nat (length l)) targetCount); [lia|].
      unfold JsInt.floor_div.
      destruct (Z.eqb_spec (targetCount - 1) 0); [lia|].
      pose proof (Z.div_mod (Z.of_nat (length l) - 1) (targetCount - 1)).
      pose proof (Z.mod_neg_bound (Z.of_nat (length l) - 1)
                    (targetCount - 1)).
      rewrite sample_loop_nonpositive_step;
        [|nia|nia|done|simpl; lia].
      simpl length. repeat case_decide; (done || lia). }
    split.
    + intros fuel out. rewrite Hrun. by case_decide.
    + intros fuel Hfuel. rewrite Hrun. by rewrite decide_True.
Qed.

(** C8. A route with at most [targetCount] points is returned unchanged,
    whatever the fuel; hence a sampled route that has at most
    [targetCount] points is unchanged by sampling it again. *)
Theorem samplePoints_identity_idempotent l (targetCount : Z) :
  (Z.of_nat (length l) ≤ targetCount →
     ∀ fuel, samplePoints undefined fuel l targetCount = Some (Return l))
  ∧ (∀ fuel out,
       samplePoints undefined fuel l targetCount = Some (Return out) →
       Z.of_nat (length out) ≤ targetCount →
       ∀ fuel', samplePoints undefined fuel' out targetCount
                = Some (Return out)).
Proof.
  split.
  - intros Hle fuel. by apply samplePoints_short.
  - intros fuel out _ Hle fuel'. by apply samplePoints_short.
Qed.

End SamplerFacts.

(** Witness of C1: a route of 19 points sampled for 10. *)
Lemma samplePoints_ends_order_witness :
  ∃ out,
    (∀ fuel, (length (seq 1 19) ≤ fuel)%nat →
       samplePoints 0%nat fuel (seq 1 19) 10 = Some (Return out))
    ∧ head out = head (seq 1 19)
    ∧ last out = last (seq 1 19)
    ∧ out `sublist_of` seq 1 19.
Proof.
  apply (samplePoints_ends_order 0%nat (seq 1 19) 10);
    unfold MAX_ARRAY_LENGTH; simpl; lia.
Defined.

(** C1 as stated fails: a route of 11 points sampled for 10 keeps all 11. *)
Lemma samplePoints_exceeds_targetCount :
  2 ≤ 10 ∧ 10 < Z.of_nat (length (seq 1 11))
  ∧ ∃ out, samplePoints 0%nat 11 (seq 1 11) 10 = Some (Return out)
           ∧ ¬ Z.of_nat (length out) ≤ 10.
Proof.
  split; [lia|]. split; [simpl; lia|].
  exists (seq 1 11). split; [reflexivity|]. simpl. lia.
Qed.

(** Witness of C5: three points with target 1, one point with target 0. *)
Lemma samplePoints_degenerate_target_witness :
  (∀ fuel, samplePoints 0%nat fuel [7; 8; 9]%nat 1
           = Some (Return [7; 9]%nat))
  ∧ (∀ fuel out, samplePoints 0%nat fuel [7]%nat 0 ≠ Some (Return out))
  ∧ (∀ fuel, MAX_ARRAY_LENGTH ≤ Z.of_nat fuel →
       samplePoints 0%nat fuel [7]%nat 0
       = Some (Throw "RangeError: Invalid array length")).
Proof.
  split.
  - apply (samplePoints_degenerate_target 0%nat [7; 8; 9]%nat 1);
      simpl; lia.
  - apply (samplePoints_degenerate_target 0%nat [7]%nat 0);
      simpl; (lia || done).
Defined.

(** C5 as stated fails: with target 1 the function returns normally, and
    so it does for an empty route with a negative target. *)
Lemma samplePoints_target_one_returns :
  Z.of_nat (length [7; 8; 9]%nat) > 1 ∧ 1 ≤ 1
  ∧ samplePoints 0%nat 0 [7; 8; 9]%nat 1 = Some (Return [7; 9]%nat)
  ∧ Z.of_nat (length (@nil nat)) > -3 ∧ -3 ≤ 1
  ∧ samplePoints 0%nat 0 [] (-3) = Some (Return [0; 0]%nat).
Proof.
  split; [simpl; lia|]. split; [lia|]. split; [reflexivity|].
  split; [simpl; lia|]. split; [lia|reflexivity].
Qed.

(** Witness of C8: a short route, and a sampled route sampled again. *)
Lemma samplePoints_identity_idempotent_witness :
  samplePoints 0%nat 0 [7; 8; 9]%nat 10 = Some (Return [7; 8; 9]%nat)
  ∧ samplePoints 0%nat 0 [1; 3; 5; 7; 9; 11; 13; 15; 17; 19]%nat 10
    = Some (Return [1; 3; 5; 7; 9; 11; 13; 15; 17; 19]%nat).
Proof.
  split.
  - apply (samplePoints_identity_idempotent 0%nat [7; 8; 9]%nat 10).
    simpl; lia.
  - apply (proj2 (samplePoints_identity_idempotent 0%nat (seq 1 19) 10)
             19%nat).
    + reflexivity.
    + simpl; lia.
Defined.

(** ** Minimum, maximum, sum and rounding *)

Lemma min_of_le_init x xs : min_of x xs ≤ x.
Proof.
  unfold min_of. revert x.
  induction xs as [|y ys IH]; intros x; simpl; [lia|].
  specialize (IH (Z.min x y)). lia.
Qed.

Lemma min_of_spec x xs : is_min (min_of x xs) (x :: xs).
Proof.
  unfold is_min, min_of. revert x.
  induction xs as [|y ys IH]; intros x; simpl.
  - split; [left|repeat constructor; lia].
  - destruct (IH (Z.min x y)) as [Hin Hall].
    apply Forall_cons in Hall as [Hhd Hall]. split.
    + apply elem_of_cons in Hin as [Hin|Hin]; [|by do 2 right].
      rewrite Hin. destruct (Z.min_spec x y) as [[_ ->]|[_ ->]];
        [left|right; left].
    + repeat constructor; [lia|lia|done].
Qed.

Lemma max_of_spec x xs : is_max (max_of x xs) (x :: xs).
Proof.
  unfold is_max, max_of. revert x.
  induction xs as [|y ys IH]; intros x; simpl.
  - split; [left|repeat constructor; lia].
  - destruct (IH (Z.max x y)) as [Hin Hall].
    apply Forall_cons in Hall as [Hhd Hall]. split.
    + apply elem_of_cons in Hin as [Hin|Hin]; [|by do 2 right].
      rewrite Hin. destruct (Z.max_spec x y) as [[_ ->]|[_ ->]];
        [right; left|left].
    + repeat constructor; [lia|lia|done].
Qed.

Lemma is_min_unique m m' xs : is_min m xs → is_min m' xs → m = m'.
Proof.
  intros [Hin Hall] [Hin' Hall']. rewrite Forall_forall in Hall, Hall'.
  specialize (Hall _ Hin'). specialize (Hall' _ Hin). lia.
Qed.

Lemma is_max_unique m m' xs : is_max m xs → is_max m' xs → m = m'.
Proof.
  intros [Hin Hall] [Hin' Hall']. rewrite Forall_forall in Hall, Hall'.
  specialize (Hall _ Hin'). specialize (Hall' _ Hin). lia.
Qed.

Lemma is_min_perm m xs ys : xs ≡ₚ ys → is_min m xs → is_min m ys.
Proof. intros Hp [Hin Hall]. split; by rewrite <- Hp. Qed.

Lemma is_max_perm m xs ys : xs ≡ₚ ys → is_max m xs → is_max m ys.
Proof. intros Hp [Hin Hall]. split; by rewrite <- Hp. Qed.

Lemma min_of_perm x xs y ys : x :: xs ≡ₚ y :: ys → min_of x xs = min_of y ys.
Proof.
  intros Hp. eapply is_min_unique; [|apply min_of_spec].
  eapply is_min_perm; [exact Hp|apply min_of_spec].
Qed.

Lemma max_of_perm x xs y ys : x :: xs ≡ₚ y :: ys → max_of x xs = max_of y ys.
Proof.
  intros Hp. eapply is_max_unique; [|apply max_of_spec].
  eapply is_max_perm; [exact Hp|apply max_of_spec].
Qed.

Lemma sum_of_foldl a xs : foldl Z.add a xs = a + sum_of xs.
Proof.
  unfold sum_of. revert a.
  induction xs as [|x xs IH]; intros a; simpl; [lia|].
  rewrite (IH (a + x)), (IH (0 + x)). lia.
Qed.

(** [sum_of] is the sum of the list. *)
Lemma sum_of_cons x xs : sum_of (x :: xs) = x + sum_of xs.
Proof. unfold sum_of at 1. simpl. apply sum_of_foldl. Qed.

Lemma sum_of_perm xs ys : xs ≡ₚ ys → sum_of xs = sum_of ys.
Proof.
  induction 1 as [|x xs ys _ IH|x y xs|xs ys zs _ IH1 _ IH2];
    rewrite ?sum_of_cons; lia.
Qed.

(** [Math_round q] is the integer [r] with [r - 1/2 <= q < r + 1/2]. *)
Lemma Math_round_spec q :
  (inject_Z (Math_round q) - (1 # 2) <= q
   ∧ q < inject_Z (Math_round q) + (1 # 2))%Q.
Proof.
  unfold Math_round.
  pose proof (Qfloor_le (q + (1 # 2))) as Hlo.
  pose proof (Qlt_floor (q + (1 # 2))) as Hhi.
  rewrite inject_Z_plus in Hhi. change (inject_Z 1) with 1%Q in Hhi.
  split; lra.
Qed.

(** A value in [[a, b)] rounds into [[a, b]]. *)
Lemma Math_round_range (a b : Z) q :
  (inject_Z a <= q)%Q → (q < inject_Z b)%Q → a ≤ Math_round q ≤ b.
Proof.
  intros Ha Hb. destruct (Math_round_spec q) as [Hlo Hhi]. split.
  - assert (inject_Z a < inject_Z (Math_round q + 1))%Q as H
      by (rewrite inject_Z_plus; change (inject_Z 1) with 1%Q; lra).
    rewrite <- Zlt_Qlt in H. lia.
  - assert (inject_Z (Math_round q) < inject_Z (b + 1))%Q as H
      by (rewrite inject_Z_plus; change (inject_Z 1) with 1%Q; lra).
    rewrite <- Zlt_Qlt in H. lia.
Qed.

Lemma Math_round_comp q q' : (q == q')%Q → Math_round q = Math_round q'.
Proof. intros Heq. unfold Math_round. by rewrite Heq. Qed.

Lemma Math_round_inject_Z (v : Z) : Math_round (inject_Z v) = v.
Proof.
  destruct (Math_round_spec (inject_Z v)) as [Hlo Hhi].
  assert (inject_Z (Math_round (inject_Z v)) < inject_Z (v + 1))%Q as H1
    by (rewrite inject_Z_plus; change (inject_Z 1) with 1%Q; lra).
  assert (inject_Z v < inject_Z (Math_round (inject_Z v) + 1))%Q as H2
    by (rewrite inject_Z_plus; change (inject_Z 1) with 1%Q; lra).
  rewrite <- Zlt_Qlt in H1, H2. lia.
Qed.

(** Rounding the midpoint of an integer with itself gives it back. *)
Lemma Math_round_midpoint_same (v : Z) :
  Math_round ((inject_Z v + inject_Z v) / 2)%Q = v.
Proof.
  rewrite <- (Math_round_inject_Z v) at 3.
  apply Math_round_comp. field.
Qed.

(** [sum_of] is the sum of the list. *)
Lemma sum_of_total xs : sum_of xs = total xs.
Proof.
  induction xs as [|x xs IH]; [done|]. rewrite sum_of_cons, IH. done.
Qed.

(** Rounding a fraction of integers. *)
Lemma Math_round_fraction (num den : Z) :
  0 < den → rounds_to (Math_round (inject_Z num / inject_Z den)) num den.
Proof.
  intros Hden. unfold rounds_to.
  set (q := (inject_Z num / inject_Z den)%Q).
  destruct (Math_round_spec q) as [Hlo Hhi].
  set (r := Math_round q) in *.
  assert (HD : (inject_Z 0 < inject_Z den)%Q) by (by rewrite <- Zlt_Qlt).
  change (inject_Z 0) with 0%Q in HD.
  assert (Hq : (q * inject_Z den == inject_Z num)%Q).
  { unfold q. field. intros H. rewrite H in HD. by apply Qlt_irrefl in HD. }
  assert (H1 : (inject_Z (2 * r * den) <= inject_Z (2 * num + den))%Q).
  { rewrite inject_Z_plus, !inject_Z_mult.
    change (inject_Z 2) with 2%Q. rewrite <- Hq. nra. }
  assert (H2 : (inject_Z (2 * num) < inject_Z (2 * r * den + den))%Q).
  { rewrite inject_Z_plus, !inject_Z_mult.
    change (inject_Z 2) with 2%Q. rewrite <- Hq. nra. }
  rewrite <- Zle_Qle in H1. rewrite <- Zlt_Qlt in H2. lia.
Qed.

(** Rounding the midpoint of two integers. *)
Lemma Math_round_midpoint (a b : Z) :
  rounds_to (Math_round ((inject_Z a + inject_Z b) / 2)%Q) (a + b) 2.
Proof.
  rewrite (Math_round_comp _ (inject_Z (a + b) / inject_Z 2)%Q).
  - by apply Math_round_fraction.
  - rewrite inject_Z_plus. reflexivity.
Qed.

(** ** Multi-point aggregation *)

Section AggregationFacts.

Implicit Types (rs : list (list WeatherSample)) (h : nat).

Lemma aggregate_hour_app acc points :
  aggregate_hour acc points = acc ++ aggregate_hour [] points.
Proof. destruct points; simpl; [by rewrite app_nil_r|done]. Qed.

Lemma aggregation_loop rs acc hs :
  foldl (λ acc h, aggregate_hour acc (hourDataPoints rs h)) acc hs
  = acc ++ (hs ≫= slot rs).
Proof.
  revert acc. induction hs as [|h hs IH]; intros acc; simpl.
  - by rewrite app_nil_r.
  - rewrite IH, aggregate_hour_app, <- app_assoc. done.
Qed.

(** The aggregate is the concatenation of the five slots, in slot order. *)
Lemma aggregatedWeather_slots rs :
  aggregatedWeather rs
  = slot rs 0 ++ slot rs 1 ++ slot rs 2 ++ slot rs 3 ++ slot rs 4.
Proof.
  unfold aggregatedWeather. rewrite aggregation_loop. simpl.
  by rewrite app_nil_r.
Qed.

Lemma elem_of_hourDataPoints rs h s :
  s ∈ hourDataPoints rs h ↔ ∃ r, r ∈ rs ∧ r !! h = Some s.
Proof. apply list_elem_of_omap. Qed.

(** A slot collects nothing exactly when no point reaches it. *)
Lemma hourDataPoints_nil rs h :
  hourDataPoints rs h = [] ↔ (max_list (length <$> rs) ≤ h)%nat.
Proof.
  unfold hourDataPoints. induction rs as [|r rs IH]; csimpl.
  - split; [lia|done].
  - destruct (r !! h) as [s|] eqn:Hr.
    + apply lookup_lt_Some in Hr. split; [done|intros; exfalso; lia].
    + apply lookup_ge_None in Hr. rewrite IH. lia.
Qed.

Lemma slot_length rs h :
  length (slot rs h)
  = if decide (h < max_list (length <$> rs))%nat then 1%nat else 0%nat.
Proof.
  unfold slot. pose proof (hourDataPoints_nil rs h) as Hnil.
  destruct (hourDataPoints rs h) as [|d0 ds]; simpl.
  - case_decide; [|done]. destruct Hnil as [Hnil _]. specialize (Hnil eq_refl). lia.
  - rewrite decide_True; [done|].
    destruct (decide (h < max_list (length <$> rs))%nat); [done|].
    destruct Hnil as [_ Hnil]. discriminate Hnil. lia.
Qed.

Lemma slot_length_le rs h : (length (slot rs h) ≤ 1)%nat.
Proof. rewrite slot_length. case_decide; lia. Qed.

(** C2, amended. The aggregate has one entry for every slot below 5 that
    at least one point reaches: its length is the smaller of 5 and the
    greatest per-point length. A slot gives an entry exactly when some
    point has a sample at that index; it is dropped only when no point
    has one. *)
Theorem aggregatedWeather_length rs :
  length (aggregatedWeather rs) = (5 `min` max_list (length <$> rs))%nat
  ∧ ∀ h, (h < 5)%nat →
      (∃ a, slot rs h = [a]) ↔ (∃ r, r ∈ rs ∧ (h < length r)%nat).
Proof.
  split.
  - rewrite aggregatedWeather_slots, !length_app, !slot_length.
    repeat case_decide; lia.
  - intros h _. pose proof (hourDataPoints_nil rs h) as Hnil. split.
    + intros [a Ha]. unfold slot in Ha.
      destruct (hourDataPoints rs h) as [|d0 ds] eqn:Hpts; [done|].
      assert (d0 ∈ hourDataPoints rs h) as Hin by (rewrite Hpts; left).
      apply elem_of_hourDataPoints in Hin as (r & Hr & Hlookup).
      exists r. split; [done|]. by eapply lookup_lt_Some.
    + intros (r & Hr & Hlen). unfold slot.
      destruct (hourDataPoints rs h) as [|d0 ds]; simpl; [|by eexists].
      destruct Hnil as [Hnil _]. specialize (Hnil eq_refl).
      assert (length r ≤ max_list (length <$> rs))%nat
        by (apply max_list_elem_of_le, list_elem_of_fmap; eauto).
      lia.
Qed.

Lemma slot_cons rs h d0 ds :
  hourDataPoints rs h = d0 :: ds → slot rs h = [aggregate_points d0 ds].
Proof. unfold slot. by intros ->. Qed.

Lemma slot_inv rs h a :
  a ∈ slot rs h →
  ∃ d0 ds, hourDataPoints rs h = d0 :: ds ∧ a = aggregate_points d0 ds.
Proof.
  unfold slot. destruct (hourDataPoints rs h) as [|d0 ds]; simpl.
  - by intros ?%elem_of_nil.
  - intros ->%list_elem_of_singleton. eauto.
Qed.

(** Slot order: the slots that give an entry are the first ones, so the
    entry at position [h] of the aggregate is the one of hour slot [h]. *)
Lemma slot_nil rs h :
  (max_list (length <$> rs) ≤ h)%nat → slot rs h = [].
Proof. intros Hh%hourDataPoints_nil. unfold slot. by rewrite Hh. Qed.

Lemma slots_nil rs k n :
  (max_list (length <$> rs) ≤ k)%nat → seq k n ≫= slot rs = [].
Proof.
  revert k. induction n as [|n IH]; intros k Hk; [done|].
  simpl seq. rewrite bind_cons, slot_nil, IH by lia. done.
Qed.

Lemma slots_lookup rs k n i :
  (i < n)%nat → (seq k n ≫= slot rs) !! i = head (slot rs (k + i)).
Proof.
  revert k i. induction n as [|n IH]; intros k i Hi; [lia|].
  simpl seq. rewrite bind_cons.
  pose proof (slot_length rs k) as Hlen.
  destruct (slot rs k) as [|x [|??]] eqn:Hk; simpl in Hlen;
    case_decide; try lia.
  - rewrite slots_nil, slot_nil by lia. done.
  - destruct i as [|i]; simpl.
    + by rewrite Nat.add_0_r, Hk.
    + rewrite IH by lia. do 2 f_equal. lia.
Qed.

Lemma aggregatedWeather_lookup rs h :
  (h < 5)%nat → aggregatedWeather rs !! h = head (slot rs h).
Proof.
  intros Hh. unfold aggregatedWeather. rewrite aggregation_loop.
  exact (slots_lookup rs 0 5 h Hh).
Qed.

(** The summary fields of a slot do not depend on the order in which the
    samples were collected. *)
Lemma aggregate_points_perm d0 ds e0 es :
  d0 :: ds ≡ₚ e0 :: es →
  same_summary (aggregate_points d0 ds) (aggregate_points e0 es).
Proof.
  intros Hp.
  pose proof (fmap_Permutation temperature _ _ Hp) as Ht.
  pose proof (fmap_Permutation windSpeed _ _ Hp) as Hw.
  pose proof (fmap_Permutation precipitationChance _ _ Hp) as Hpr.
  pose proof (fmap_Permutation humidity _ _ Hp) as Hh.
  unfold same_summary, aggregate_points. cbv zeta.
  cbn [location temperature temperatureMin temperatureMax windSpeed
       precipitationChance humidity isAggregated].
  assert (min_of (temperature d0) (temperature <$> ds)
          = min_of (temperature e0) (temperature <$> es)) as ->
    by (by apply min_of_perm).
  assert (max_of (temperature d0) (temperature <$> ds)
          = max_of (temperature e0) (temperature <$> es)) as ->
    by (by apply max_of_perm).
  assert (max_of (windSpeed d0) (windSpeed <$> ds)
          = max_of (windSpeed e0) (windSpeed <$> es)) as ->
    by (by apply max_of_perm).
  assert (max_of (precipitationChance d0) (precipitationChance <$> ds)
          = max_of (precipitationChance e0) (precipitationChance <$> es))
    as -> by (by apply max_of_perm).
  rewrite (sum_of_perm _ _ Hh), (Permutation_length Hh).
  done.
Qed.

Lemma hourDataPoints_perm rs rs' h :
  rs ≡ₚ rs' → hourDataPoints rs h ≡ₚ hourDataPoints rs' h.
Proof. intros Hp. unfold hourDataPoints. by rewrite Hp. Qed.

Lemma slot_perm rs rs' h :
  rs ≡ₚ rs' → Forall2 same_summary (slot rs h) (slot rs' h).
Proof.
  intros Hp%(hourDataPoints_perm _ _ h). unfold slot.
  destruct (hourDataPoints rs h) as [|d0 ds],
    (hourDataPoints rs' h) as [|e0 es]; simpl.
  - constructor.
  - by apply Permutation_nil_cons in Hp.
  - symmetry in Hp. by apply Permutation_nil_cons in Hp.
  - constructor; [by apply aggregate_points_perm|constructor].
Qed.

(** When the samples collected for a slot agree on [time] and
    [weatherCode], the whole entry is independent of their order. *)
Lemma slot_perm_eq rs rs' h :
  rs ≡ₚ rs' →
  (∀ s s', s ∈ hourDataPoints rs h → s' ∈ hourDataPoints rs h →
           time s = time s' ∧ weatherCode s = weatherCode s') →
  slot rs h = slot rs' h.
Proof.
  intros Hp%(hourDataPoints_perm _ _ h) Hsame. unfold slot.
  destruct (hourDataPoints rs h) as [|d0 ds],
    (hourDataPoints rs' h) as [|e0 es]; simpl.
  - done.
  - by apply Permutation_nil_cons in Hp.
  - symmetry in Hp. by apply Permutation_nil_cons in Hp.
  - f_equal.
    destruct (Hsame d0 e0) as [Htime Hcode]; [left|rewrite Hp; left|].
    destruct (aggregate_points_perm _ _ _ _ Hp)
      as (Hl & Ht & Hmin & Hmax & Hw & Hpr & Hh & Ha).
    unfold aggregate_points in *. cbv zeta in *.
    cbn [location temperature temperatureMin temperatureMax windSpeed
         precipitationChance humidity isAggregated] in *.
    rewrite Htime, Hcode. by f_equal.
Qed.

(** The sample at position [h] of one sequence, as a list of at most
    one. *)
Lemma take_1_drop {X} (r : list X) h :
  take 1 (drop h r) = option_list (r !! h).
Proof.
  revert h. induction r as [|x r IH]; intros [|h]; simpl; done.
Qed.

(** The loop collects, for slot [h], the samples at position [h] of the
    points that have one. *)
Lemma hourDataPoints_samples_at rs h : hourDataPoints rs h = samples_at rs h.
Proof.
  unfold hourDataPoints, samples_at.
  induction rs as [|r rs IH]; [done|].
  rewrite bind_cons, take_1_drop, <- IH. simpl.
  by destruct (r !! h).
Qed.

Lemma aggregate_points_summarises d0 ds :
  summarises (aggregate_points d0 ds) (d0 :: ds).
Proof.
  exists (min_of (temperature d0) (temperature <$> ds)),
         (max_of (temperature d0) (temperature <$> ds)).
  unfold aggregate_points. cbv zeta.
  cbn [time temperature temperatureMin temperatureMax windSpeed
       precipitationChance humidity weatherCode].
  rewrite length_fmap, sum_of_total.
  split_and!; try done;
    first [apply min_of_spec | apply max_of_spec
          | apply Math_round_midpoint | apply Math_round_fraction].
  simpl. lia.
Qed.

(** C6. The entries of the aggregate are those of the slots below 5 whose
    collection of per-point samples is non-empty: every entry comes from
    such a slot, every such slot gives an entry, and the fields of the
    entry are derived from the collection as [summarises] says: minimum
    and maximum temperature, the rounded midpoint of the two, greatest
    wind speed and precipitation chance, rounded mean humidity, time and
    weather code of the first collected sample. In particular, when all
    the points (at least one) have the same five temperatures [vs], the
    entry of each slot has minimum, maximum and representative temperature
    equal to the temperature of that slot. *)
Theorem aggregated_entry_fields rs :
  (∀ a, a ∈ aggregatedWeather rs →
     ∃ h, (h < 5)%nat ∧ samples_at rs h ≠ []
          ∧ summarises a (samples_at rs h))
  ∧ (∀ h, (h < 5)%nat → samples_at rs h ≠ [] →
       ∃ a, a ∈ aggregatedWeather rs ∧ summarises a (samples_at rs h))
  ∧ (∀ vs : list Z,
       rs ≠ [] → length vs = 5%nat →
       Forall (λ r, temperature <$> r = vs) rs →
       ∀ h v, vs !! h = Some v →
         ∃ a, aggregatedWeather rs !! h = Some a
              ∧ temperatureMin a = Some v
              ∧ temperatureMax a = Some v
              ∧ temperature a = v).
Proof.
  split; [|split].
  - intros a Ha. rewrite aggregatedWeather_slots in Ha.
    repeat (apply elem_of_app in Ha as [Ha|Ha]);
      apply slot_inv in Ha as (d0 & ds & Hpts & ->);
      [exists 0%nat|exists 1%nat|exists 2%nat|exists 3%nat|exists 4%nat];
      rewrite <- hourDataPoints_samples_at, Hpts;
      (split; [lia|]); (split; [done|]);
      apply aggregate_points_summarises.
  - intros h Hh Hne. rewrite <- hourDataPoints_samples_at in *.
    destruct (hourDataPoints rs h) as [|d0 ds] eqn:Hpts; [done|].
    exists (aggregate_points d0 ds). split.
    + apply (list_elem_of_lookup_2 _ h).
      rewrite aggregatedWeather_lookup by done.
      by rewrite (slot_cons _ _ _ _ Hpts).
    + apply aggregate_points_summarises.
  - intros vs Hrs Hvs Hall h v Hv.
    assert (Hh : (h < 5)%nat) by (rewrite <- Hvs; by eapply lookup_lt_Some).
    assert (Htemps : ∀ s, s ∈ hourDataPoints rs h → temperature s = v).
    { intros s (r & Hr & Hs)%elem_of_hourDataPoints.
      rewrite Forall_forall in Hall. specialize (Hall r Hr).
      assert ((temperature <$> r) !! h = Some (temperature s)) as Hl
        by (by rewrite list_lookup_fmap, Hs).
      rewrite Hall, Hv in Hl. by injection Hl. }
    destruct (hourDataPoints rs h) as [|d0 ds] eqn:Hpts.
    { destruct rs as [|r rs]; [done|].
      apply Forall_cons in Hall as [Hr _].
      destruct (lookup_lt_is_Some_2 r h) as [s Hs].
      { rewrite <- (length_fmap temperature), Hr. lia. }
      assert (s ∈ hourDataPoints (r :: rs) h) as Hin
        by (apply elem_of_hourDataPoints; exists r; split; [left|done]).
      rewrite Hpts in Hin. by apply elem_of_nil in Hin. }
    exists (aggregate_points d0 ds).
    rewrite aggregatedWeather_lookup, (slot_cons _ _ _ _ Hpts) by done.
    split; [done|].
    destruct (aggregate_points_summarises d0 ds)
      as (tmin & tmax & -> & [Hmin _] & -> & [Hmax _] & Hmid & _).
    apply list_elem_of_fmap in Hmin as (smin & -> & Hmin).
    apply list_elem_of_fmap in Hmax as (smax & -> & Hmax).
    rewrite (Htemps smin Hmin), (Htemps smax Hmax) in *.
    unfold rounds_to in Hmid. split_and!; (done || lia).
Qed.

(** C7, amended. Permuting the points leaves every summary field of every
    entry unchanged (temperature, its minimum and maximum, wind speed,
    precipitation chance, humidity), and the entry at position [h] is
    that of hour slot [h] before and after. [time] and [weatherCode]
    are those of the first point in list order that has the slot: the
    whole aggregate is unchanged when, at every slot, the collected
    samples agree on these two fields. *)
Theorem aggregatedWeather_permutation rs rs' :
  rs ≡ₚ rs' →
  Forall2 same_summary (aggregatedWeather rs) (aggregatedWeather rs')
  ∧ (∀ h, (h < 5)%nat →
       aggregatedWeather rs !! h = head (slot rs h)
       ∧ aggregatedWeather rs' !! h = head (slot rs' h))
  ∧ ((∀ h s s', s ∈ hourDataPoints rs h → s' ∈ hourDataPoints rs h →
                time s = time s' ∧ weatherCode s = weatherCode s') →
     aggregatedWeather rs = aggregatedWeather rs').
Proof.
  intros Hp. split; [|split].
  - rewrite !aggregatedWeather_slots.
    repeat apply Forall2_app; by apply slot_perm.
  - intros h Hh. by rewrite !aggregatedWeather_lookup.
  - intros Hsame. rewrite !aggregatedWeather_slots.
    by rewrite !(slot_perm_eq rs rs') by eauto.
Qed.

End AggregationFacts.

(** C2 as stated fails: with a point that has five samples and a point that
    has three, the aggregate has five entries, more than the shorter
    sequence. *)
Lemma aggregatedWeather_longer_than_shortest :
  let s := sample_at 0 0 50 5 0 60 in
  let rs := [[s; s; s; s; s]; [s; s; s]] in
  length (aggregatedWeather rs) = 5%nat
  ∧ ∃ r, r ∈ rs ∧ (length r < length (aggregatedWeather rs))%nat.
Proof.
  simpl. split; [reflexivity|].
  eexists. split; [right; left|]. simpl. lia.
Qed.

(** Witness of C6: a clear and a rainy point, whose one slot is summarised
    by 46..50 degrees, representative 48, wind 9, precipitation chance 80
    and humidity 75; and two points with temperatures 40..44. *)
Lemma aggregated_entry_fields_witness :
  (∃ a, a ∈ aggregatedWeather [clear_point; rainy_point]
        ∧ temperatureMin a = Some 46
        ∧ temperatureMax a = Some 50
        ∧ temperature a = 48
        ∧ windSpeed a = 9
        ∧ precipitationChance a = 80
        ∧ humidity a = 75)
  ∧ (∃ a, aggregatedWeather identical_route !! 2%nat = Some a
          ∧ temperatureMin a = Some 42
          ∧ temperatureMax a = Some 42
          ∧ temperature a = 42).
Proof.
  split.
  - destruct (proj1 (proj2 (aggregated_entry_fields
                              [clear_point; rainy_point])) 0%nat)
      as (a & Ha & tmin & tmax & Hmin & Htmin & Hmax & Htmax & Hmid
          & Hwind & Hprecip & Hhum & _); [lia|done|].
    assert (Hin : ∀ x : Z, x ∈ [50; 46] → x = 50 ∨ x = 46)
      by (intros x; rewrite !elem_of_cons, elem_of_nil; tauto).
    assert (Hin' : ∀ x : Z, x ∈ [5; 9] → x = 5 ∨ x = 9)
      by (intros x; rewrite !elem_of_cons, elem_of_nil; tauto).
    assert (Hin'' : ∀ x : Z, x ∈ [0; 80] → x = 0 ∨ x = 80)
      by (intros x; rewrite !elem_of_cons, elem_of_nil; tauto).
    destruct Htmin as [Htmin1 Htmin2], Htmax as [Htmax1 Htmax2],
      Hwind as [Hwind1 Hwind2], Hprecip as [Hprecip1 Hprecip2].
    apply Hin in Htmin1, Htmax1. apply Hin' in Hwind1.
    apply Hin'' in Hprecip1.
    apply Forall_cons in Htmin2 as [_ [Htmin2 _]%Forall_cons].
    apply Forall_cons in Htmax2 as [Htmax2 _].
    apply Forall_cons in Hwind2 as [_ [Hwind2 _]%Forall_cons].
    apply Forall_cons in Hprecip2 as [_ [Hprecip2 _]%Forall_cons].
    unfold rounds_to in Hmid, Hhum. simpl in *.
    exists a. split; [exact Ha|].
    rewrite Hmin, Hmax. split_and!; try f_equal; lia.
  - apply (proj2 (proj2 (aggregated_entry_fields identical_route))
             [40; 41; 42; 43; 44]).
    + done.
    + reflexivity.
    + repeat constructor.
    + reflexivity.
Defined.

(** Witness of C7: the two example points in both orders. *)
Lemma aggregatedWeather_permutation_witness :
  Forall2 same_summary (aggregatedWeather [clear_point; rainy_point])
                       (aggregatedWeather [rainy_point; clear_point]).
Proof.
  apply (aggregatedWeather_permutation [clear_point; rainy_point]
           [rainy_point; clear_point]).
  apply perm_swap.
Defined.

(** C7 as stated fails: the two orders of the example points give
    aggregates with different weather codes. *)
Lemma aggregatedWeather_depends_on_order :
  [clear_point; rainy_point] ≡ₚ [rainy_point; clear_point]
  ∧ aggregatedWeather [clear_point; rainy_point]
    ≠ aggregatedWeather [rainy_point; clear_point]
  ∧ weatherCode <$> aggregatedWeather [clear_point; rainy_point] = [0]
  ∧ weatherCode <$> aggregatedWeather [rainy_point; clear_point] = [61].
Proof.
  split; [apply perm_swap|]. split; [|split; reflexivity].
  intros Heq.
  apply (f_equal (fmap weatherCode)) in Heq. discriminate Heq.
Qed.

(** ** Forecast fetcher *)

Section FetcherFacts.

Implicit Types (hourly : list HourlyRow) (coords : Coords).

Lemma filter_Forall_id {A} (P : A → Prop) `{!∀ x, Decision (P x)}
    (l : list A) :
  Forall P l → filter P l = l.
Proof.
  induction 1 as [|x l Hx _ IH]; [done|].
  rewrite filter_cons, decide_True by done. by f_equal.
Qed.

(** The date of a slot. *)
Lemma slot_date_Some (startTime : Z) i :
  slot_date (Some startTime) i
  = if decide (- MAX_TIME ≤ startTime ∧ hour_after startTime i ≤ MAX_TIME)
    then Some (hour_after startTime i) else None.
Proof.
  unfold slot_date, new_Date, hour_after, MAX_TIME. simpl.
  repeat (case_decide; simpl); done || lia.
Qed.

Lemma fetch_hour_app coords hourly startTime acc i :
  fetch_hour coords hourly startTime acc i
  = acc ++ fetch_hour coords hourly startTime [] i.
Proof.
  unfold fetch_hour. destruct (slot_date startTime i) as [currentTime|];
    [destruct (list_find _ _) as [[??]|]|]; simpl;
    done || by rewrite app_nil_r.
Qed.

Lemma fetch_loop coords hourly startTime acc slots :
  foldl (fetch_hour coords hourly startTime) acc slots
  = acc ++ (slots ≫= fetch_hour coords hourly startTime []).
Proof.
  revert acc. induction slots as [|i slots IH]; intros acc; simpl.
  - by rewrite app_nil_r.
  - rewrite IH, fetch_hour_app, <- app_assoc. done.
Qed.

(** A slot gives one sample, stamped with the slot's time, when it
    resolves, and nothing otherwise. *)
Lemma fetch_hour_time coords hourly (startTime : Z) i :
  time <$> fetch_hour coords hourly (Some startTime) [] i
  = if decide (resolves hourly startTime i)
    then [hour_after startTime i] else [].
Proof.
  unfold fetch_hour, resolves. rewrite slot_date_Some.
  case_decide as Hdate; [|by rewrite decide_False by tauto].
  destruct (list_find _ _) as [[hourIndex r]|] eqn:Hfind.
  - apply list_find_Some in Hfind as (Hr & Hle & _).
    rewrite decide_True; [done|]. split; [done|].
    apply Exists_exists. exists r. split; [|done].
    by eapply list_elem_of_lookup_2.
  - apply list_find_None in Hfind.
    rewrite decide_False; [done|]. intros [_ Hex].
    by apply Forall_Exists_neg in Hfind.
Qed.

Lemma fetch_loop_times coords hourly (startTime : Z) slots :
  time <$> (slots ≫= fetch_hour coords hourly (Some startTime) [])
  = hour_after startTime <$> filter (resolves hourly startTime) slots.
Proof.
  induction slots as [|i slots IH]; [done|].
  rewrite bind_cons, fmap_app, IH, fetch_hour_time, filter_cons.
  by case_decide.
Qed.

(** No slot resolves when the start time does not parse. *)
Lemma fetch_loop_invalid coords hourly slots :
  slots ≫= fetch_hour coords hourly None [] = [].
Proof. by induction slots as [|i slots IH]. Qed.

(** Every field of every mock sample is in its range. *)
Lemma mock_object_ranges rnd locations time i :
  (∀ n, (0 <= rnd n)%Q ∧ (rnd n < 1)%Q) →
  mock_ranges (mock_object rnd locations time i).
Proof.
  intros Hrnd.
  pose proof (Hrnd (5 * i)%nat). pose proof (Hrnd (5 * i + 1)%nat).
  pose proof (Hrnd (5 * i + 2)%nat). pose proof (Hrnd (5 * i + 3)%nat).
  pose proof (Hrnd (5 * i + 4)%nat).
  unfold mock_ranges, mock_object. cbv zeta.
  cbn [temperature windSpeed precipitationChance humidity].
  split; [|split; [|split]]; apply Math_round_range; unfold inject_Z; lra.
Qed.

(** The mock generator returns its five samples when the start time and
    the four hours after it are dates, and throws otherwise. *)
Lemma generateMockWeather_dates rnd locations (start : Z) :
  five_hours (Some start) →
  generateMockWeather rnd locations (Some start)
  = Return ((λ i, mock_object rnd locations (hour_after start i) i)
              <$> seq 0 5).
Proof.
  intros [Hlo Hhi]. unfold generateMockWeather, mock_sample. csimpl.
  rewrite !slot_date_Some.
  by rewrite !decide_True by (unfold hour_after in *; lia).
Qed.

Lemma generateMockWeather_invalid rnd locations startTime :
  ¬ five_hours startTime →
  generateMockWeather rnd locations startTime
  = Throw "RangeError: Invalid time value".
Proof.
  destruct startTime as [start|]; [|done].
  intros Hno. unfold generateMockWeather, mock_sample. csimpl.
  rewrite !slot_date_Some. unfold five_hours, hour_after in *.
  repeat (case_decide; simpl); done || (exfalso; lia).
Qed.

Lemma fetchWeatherData_ok W rnd locations startTime providedCoords
    coords hourly :
  resolve_coords W locations providedCoords = Some coords →
  forecast W coords = Some hourly →
  fetchWeatherData W rnd locations startTime providedCoords
  = Return (foldl (fetch_hour coords hourly startTime) [] (seq 0 5),
            Some coords).
Proof.
  intros Hc Hf. unfold fetchWeatherData. rewrite Hc. simpl. rewrite Hf.
  reflexivity.
Qed.

(** When a provider call fails, the [catch] block decides. *)
Lemma fetchWeatherData_caught W rnd locations startTime providedCoords :
  resolve_coords W locations providedCoords = None
  ∨ (∃ coords, resolve_coords W locations providedCoords = Some coords
               ∧ forecast W coords = None) →
  fetchWeatherData W rnd locations startTime providedCoords
  = match generateMockWeather rnd locations startTime with
    | Return weatherData => Return (weatherData, None)
    | Throw error => Throw error
    end.
Proof.
  intros [Hc|(coords & Hc & Hf)]; unfold fetchWeatherData;
    rewrite Hc; simpl; by rewrite ?Hf.
Qed.

(** C4, amended. For a start time that parses, [fetchWeatherData] returns
    at most five samples. When the provider calls succeed, the samples are
    those of the slots among the five that resolve, in slot order, each
    stamped with its slot's time; a slot that does not resolve is skipped,
    without fallback, so there are five samples exactly when all five
    slots resolve. When a provider call fails and the start time and the
    four hours after it are dates, the result is the mock generator's:
    five samples with temperature in 45..85 (a base in 50..80 plus a
    jitter within 5), wind in 5..20, precipitation chance in 0..100 and
    humidity in 40..80. *)
Theorem fetchWeatherData_samples (W : Provider) (rnd : nat → Q)
    (locations : list string) (startTime : Z)
    (providedCoords : option Coords) :
  (∀ n, (0 <= rnd n)%Q ∧ (rnd n < 1)%Q) →
  (∀ weatherData found,
     fetchWeatherData W rnd locations (Some startTime) providedCoords
       = Return (weatherData, found) →
     (length weatherData ≤ 5)%nat)
  ∧ (∀ c hourly,
       resolve_coords W locations providedCoords = Some c →
       forecast W c = Some hourly →
       ∃ weatherData,
         fetchWeatherData W rnd locations (Some startTime) providedCoords
           = Return (weatherData, Some c)
         ∧ time <$> weatherData
           = hour_after startTime
               <$> filter (resolves hourly startTime) (seq 0 5)
         ∧ (length weatherData = 5%nat
            ↔ ∀ i, (i < 5)%nat → resolves hourly startTime i))
  ∧ (resolve_coords W locations providedCoords = None
     ∨ (∃ c, resolve_coords W locations providedCoords = Some c
             ∧ forecast W c = None) →
     five_hours (Some startTime) →
     ∃ weatherData,
       fetchWeatherData W rnd locations (Some startTime) providedCoords
         = Return (weatherData, None)
       ∧ generateMockWeather rnd locations (Some startTime)
         = Return weatherData
       ∧ length weatherData = 5%nat
       ∧ Forall mock_ranges weatherData).
Proof.
  intros Hrnd.
  assert (Hok : ∀ c hourly,
    resolve_coords W locations providedCoords = Some c →
    forecast W c = Some hourly →
    ∃ weatherData,
      fetchWeatherData W rnd locations (Some startTime) providedCoords
        = Return (weatherData, Some c)
      ∧ time <$> weatherData
        = hour_after startTime
            <$> filter (resolves hourly startTime) (seq 0 5)).
  { intros c hourly Hc Hf. eexists.
    split; [by apply (fetchWeatherData_ok _ _ _ _ _ c hourly)|].
    rewrite fetch_loop. apply fetch_loop_times. }
  assert (Hmock :
    resolve_coords W locations providedCoords = None
    ∨ (∃ c, resolve_coords W locations providedCoords = Some c
            ∧ forecast W c = None) →
    five_hours (Some startTime) →
    ∃ weatherData,
      fetchWeatherData W rnd locations (Some startTime) providedCoords
        = Return (weatherData, None)
      ∧ generateMockWeather rnd locations (Some startTime)
        = Return weatherData
      ∧ length weatherData = 5%nat).
  { intros Hfail Hdates. eexists.
    rewrite fetchWeatherData_caught, generateMockWeather_dates by done.
    done. }
  split; [|split].
  - intros weatherData found Hrun.
    destruct (resolve_coords W locations providedCoords) as [c|] eqn:Hc;
      [destruct (forecast W c) as [hourly|] eqn:Hf|].
    + destruct (Hok c hourly eq_refl Hf) as (wd & Hrun' & Htimes).
      assert (weatherData = wd) as -> by congruence.
      rewrite <- (length_fmap time), Htimes, length_fmap.
      etrans; [apply length_filter|]. done.
    + rewrite fetchWeatherData_caught in Hrun by eauto.
      destruct (decide (five_hours (Some startTime))) as [Hdates|Hdates].
      * rewrite generateMockWeather_dates in Hrun by done.
        by injection Hrun as <- _.
      * by rewrite generateMockWeather_invalid in Hrun.
    + rewrite fetchWeatherData_caught in Hrun by eauto.
      destruct (decide (five_hours (Some startTime))) as [Hdates|Hdates].
      * rewrite generateMockWeather_dates in Hrun by done.
        by injection Hrun as <- _.
      * by rewrite generateMockWeather_invalid in Hrun.
  - intros c hourly Hc Hf.
    destruct (Hok c hourly Hc Hf) as (weatherData & Hrun & Htimes).
    exists weatherData. split; [done|]. split; [done|].
    rewrite <- (length_fmap time), Htimes, length_fmap.
    split.
    + intros Hlen i Hi.
      destruct (decide (resolves hourly startTime i)) as [|Hno]; [done|].
      assert (i ∈ seq 0 5) as Hin by (apply elem_of_seq; lia).
      pose proof (length_filter_lt _ _ _ Hin Hno) as Hlt.
      rewrite Hlen in Hlt. simpl in Hlt. lia.
    + intros Hall. rewrite filter_Forall_id; [done|].
      apply Forall_forall. intros i Hi%elem_of_seq. apply Hall. lia.
  - intros Hfail Hdates.
    destruct (Hmock Hfail Hdates) as (weatherData & Hrun & Hgen & Hlen).
    exists weatherData. split_and!; try done.
    rewrite generateMockWeather_dates in Hgen by done.
    injection Hgen as <-.
    repeat constructor; by apply mock_object_ranges.
Qed.

End FetcherFacts.

(** Witness of C4, with every random draw at one half: a failing provider,
    and the example provider, whose forecast resolves three slots. *)
Lemma fetchWeatherData_samples_witness :
  (∃ weatherData,
     fetchWeatherData {| geocodeLocation := λ _, None; forecast := λ _, None |}
       (λ _, 1 # 2)%Q ["Chamonix"] (Some 0) None
     = Return (weatherData, None)
     ∧ generateMockWeather (λ _, 1 # 2)%Q ["Chamonix"] (Some 0)
       = Return weatherData
     ∧ length weatherData = 5%nat
     ∧ Forall mock_ranges weatherData)
  ∧ (∃ weatherData,
       fetchWeatherData example_provider (λ _, 1 # 2)%Q [] (Some 0)
         (Some example_coords)
       = Return (weatherData, Some example_coords)
       ∧ time <$> weatherData
         = hour_after 0 <$> filter (resolves example_hourly 0) (seq 0 5)
       ∧ (length weatherData = 5%nat
          ↔ ∀ i, (i < 5)%nat → resolves example_hourly 0 i)).
Proof.
  assert (∀ n : nat, (0 <= 1 # 2)%Q ∧ (1 # 2 < 1)%Q) as Hrnd
    by (intros n; lra).
  split.
  - apply (fetchWeatherData_samples
             {| geocodeLocation := λ _, None; forecast := λ _, None |}
             (λ _, 1 # 2)%Q ["Chamonix"] 0 None Hrnd).
    + left. reflexivity.
    + unfold five_hours, hour_after, MAX_TIME. lia.
  - apply (fetchWeatherData_samples example_provider (λ _, 1 # 2)%Q [] 0
             (Some example_coords) Hrnd); reflexivity.
Defined.

(** C4 as stated fails: the provider answers, three slots resolve, and the
    result has three samples; the two unresolved slots are skipped and the
    mock generator is not used. *)
Lemma fetchWeatherData_fewer_than_five :
  resolve_coords example_provider [] (Some example_coords)
    = Some example_coords
  ∧ forecast example_provider example_coords = Some example_hourly
  ∧ ¬ resolves example_hourly 0 3
  ∧ ∃ weatherData,
      fetchWeatherData example_provider (λ _, 0%Q) [] (Some 0)
        (Some example_coords)
      = Return (weatherData, Some example_coords)
      ∧ length weatherData = 3%nat.
Proof.
  split; [reflexivity|]. split; [reflexivity|]. split.
  - unfold resolves. intros [_ Hex]. revert Hex. apply Forall_Exists_neg.
    repeat constructor; unfold hour_after; simpl; lia.
  - eexists. split; reflexivity.
Qed.

(** ** Recommendation engine *)

Section RecommendationFacts.

Implicit Types (weatherData : list WeatherSample) (effort : EffortLevel).

(** The four effort levels and their heat factors. *)
Lemma find_effort_valid effortLevel :
  effortLevel ∈ EFFORT_IDS →
  ∃ effort, find_effort effortLevel = Some effort
    ∧ effort_id effort = effortLevel
    ∧ (effortLevel = "easy" ∧ heatFactor effort = (7 # 10)%Q
       ∨ effortLevel = "endurance" ∧ heatFactor effort = 1%Q
       ∨ effortLevel = "tempo" ∧ heatFactor effort = (13 # 10)%Q
       ∨ effortLevel = "all-out" ∧ heatFactor effort = (16 # 10)%Q).
Proof.
  unfold EFFORT_IDS. simpl. intros Hin.
  repeat (apply elem_of_cons in Hin as [->|Hin]);
    [| | | |by apply elem_of_nil in Hin];
    eexists; (split; [reflexivity|]); (split; [reflexivity|]); naive_solver.
Qed.

(** The felt temperature is the base temperature plus
    [(heatFactor - 1) * 15]. *)
Lemma feltTemp_finite weatherData effort (base : Q) :
  avgTemp weatherData = Fin base →
  feltTemp weatherData effort = Fin (base + (heatFactor effort - 1) * 15)%Q.
Proof. intros Hbase. unfold feltTemp. by rewrite Hbase. Qed.

(** Not aggregated: the base temperature is the mean temperature. *)
Lemma avgTemp_mean weatherData :
  weatherData ≠ [] → is_aggregated weatherData = false →
  avgTemp weatherData
  = Fin (inject_Z (sum_of (temperature <$> weatherData))
         / inject_Z (Z.of_nat (length weatherData)))%Q.
Proof.
  intros Hne Hagg. unfold avgTemp, JsNum.div_int. rewrite Hagg.
  destruct (Z.eqb_spec (Z.of_nat (length weatherData)) 0) as [Hlen|]; [|done].
  destruct weatherData; [done|simpl in Hlen; lia].
Qed.

(** Aggregated, no minimum equal to zero: the base temperature is the
    least of the minimum temperatures. *)
Lemma avgTemp_coldest weatherData (mins : list Z) :
  weatherData ≠ [] → is_aggregated weatherData = true →
  temperatureMin <$> weatherData = Some <$> mins →
  Forall (λ m, m ≠ 0) mins →
  ∃ m, avgTemp weatherData = Fin (inject_Z m) ∧ is_min m mins.
Proof.
  intros Hne Hagg Hmins Hnz. unfold avgTemp. rewrite Hagg.
  assert (min_or_temperature <$> weatherData = mins) as ->.
  { clear Hne Hagg. revert mins Hmins Hnz.
    induction weatherData as [|w ws IH]; intros [|m mins] Hmins Hnz;
      try done.
    injection Hmins as Hm Hmins. apply Forall_cons in Hnz as [Hm0 Hnz].
    csimpl. rewrite (IH mins) by done. f_equal.
    unfold min_or_temperature. rewrite Hm.
    by destruct (Z.eqb_spec m 0). }
  destruct mins as [|m0 mins].
  { destruct weatherData; done. }
  exists (min_of m0 mins). split; [done|apply min_of_spec].
Qed.

Lemma layers_object_lookup temp wind rain activity :
  activity ∉ ACTIVITIES → layers_object temp wind rain !! activity = None.
Proof.
  intros Hnot. unfold layers_object, ACTIVITIES in *. simpl.
  repeat (rewrite lookup_insert_ne;
          [|intros <-; apply Hnot; set_solver]).
  apply lookup_empty.
Qed.

(** An id that is neither an activity nor a property of
    [Object.prototype] gives the empty list, without exception. *)
Lemma generateRecommendations_unknown activity weatherData effortLevel :
  activity ∉ ACTIVITIES → activity ∉ Object_prototype →
  effortLevel ∈ EFFORT_IDS →
  generateRecommendations activity weatherData effortLevel
  = Return (Array []).
Proof.
  intros Hact Hproto (effort & Heffort & _)%find_effort_valid.
  unfold generateRecommendations, get. rewrite Heffort.
  by rewrite layers_object_lookup, bool_decide_eq_false_2.
Qed.

(** With a valid effort level nothing is thrown, whatever the activity. *)
Lemma generateRecommendations_returns activity weatherData effortLevel :
  effortLevel ∈ EFFORT_IDS →
  ∃ v, generateRecommendations activity weatherData effortLevel = Return v.
Proof.
  intros (effort & Heffort & _)%find_effort_valid.
  unfold generateRecommendations. rewrite Heffort. eauto.
Qed.

(** Every band of every layer table starts with a base layer. *)
Lemma layer_tables_base_layer :
  Forall (λ table, ∀ temp wind rain,
            starts_with_base_layer (table temp wind rain)) layer_tables.
Proof.
  unfold layer_tables, starts_with_base_layer.
  repeat constructor; intros temp wind rain;
    unfold getRunningLayers, getMountainBikeLayers, getRoadBikeLayers,
      getDownhillSkiLayers, getBackcountrySkiLayers, getNordicSkiLayers;
    repeat match goal with
           | |- context [JsNum.ltb temp ?c] => destruct (JsNum.ltb temp c)
           end;
    destruct (JsInt.gtb wind (Fin 15)), rain; simpl; eauto.
Qed.

Lemma layers_object_known temp wind rain activity :
  activity ∈ ACTIVITIES →
  ∃ table, table ∈ layer_tables
    ∧ layers_object temp wind rain !! activity
      = Some (table temp wind rain).
Proof.
  unfold ACTIVITIES, layer_tables. intros Hin.
  repeat (apply elem_of_cons in Hin as [->|Hin]);
    [| | | | | |by apply elem_of_nil in Hin];
    eexists; (split; [|unfold layers_object; simpl; by simplify_map_eq]);
    set_solver.
Qed.

(** C10. For a known activity, a non-empty forecast and a valid effort
    level, [generateRecommendations] returns a non-empty array of layer
    items: every band of each of the six layer tables contributes items,
    the first of them a base layer. *)
Theorem generateRecommendations_known activity weatherData effortLevel :
  activity ∈ ACTIVITIES → weatherData ≠ [] → effortLevel ∈ EFFORT_IDS →
  (∃ items,
     generateRecommendations activity weatherData effortLevel
       = Return (Array items)
     ∧ items ≠ [])
  ∧ Forall (λ table, ∀ temp wind rain,
              starts_with_base_layer (table temp wind rain)) layer_tables.
Proof.
  intros Hact _ (effort & Heffort & _)%find_effort_valid.
  split; [|apply layer_tables_base_layer].
  unfold generateRecommendations, get. rewrite Heffort.
  destruct (layers_object_known (feltTemp weatherData effort)
              (maxWind weatherData) (hasRain weatherData) activity Hact)
    as (table & Htable & ->).
  eexists. split; [reflexivity|].
  pose proof layer_tables_base_layer as Hbase.
  rewrite Forall_forall in Hbase.
  destruct (Hbase table Htable (feltTemp weatherData effort)
              (maxWind weatherData) (hasRain weatherData))
    as (x & rest & -> & _).
  done.
Qed.

(** C3, at the failing input. The aggregate of a route whose two points
    are at 0 and 10 degrees has minimum temperature 0, yet the base
    temperature is 5, the representative temperature: a minimum of zero
    is falsy in [w.temperatureMin || w.temperature]. With effort
    "endurance" the felt temperature is 5 as well. *)
Theorem avgTemp_skips_zero_minimum :
  let weatherData := aggregatedWeather zero_degree_route in
  is_aggregated weatherData = true
  ∧ temperatureMin <$> weatherData = [Some 0]
  ∧ temperature <$> weatherData = [5]
  ∧ avgTemp weatherData = Fin (inject_Z 5)
  ∧ ∃ effort, find_effort "endurance" = Some effort
      ∧ JsNum.eqv (feltTemp weatherData effort) (Fin 5%Q).
Proof.
  simpl. split_and!; try reflexivity.
  eexists. split; [reflexivity|]. vm_compute. reflexivity.
Qed.

(** C9, at the failing input. "constructor" is not an activity, but the
    [layers] object inherits a property of that name from
    [Object.prototype]; the function returns it instead of an empty
    list. *)
Theorem generateRecommendations_inherited :
  ("constructor" ∉ ACTIVITIES)
  ∧ generateRecommendations "constructor" [sample_at 0 0 50 5 0 60] "easy"
    = Return (Inherited "constructor").
Proof.
  split; [|reflexivity].
  unfold ACTIVITIES. intros Hin.
  repeat (apply elem_of_cons in Hin as [Hin|Hin]; [discriminate Hin|]).
  by apply elem_of_nil in Hin.
Qed.

End RecommendationFacts.

(** Witness of C10: running at an easy effort with 20 degrees, the first
    scenario of the specification. The felt temperature is 15.5 and the
    coldest band is selected, without wind or rain items. *)
Lemma generateRecommendations_known_witness :
  ∃ items,
    generateRecommendations "run" [sample_at 0 0 20 5 0 60] "easy"
      = Return (Array items)
    ∧ items ≠ [].
Proof.
  apply (generateRecommendations_known "run" [sample_at 0 0 20 5 0 60]
           "easy").
  - unfold ACTIVITIES. set_solver.
  - done.
  - unfold EFFORT_IDS. simpl. set_solver.
Defined.

Example run_easy_20_degrees :
  generateRecommendations "run"
    ((λ i : nat, sample_at (hour_after 0 i) 0 20 5 0 60) <$> seq 0 5) "easy"
  = Return (Array [
      mk "Base Layer" "Thermal long-sleeve top" "Cold protection";
      mk "Base Layer" "Thermal tights" "Leg warmth";
      mk "Mid Layer" "Light insulated vest" "Core warmth";
      mk "Accessories" "Running gloves" "Hand protection";
      mk "Accessories" "Headband or beanie" "Ear warmth" ]).
Proof. reflexivity. Qed.

(** * Further properties *)

(** ** Point sampler: the sampled indices *)

Section SamplerSpacing.

Context {A : Type} (undefined : A).
Implicit Types (l sampled : list A) (fuel : nat).

Local Arguments index : simpl never.
Local Arguments push : simpl never.

(** From [i = k * s] the loop pushes the points at the multiples of the
    step below [q * s], where [q] is the quotient of [length - 1] by the
    step, unless the array of sampled points gets full. *)
Lemma sample_loop_multiples (d : nat) fuel l (s k : nat) sampled :
  (0 < s)%nat → (d ≤ fuel)%nat →
  (k + d = (length l - 1) / s)%nat → (0 < length l)%nat →
  Z.of_nat (length sampled) ≤ MAX_ARRAY_LENGTH →
  sample_loop undefined fuel l (Fin (Z.of_nat s)) (Fin (Z.of_nat (k * s)))
    sampled
  = Some (if decide (Z.of_nat (length sampled + d) ≤ MAX_ARRAY_LENGTH)
          then Return (sampled
                       ++ (at_index undefined l
                             <$> ((λ j, j * s)%nat <$> seq k d)))
          else Throw "RangeError: Invalid array length").
Proof.
  intros Hs. revert fuel k sampled.
  induction d as [|d IH]; intros fuel k sampled Hfuel Hq Hl Hfit.
  - assert (Hstop : (length l - 1 < (k + 1) * s)%nat).
    { rewrite Nat.add_0_r in Hq. rewrite Hq.
      pose proof (Nat.div_mod_eq (length l - 1) s).
      pose proof (Nat.mod_upper_bound (length l - 1) s ltac:(lia)). nia. }
    rewrite Nat.add_0_r, decide_True by done.
    destruct fuel; simpl;
      (destruct (Z.ltb_spec (Z.of_nat (k * s))
                   (Z.of_nat (length l) + - Z.of_nat s)); [nia|]);
      by rewrite app_nil_r.
  - assert (Hgo : ((k + 1) * s ≤ length l - 1)%nat).
    { pose proof (Nat.div_mod_eq (length l - 1) s).
      assert (k + 1 ≤ (length l - 1) / s)%nat by lia. nia. }
    destruct fuel as [|fuel]; [lia|]. simpl.
    destruct (Z.ltb_spec (Z.of_nat (k * s))
                (Z.of_nat (length l) + - Z.of_nat s)); [|nia].
    destruct (decide (Z.of_nat (length sampled) < MAX_ARRAY_LENGTH))
      as [Hroom|Hfull].
    + rewrite push_Return by done.
      replace (Z.of_nat (k * s) + Z.of_nat s) with (Z.of_nat (S k * s))
        by lia.
      rewrite IH by (rewrite ?length_app; simpl; lia).
      rewrite index_Fin by lia. rewrite Nat2Z.id, length_app. simpl length.
      rewrite <- app_assoc. repeat case_decide; (done || lia).
    + rewrite push_Throw by lia. by rewrite decide_False by lia.
Qed.

(** X1. For a route longer than [targetCount >= 2], the sampled points are
    those at the multiples [0, s, 2s, ..., (q-1)s] of the step
    [s = floor((length-1)/(targetCount-1))], followed by the last point,
    [q] being the quotient of [length - 1] by [s]. There are at least
    [targetCount] of them, and the gap before the last point is at least
    one step and less than two. (An array holds these [q + 1] points
    whenever it holds the route; for a list that no array holds, the
    [push] that finds the array full throws.) *)
Theorem samplePoints_multiples_of_step l (targetCount : Z) :
  2 ≤ targetCount → targetCount < Z.of_nat (length l) →
  ∃ s q : nat,
    Z.of_nat s = (Z.of_nat (length l) - 1) / (targetCount - 1)
    ∧ q = ((length l - 1) / s)%nat
    ∧ (∀ fuel, (length l ≤ fuel)%nat →
         samplePoints undefined fuel l targetCount
         = Some (if decide (Z.of_nat (q + 1) ≤ MAX_ARRAY_LENGTH)
                 then Return
                        ((at_index undefined l
                            <$> ((λ j, j * s)%nat <$> seq 0 q))
                         ++ [at_index undefined l (length l - 1)])
                 else Throw "RangeError: Invalid array length"))
    ∧ (q + 1 ≤ length l)%nat
    ∧ targetCount ≤ Z.of_nat (q + 1)
    ∧ (s ≤ (length l - 1) - (q - 1) * s < 2 * s)%nat.
Proof.
  intros HT HL.
  set (n := Z.of_nat (length l) - 1). set (m := targetCount - 1).
  assert (Hs : 0 < n / m) by (apply Z.div_str_pos; lia).
  assert (Hmod : n = m * (n / m) + n mod m ∧ 0 ≤ n mod m < m).
  { split; [apply Z.div_mod; lia | apply Z.mod_pos_bound; lia]. }
  assert (Hmax : MAX_ARRAY_LENGTH = 4294967295) by done.
  exists (Z.to_nat (n / m)), ((length l - 1) / Z.to_nat (n / m))%nat.
  set (s := Z.to_nat (n / m)).
  assert (Hsn : Z.of_nat s = n / m) by lia.
  pose proof (Nat.div_mod_eq (length l - 1) s) as Hq.
  pose proof (Nat.mod_upper_bound (length l - 1) s ltac:(lia)) as Hr.
  set (q := ((length l - 1) / s)%nat) in *.
  assert (Hq1 : (1 ≤ q)%nat).
  { destruct q; [|lia]. assert (Z.of_nat s ≤ n) by nia. lia. }
  assert (Hqle : (q ≤ length l - 1)%nat) by nia.
  split; [done|]. split; [done|]. split; [|split; [|split]].
  - intros fuel Hfuel. unfold samplePoints.
    destruct (Z.leb_spec (Z.of_nat (length l)) targetCount); [lia|].
    unfold JsInt.floor_div. fold n m.
    destruct (Z.eqb_spec m 0); [lia|].
    rewrite <- Hsn.
    replace (Z.of_nat s) with (Z.of_nat (1 * s)) at 2 by lia.
    rewrite (sample_loop_multiples (q - 1)) by (fold q; simpl; lia).
    simpl length.
    destruct (decide (Z.of_nat (1 + (q - 1)) ≤ MAX_ARRAY_LENGTH))
      as [Hloop|Hloop]; cbv beta iota.
    + destruct (decide (Z.of_nat (q + 1) ≤ MAX_ARRAY_LENGTH))
        as [Hfit|Hfull].
      * rewrite push_Return
          by (rewrite length_app, !length_fmap, length_seq; simpl; lia).
        rewrite !index_Fin by lia. f_equal. f_equal.
        replace q with (S (q - 1)) at 2 by lia.
        simpl. do 3 f_equal. subst n. f_equal. lia.
      * by rewrite push_Throw
          by (rewrite length_app, !length_fmap, length_seq; simpl; lia).
    + by rewrite decide_False by lia.
  - lia.
  - assert (m ≤ Z.of_nat q); [|lia].
    assert (n < (Z.of_nat q + 1) * Z.of_nat s) by nia. nia.
  - nia.
Qed.

(** X2. An empty route with a negative target is not returned unchanged:
    the step is zero, the loop body never runs, and the result holds the
    two absent elements [allPoints[0]] and [allPoints[-1]]. *)
Theorem samplePoints_empty_negative (targetCount : Z) fuel :
  targetCount ≤ -1 →
  samplePoints undefined fuel [] targetCount
  = Some (Return [undefined; undefined]).
Proof.
  intros HT. unfold samplePoints.
  change (Z.of_nat (length (@nil A))) with 0.
  destruct (Z.leb_spec 0 targetCount); [lia|].
  unfold JsInt.floor_div.
  destruct (Z.eqb_spec (targetCount - 1) 0); [lia|].
  assert ((0 - 1) / (targetCount - 1) = 0) as ->.
  { pose proof (Z.div_mod (0 - 1) (targetCount - 1)).
    pose proof (Z.mod_neg_bound (0 - 1) (targetCount - 1)). nia. }
  by destruct fuel.
Qed.

End SamplerSpacing.

(** Witness of X1: 100 points sampled for 10, every eleventh point. *)
Lemma samplePoints_multiples_of_step_witness :
  ∃ s q : nat,
    Z.of_nat s = (Z.of_nat (length (seq 0 100)) - 1) / (10 - 1)
    ∧ q = ((length (seq 0 100) - 1) / s)%nat
    ∧ (∀ fuel, (length (seq 0 100) ≤ fuel)%nat →
         samplePoints 0%nat fuel (seq 0 100) 10
         = Some (if decide (Z.of_nat (q + 1) ≤ MAX_ARRAY_LENGTH)
                 then Return
                        ((at_index 0%nat (seq 0 100)
                            <$> ((λ j, j * s)%nat <$> seq 0 q))
                         ++ [at_index 0%nat (seq 0 100)
                               (length (seq 0 100) - 1)])
                 else Throw "RangeError: Invalid array length"))
    ∧ (q + 1 ≤ length (seq 0 100))%nat
    ∧ 10 ≤ Z.of_nat (q + 1)
    ∧ (s ≤ (length (seq 0 100) - 1) - (q - 1) * s < 2 * s)%nat.
Proof.
  apply (samplePoints_multiples_of_step 0%nat (seq 0 100) 10);
    [lia|rewrite length_seq; lia].
Defined.

(** Witness of X2. *)
Lemma samplePoints_empty_negative_witness :
  samplePoints 0%nat 0 [] (-3) = Some (Return [0%nat; 0%nat]).
Proof. apply (samplePoints_empty_negative 0%nat (-3) 0%nat). lia. Defined.

(** ** Track file reader *)

Section ReaderFacts.

Implicit Types (points : list RoutePoint) (el : PointElement).

Lemma indexed_snd {A} (l : list A) : (indexed l).*2 = l.
Proof.
  unfold indexed.
  assert (∀ f : nat → A → nat * A,
            (∀ i x, (f i x).2 = x) → (imap f l).*2 = l) as Himap.
  { induction l as [|x l IH]; intros f Hf; [done|].
    csimpl. rewrite Hf. f_equal. apply (IH (f ∘ S)). intros i y. apply Hf. }
  by apply Himap.
Qed.

Lemma foldl_preserves {A X} (P : A → Prop) (f : A → X → A) xs a :
  (∀ a x, P a → P (f a x)) → P a → P (foldl f a xs).
Proof.
  intros Hf. revert a. induction xs as [|x xs IH]; intros a Ha; [done|].
  simpl. by apply IH, Hf.
Qed.

Lemma read_point_coords name waypoint points el :
  point_coordinates <$> read_point name waypoint points el
  = (point_coordinates <$> points) ++ option_list (element_coords el).
Proof.
  unfold read_point, element_coords.
  destruct (attr_lat el), (attr_lon el); simpl;
    rewrite ?fmap_app, ?app_nil_r; done.
Qed.

(** A fold whose steps each read the elements [els_of x]. *)
Lemma foldl_coords {X} (f : list RoutePoint → X → list RoutePoint)
    (els_of : X → list PointElement) xs points :
  (∀ points x,
     point_coordinates <$> f points x
     = (point_coordinates <$> points) ++ omap element_coords (els_of x)) →
  point_coordinates <$> foldl f points xs
  = (point_coordinates <$> points) ++ omap element_coords (xs ≫= els_of).
Proof.
  intros Hf. revert points.
  induction xs as [|x xs IH]; intros points.
  - simpl. by rewrite app_nil_r.
  - rewrite bind_cons, omap_app. cbn [foldl].
    by rewrite IH, Hf, app_assoc.
Qed.

Lemma bind_singleton_snd {A} (l : list (nat * A)) :
  l ≫= (λ x, [x.2]) = l.*2.
Proof. induction l as [|x l IH]; [done|]. csimpl. by rewrite IH. Qed.

Lemma read_group_coords label points group :
  point_coordinates <$> read_group label points group
  = (point_coordinates <$> points)
    ++ omap element_coords (group_points group.2).
Proof.
  destruct group as [groupIdx g]. unfold read_group.
  rewrite (foldl_coords _ (λ x, [x.2])).
  - by rewrite bind_singleton_snd, indexed_snd.
  - intros pts [pointIdx el]. rewrite read_point_coords. simpl.
    by destruct (element_coords el).
Qed.

Lemma bind_indexed_snd {A B} (f : A → list B) (l : list A) :
  indexed l ≫= (λ x, f x.2) = l ≫= f.
Proof.
  rewrite <- (indexed_snd l) at 2.
  induction (indexed l) as [|x xs IH]; [done|]. csimpl. by rewrite IH.
Qed.

(** The coordinates of the collected points are those of the valid
    elements, in reading order. *)
Lemma collect_points_coords d :
  point_coordinates <$> collect_points d
  = omap element_coords (all_elements d).
Proof.
  unfold collect_points, all_elements.
  rewrite (foldl_coords _ (λ x, [x.2])).
  2:{ intros pts [idx el]. unfold read_waypoint.
      rewrite read_point_coords. simpl. by destruct (element_coords el). }
  rewrite (foldl_coords _ (λ x, group_points x.2))
    by (intros; apply read_group_coords).
  rewrite (foldl_coords _ (λ x, group_points x.2))
    by (intros; apply read_group_coords).
  rewrite !bind_indexed_snd, bind_singleton_snd, indexed_snd, !omap_app.
  by rewrite <- app_assoc.
Qed.

Lemma append_nonempty_r (a b : string) : b ≠ "" → a +:+ b ≠ "".
Proof. intros Hb. destruct a; [done|]. simpl. discriminate. Qed.

Lemma append_nonempty_l (a b : string) : a ≠ "" → a +:+ b ≠ "".
Proof. intros Ha. destruct a; [done|]. simpl. discriminate. Qed.

Lemma text_or_nonempty text fallback :
  fallback ≠ "" → text_or text fallback ≠ "".
Proof.
  intros Hf. unfold text_or. destruct text as [t|]; [|done].
  by case_decide.
Qed.

Lemma read_point_well_indexed name waypoint points el :
  name ≠ "" → well_indexed points →
  well_indexed (read_point name waypoint points el).
Proof.
  intros Hname Hpoints. unfold read_point.
  destruct (attr_lat el), (attr_lon el); try done.
  intros i p Hp. apply lookup_app_Some in Hp as [Hp|[Hi Hp]].
  - by apply Hpoints.
  - apply list_lookup_singleton_Some in Hp as [Hi0 <-]. simpl.
    split; [lia|done].
Qed.

Lemma collect_points_well_indexed d : well_indexed (collect_points d).
Proof.
  unfold collect_points.
  apply foldl_preserves.
  { intros pts [idx el] Hpts. unfold read_waypoint.
    apply read_point_well_indexed; [|done].
    by apply text_or_nonempty, append_nonempty_l. }
  do 2 (apply foldl_preserves;
        [intros pts [idx g] Hpts; unfold read_group;
         apply foldl_preserves;
         [intros pts' [pointIdx el] Hpts';
          apply read_point_well_indexed; [|done];
          by apply append_nonempty_r, append_nonempty_l | done]|]).
  by intros i p Hp.
Qed.

(** X3. When the reader resolves, the points are the elements whose
    latitude and longitude both parse, in reading order (tracks, routes,
    way points) with their coordinates; each point records its position in
    the list as [index] and has a non-empty name, and [totalPoints] counts
    the points, of which there is at least one. *)
Theorem parseGPXFile_points file points metadata :
  parseGPXFile file = Resolve (points, metadata) →
  ∃ d, file = Loaded (Some d)
    ∧ point_coordinates <$> points = omap element_coords (all_elements d)
    ∧ well_indexed points
    ∧ totalPoints metadata = length points
    ∧ (0 < length points)%nat.
Proof.
  unfold parseGPXFile. destruct file as [|[d|]]; try done.
  destruct (parsererror d); [done|].
  case_decide as Hlen; [done|]. intros [= <- <-].
  exists d. split; [done|]. split; [apply collect_points_coords|].
  split; [apply collect_points_well_indexed|]. simpl. split; [done|lia].
Qed.

(** X4. The reader resolves exactly when the file was read as a document
    without parser error in which at least one point element has a
    latitude and a longitude that parse; a document without such an
    element is rejected as holding no route data. *)
Theorem parseGPXFile_outcome file :
  ((∃ result, parseGPXFile file = Resolve result)
   ↔ ∃ d, file = Loaded (Some d) ∧ parsererror d = false
          ∧ Exists (λ el, is_Some (element_coords el)) (all_elements d))
  ∧ ∀ d, file = Loaded (Some d) → parsererror d = false →
      Forall (λ el, element_coords el = None) (all_elements d) →
      parseGPXFile file
      = Reject "No route data found in GPX file. File must contain tracks, routes, or waypoints.".
Proof.
  assert (Hcount : ∀ d,
    length (collect_points d) = 0%nat
    ↔ Forall (λ el, element_coords el = None) (all_elements d)).
  { intros d. rewrite <- (length_fmap point_coordinates),
      collect_points_coords.
    induction (all_elements d) as [|el els IH]; csimpl.
    - split; [constructor|done].
    - destruct (element_coords el) eqn:Hel; simpl.
      + split; [done|]. intros [? _]%Forall_cons. congruence.
      + rewrite IH. split; [by constructor|by intros [_ ?]%Forall_cons]. }
  split; [split|].
  - intros [result Hres]. unfold parseGPXFile in Hres.
    destruct file as [|[d|]]; try done.
    destruct (parsererror d) eqn:Herr; [done|].
    case_decide as Hlen; [done|].
    exists d. split; [done|]. split; [done|].
    destruct (decide (Exists (λ el, is_Some (element_coords el))
                        (all_elements d))) as [|Hno]; [done|].
    exfalso. apply Hlen, Hcount, Forall_forall. intros el Hin.
    destruct (element_coords el) eqn:Hel; [|done].
    exfalso. apply Hno, Exists_exists. exists el. rewrite Hel. eauto.
  - intros (d & -> & Herr & Hex). unfold parseGPXFile. rewrite Herr.
    rewrite decide_False; [eauto|].
    intros Hall%Hcount. apply Exists_exists in Hex as (el & Hin & [c Hc]).
    rewrite Forall_forall in Hall. specialize (Hall el Hin). congruence.
  - intros d -> Herr Hall%Hcount. unfold parseGPXFile. rewrite Herr.
    by rewrite decide_True.
Qed.

End ReaderFacts.

(** Witness of X3: the example document gives three points, the second
    track point being skipped. *)
Lemma parseGPXFile_points_witness :
  ∃ d, Loaded (Some example_document) = Loaded (Some d)
    ∧ point_coordinates <$> collect_points example_document
      = omap element_coords (all_elements d)
    ∧ well_indexed (collect_points example_document)
    ∧ 3%nat = length (collect_points example_document)
    ∧ (0 < length (collect_points example_document))%nat.
Proof.
  apply (parseGPXFile_points (Loaded (Some example_document))
           (collect_points example_document)
           {| meta_name := "Tour"; totalPoints := 3 |}).
  reflexivity.
Defined.

Example parse_example_names :
  p_name <$> collect_points example_document
  = ["Track 1 - Point 1"; "Track 1 - Point 3"; "Waypoint 1"].
Proof. reflexivity. Qed.

(** Witness of X4: a document whose only point has no latitude. *)
Lemma parseGPXFile_outcome_witness :
  parseGPXFile
    (Loaded (Some {| parsererror := false; metadata_name := None;
                     trk := []; rte := [];
                     wpt := [ {| attr_lat := None; attr_lon := Some 6%Q;
                                 child_ele := None; child_time := None;
                                 child_name := None |} ] |}))
  = Reject "No route data found in GPX file. File must contain tracks, routes, or waypoints.".
Proof.
  eapply (proj2 (parseGPXFile_outcome _)); [reflexivity|reflexivity|].
  repeat constructor.
Defined.

(** ** Forecast fetcher: which hours, which data *)

Section FetcherSlots.

Implicit Types (hourly : list HourlyRow) (coords : Coords).

(** A slot that resolves makes every earlier slot resolve. *)
Lemma resolves_earlier hourly startTime i j :
  (i ≤ j)%nat → resolves hourly startTime j → resolves hourly startTime i.
Proof.
  intros Hij. unfold resolves. intros [[Hlo Hhi] Hj]. split.
  - unfold hour_after in *. lia.
  - eapply Exists_impl; [exact Hj|].
    intros r. unfold hour_after. simpl. lia.
Qed.

Lemma filter_seq_prefix (P : nat → Prop) `{!∀ i, Decision (P i)} n :
  (∀ i j, (i ≤ j)%nat → P j → P i) →
  filter P (seq 0 n) = seq 0 (length (filter P (seq 0 n))).
Proof.
  intros Hanti. induction n as [|n IH]; [done|].
  rewrite seq_S, filter_app, length_app. change (0 + n)%nat with n.
  rewrite filter_cons, filter_nil. case_decide as Hn; simpl.
  - rewrite (filter_Forall_id P (seq 0 n)).
    + by rewrite length_seq, Nat.add_1_r, seq_S.
    + apply Forall_forall. intros i Hi%elem_of_seq.
      apply (Hanti i n); [lia|done].
  - by rewrite !app_nil_r, Nat.add_0_r.
Qed.

Lemma fetch_hour_inv coords hourly (startTime : Z) i w :
  w ∈ fetch_hour coords hourly (Some startTime) [] i →
  ∃ k r,
    list_find (λ r, hour_after startTime i ≤ h_time r) hourly = Some (k, r)
    ∧ w = {| location := Some (name coords);
             time := hour_after startTime i;
             temperature := Math_round (temperature_2m r);
             temperatureMin := None;
             temperatureMax := None;
             windSpeed := Math_round (wind_speed_10m r);
             precipitationChance := default 0 (precipitation_probability r);
             humidity := relative_humidity_2m r;
             weatherCode := weather_code r;
             isAggregated := false |}.
Proof.
  unfold fetch_hour. rewrite slot_date_Some.
  case_decide; [|by intros ?%elem_of_nil].
  destruct (list_find _ _) as [[k r]|]; simpl.
  - intros ->%list_elem_of_singleton. eauto.
  - by intros ?%elem_of_nil.
Qed.

Lemma hour_after_inj startTime i j :
  hour_after startTime i = hour_after startTime j → i = j.
Proof. unfold hour_after. lia. Qed.

Lemma fetch_success_times coords hourly (startTime : Z) :
  let weatherData :=
    foldl (fetch_hour coords hourly (Some startTime)) [] (seq 0 5) in
  time <$> weatherData = hour_after startTime <$> seq 0 (length weatherData).
Proof.
  intros weatherData. subst weatherData.
  rewrite fetch_loop, app_nil_l.
  rewrite <- (length_fmap time), fetch_loop_times, length_fmap.
  f_equal. apply filter_seq_prefix.
  intros i j. apply resolves_earlier.
Qed.

(** X5. When the provider calls succeed, the samples cover the first hours
    from the start time without gap: the sample at position [j] is stamped
    [startTime + j] hours. The slots that give no sample are the last
    ones. For a start time that does not parse no slot gives a sample. *)
Theorem fetchWeatherData_contiguous_hours W rnd locations (startTime : Z)
    providedCoords coords hourly :
  resolve_coords W locations providedCoords = Some coords →
  forecast W coords = Some hourly →
  (∃ weatherData,
     fetchWeatherData W rnd locations (Some startTime) providedCoords
     = Return (weatherData, Some coords)
     ∧ time <$> weatherData
       = hour_after startTime <$> seq 0 (length weatherData)
     ∧ ∀ i, (i < 5)%nat →
         resolves hourly startTime i ↔ (i < length weatherData)%nat)
  ∧ fetchWeatherData W rnd locations None providedCoords
    = Return ([], Some coords).
Proof.
  intros Hc Hf.
  split; [|by rewrite (fetchWeatherData_ok _ _ _ _ _ _ _ Hc Hf)].
  exists (foldl (fetch_hour coords hourly (Some startTime)) [] (seq 0 5)).
  split; [by apply fetchWeatherData_ok|].
  pose proof (fetch_success_times coords hourly startTime) as Htimes.
  cbv zeta in Htimes.
  set (weatherData :=
         foldl (fetch_hour coords hourly (Some startTime)) [] (seq 0 5)) in *.
  split; [exact Htimes|].
  intros i Hi.
  assert (Hfilter : hour_after startTime
                      <$> filter (resolves hourly startTime) (seq 0 5)
                    = hour_after startTime <$> seq 0 (length weatherData)).
  { rewrite <- Htimes. subst weatherData.
    rewrite fetch_loop. symmetry. apply fetch_loop_times. }
  assert (Heq : filter (resolves hourly startTime) (seq 0 5)
                = seq 0 (length weatherData)).
  { revert Hfilter. generalize (seq 0 (length weatherData)).
    induction (filter (resolves hourly startTime) (seq 0 5)) as [|x xs IH];
      intros [|y ys] Heq; try done.
    injection Heq as Hxy Heq. apply hour_after_inj in Hxy as ->.
    f_equal. by apply IH. }
  split.
  - intros Hres.
    assert (i ∈ filter (resolves hourly startTime) (seq 0 5)) as Hin
      by (apply list_elem_of_filter; split; [done|apply elem_of_seq; lia]).
    rewrite Heq in Hin. apply elem_of_seq in Hin. lia.
  - intros Hlt.
    assert (i ∈ seq 0 (length weatherData)) as Hin
      by (apply elem_of_seq; lia).
    rewrite <- Heq in Hin. by apply list_elem_of_filter in Hin as [? _].
Qed.

(** X6. When the provider calls succeed, the sample at position [j] is
    read from the first hourly position whose time is at or after
    [startTime + j] hours: temperature and wind speed rounded, a null
    precipitation probability read as 0, humidity and weather code as
    given, the location named after the coordinates. *)
Theorem fetchWeatherData_first_position W rnd locations (startTime : Z)
    providedCoords coords hourly :
  resolve_coords W locations providedCoords = Some coords →
  forecast W coords = Some hourly →
  ∃ weatherData,
    fetchWeatherData W rnd locations (Some startTime) providedCoords
    = Return (weatherData, Some coords)
    ∧ ∀ (j : nat) (w : WeatherSample),
        weatherData !! j = Some w →
        ∃ k r,
          hourly !! k = Some r
          ∧ hour_after startTime j ≤ h_time r
          ∧ (∀ k' r', hourly !! k' = Some r' → (k' < k)%nat →
                      h_time r' < hour_after startTime j)
          ∧ w = {| location := Some (name coords);
                   time := hour_after startTime j;
                   temperature := Math_round (temperature_2m r);
                   temperatureMin := None;
                   temperatureMax := None;
                   windSpeed := Math_round (wind_speed_10m r);
                   precipitationChance :=
                     default 0 (precipitation_probability r);
                   humidity := relative_humidity_2m r;
                   weatherCode := weather_code r;
                   isAggregated := false |}.
Proof.
  intros Hc Hf.
  exists (foldl (fetch_hour coords hourly (Some startTime)) [] (seq 0 5)).
  split; [by apply fetchWeatherData_ok|].
  intros j w Hj.
  pose proof (fetch_success_times coords hourly startTime) as Htimes.
  cbv zeta in Htimes.
  assert (Htime : time w = hour_after startTime j).
  { assert ((time <$> foldl (fetch_hour coords hourly (Some startTime)) []
                        (seq 0 5)) !! j = Some (time w)) as Hl
      by (by rewrite list_lookup_fmap, Hj).
    rewrite Htimes, list_lookup_fmap in Hl.
    apply lookup_lt_Some in Hj.
    rewrite lookup_seq_lt in Hl by done. by injection Hl. }
  apply list_elem_of_lookup_2 in Hj.
  rewrite fetch_loop, app_nil_l in Hj.
  apply list_elem_of_bind in Hj as (i & Hw & _).
  apply fetch_hour_inv in Hw as (k & r & Hfind & ->).
  simpl in Htime. apply hour_after_inj in Htime as ->.
  apply list_find_Some in Hfind as (Hr & Hle & Hfirst).
  exists k, r. split; [done|]. split; [done|]. split; [|done].
  intros k' r' Hr' Hk'. specialize (Hfirst k' r' Hr' Hk'). lia.
Qed.

Lemma fetch_hour_plain coords hourly startTime i :
  Forall (λ w, isAggregated w = false ∧ temperatureMin w = None)
    (fetch_hour coords hourly startTime [] i).
Proof.
  destruct startTime as [start|]; [|by apply Forall_nil].
  apply Forall_forall. intros w (k & r & _ & ->)%fetch_hour_inv. done.
Qed.

(** The samples of the mock generator are plain. *)
Lemma generateMockWeather_plain rnd locations startTime weatherData :
  generateMockWeather rnd locations startTime = Return weatherData →
  length weatherData = 5%nat
  ∧ Forall (λ w, location w = head locations
                 ∧ isAggregated w = false ∧ temperatureMin w = None)
      weatherData.
Proof.
  destruct (decide (five_hours startTime)) as [Hdates|Hdates].
  - destruct startTime as [start|]; [|done].
    rewrite generateMockWeather_dates by done. intros [= <-].
    split; [done|]. by repeat constructor.
  - by rewrite generateMockWeather_invalid.
Qed.

Lemma plain_not_aggregated weatherData :
  Forall (λ w, isAggregated w = false ∧ temperatureMin w = None)
    weatherData →
  is_aggregated weatherData = false.
Proof. destruct 1 as [|w ws [Hw _] _]; [done|exact Hw]. Qed.

Lemma fetchWeatherData_plain W rnd locations startTime providedCoords
    weatherData found :
  fetchWeatherData W rnd locations startTime providedCoords
  = Return (weatherData, found) →
  Forall (λ w, isAggregated w = false ∧ temperatureMin w = None)
    weatherData.
Proof.
  destruct (resolve_coords W locations providedCoords) as [coords|] eqn:Hc;
    [destruct (forecast W coords) as [hourly|] eqn:Hf|].
  - rewrite (fetchWeatherData_ok _ _ _ _ _ _ _ Hc Hf). intros Hrun.
    assert (weatherData
            = foldl (fetch_hour coords hourly startTime) [] (seq 0 5)) as ->
      by congruence.
    rewrite fetch_loop, app_nil_l. apply Forall_forall.
    intros w (i & Hw & _)%list_elem_of_bind.
    pose proof (fetch_hour_plain coords hourly startTime i) as Hall.
    rewrite Forall_forall in Hall. by apply Hall.
  - rewrite fetchWeatherData_caught by eauto.
    destruct (generateMockWeather _ _ _) as [wd|] eqn:Hgen; [|done].
    intros [= <- _].
    destruct (generateMockWeather_plain _ _ _ _ Hgen) as [_ Hplain].
    eapply Forall_impl; [exact Hplain|]. by intros w (_ & ? & ?).
  - rewrite fetchWeatherData_caught by eauto.
    destruct (generateMockWeather _ _ _) as [wd|] eqn:Hgen; [|done].
    intros [= <- _].
    destruct (generateMockWeather_plain _ _ _ _ Hgen) as [_ Hplain].
    eapply Forall_impl; [exact Hplain|]. by intros w (_ & ? & ?).
Qed.

(** The mean of a non-empty list of integers. *)
Lemma div_int_mean (xs : list Z) :
  xs ≠ [] →
  ∃ mean : Q,
    JsNum.div_int (sum_of xs) (Z.of_nat (length xs)) = Fin mean
    ∧ (mean * inject_Z (Z.of_nat (length xs)) == inject_Z (total xs))%Q.
Proof.
  intros Hne. rewrite sum_of_total. unfold JsNum.div_int.
  assert (Hlen : 0 < Z.of_nat (length xs)) by (destruct xs; [done|simpl; lia]).
  destruct (Z.eqb_spec (Z.of_nat (length xs)) 0); [lia|].
  eexists. split; [reflexivity|].
  field. intros H.
  assert (inject_Z 0 < inject_Z (Z.of_nat (length xs)))%Q as HD
    by (by rewrite <- Zlt_Qlt).
  rewrite H in HD. by apply Qlt_irrefl in HD.
Qed.

(** X7. Whatever the provider does, no sample that [fetchWeatherData]
    returns is flagged as aggregated or has a minimum temperature; so the
    base temperature that [generateRecommendations] derives from its result
    is the mean of the sample temperatures: the number that, multiplied by
    the count of the samples, gives the sum of their temperatures. It is
    NaN when there is no sample. *)
Theorem fetchWeatherData_mean_policy W rnd locations startTime
    providedCoords weatherData found :
  fetchWeatherData W rnd locations startTime providedCoords
  = Return (weatherData, found) →
  Forall (λ w, isAggregated w = false ∧ temperatureMin w = None) weatherData
  ∧ (weatherData = [] → avgTemp weatherData = NaN)
  ∧ (weatherData ≠ [] →
     ∃ mean : Q,
       avgTemp weatherData = Fin mean
       ∧ (mean * inject_Z (Z.of_nat (length weatherData))
          == inject_Z (total (temperature <$> weatherData)))%Q).
Proof.
  intros Hrun.
  pose proof (fetchWeatherData_plain _ _ _ _ _ _ _ Hrun) as Hplain.
  split; [exact Hplain|]. split.
  - by intros ->.
  - intros Hne. unfold avgTemp.
    rewrite (plain_not_aggregated _ Hplain).
    destruct (div_int_mean (temperature <$> weatherData)) as (mean & Hq & Hm).
    { by destruct weatherData. }
    rewrite length_fmap in Hq, Hm. by exists mean.
Qed.

End FetcherSlots.

(** Witness of X5 and X6: the example provider, whose forecast stops after
    two hours. *)
Lemma fetchWeatherData_contiguous_hours_witness :
  (∃ weatherData,
     fetchWeatherData example_provider (λ _, 0%Q) [] (Some 0)
       (Some example_coords)
     = Return (weatherData, Some example_coords)
     ∧ time <$> weatherData = hour_after 0 <$> seq 0 (length weatherData)
     ∧ ∀ i, (i < 5)%nat →
         resolves example_hourly 0 i ↔ (i < length weatherData)%nat)
  ∧ fetchWeatherData example_provider (λ _, 0%Q) [] None
      (Some example_coords)
    = Return ([], Some example_coords).
Proof.
  apply (fetchWeatherData_contiguous_hours example_provider (λ _, 0%Q) [] 0
           (Some example_coords) example_coords example_hourly);
    reflexivity.
Defined.

Lemma fetchWeatherData_first_position_witness :
  ∃ k r,
    example_hourly !! k = Some r
    ∧ hour_after 0 2 ≤ h_time r
    ∧ (∀ k' r', example_hourly !! k' = Some r' → (k' < k)%nat →
                h_time r' < hour_after 0 2)
    ∧ {| location := Some "Col"; time := hour_after 0 2; temperature := 21;
         temperatureMin := None; temperatureMax := None; windSpeed := 7;
         precipitationChance := 0; humidity := 55; weatherCode := 3;
         isAggregated := false |}
      = {| location := Some (name example_coords);
           time := hour_after 0 2;
           temperature := Math_round (temperature_2m r);
           temperatureMin := None;
           temperatureMax := None;
           windSpeed := Math_round (wind_speed_10m r);
           precipitationChance := default 0 (precipitation_probability r);
           humidity := relative_humidity_2m r;
           weatherCode := weather_code r;
           isAggregated := false |}.
Proof.
  destruct (fetchWeatherData_first_position example_provider (λ _, 0%Q) []
              0 (Some example_coords) example_coords example_hourly)
    as (weatherData & Hrun & Hall); [reflexivity..|].
  injection Hrun as <-. apply (Hall 2%nat). reflexivity.
Defined.

(** Witness of X7: the three samples of the example provider, at 21
    degrees each. *)
Lemma fetchWeatherData_mean_policy_witness :
  ∃ mean : Q,
    avgTemp ((λ i : nat, {| location := Some "Col"; time := hour_after 0 i;
                            temperature := 21; temperatureMin := None;
                            temperatureMax := None; windSpeed := 7;
                            precipitationChance := 0; humidity := 55;
                            weatherCode := 3; isAggregated := false |})
               <$> seq 0 3)
    = Fin mean
    ∧ (mean * inject_Z 3 == inject_Z 63)%Q.
Proof.
  destruct (fetchWeatherData_mean_policy example_provider (λ _, 0%Q) []
              (Some 0) (Some example_coords)
              ((λ i : nat, {| location := Some "Col"; time := hour_after 0 i;
                              temperature := 21; temperatureMin := None;
                              temperatureMax := None; windSpeed := 7;
                              precipitationChance := 0; humidity := 55;
                              weatherCode := 3; isAggregated := false |})
                 <$> seq 0 3)
              (Some example_coords))
    as (_ & _ & Hmean); [reflexivity|].
  apply Hmean. discriminate.
Defined.

(** ** Aggregation: bounds and the coldest point *)

Section AggregationBounds.

Implicit Types (rs : list (list WeatherSample)) (h : nat).

Lemma Math_round_between (a b : Z) q :
  (inject_Z a <= q)%Q → (q <= inject_Z b)%Q → a ≤ Math_round q ≤ b.
Proof.
  intros Ha Hb. destruct (Math_round_spec q) as [Hlo Hhi]. split.
  - assert (inject_Z a < inject_Z (Math_round q + 1))%Q as H
      by (rewrite inject_Z_plus; change (inject_Z 1) with 1%Q; lra).
    rewrite <- Zlt_Qlt in H. lia.
  - assert (inject_Z (Math_round q) < inject_Z (b + 1))%Q as H
      by (rewrite inject_Z_plus; change (inject_Z 1) with 1%Q; lra).
    rewrite <- Zlt_Qlt in H. lia.
Qed.

Lemma sum_of_bounds (lo hi : Z) xs :
  Forall (λ x, lo ≤ x ≤ hi) xs →
  lo * Z.of_nat (length xs) ≤ sum_of xs ≤ hi * Z.of_nat (length xs).
Proof.
  induction 1 as [|x xs Hx _ IH]; [unfold sum_of; simpl; lia|].
  rewrite sum_of_cons. simpl length. lia.
Qed.

(** The rounded mean of integers between [lo] and [hi] is between them. *)
Lemma rounded_mean_bounds (lo hi : Z) xs :
  xs ≠ [] → Forall (λ x, lo ≤ x ≤ hi) xs →
  lo ≤ Math_round (inject_Z (sum_of xs)
                   / inject_Z (Z.of_nat (length xs)))%Q ≤ hi.
Proof.
  intros Hne Hall. pose proof (sum_of_bounds lo hi xs Hall) as [Hlo Hhi].
  assert (Hn : (0 < inject_Z (Z.of_nat (length xs)))%Q).
  { change 0%Q with (inject_Z 0). rewrite <- Zlt_Qlt.
    destruct xs; [done|simpl; lia]. }
  apply Math_round_between.
  - apply Qle_shift_div_l; [done|].
    rewrite <- inject_Z_mult, <- Zle_Qle. lia.
  - apply Qle_shift_div_r; [done|].
    rewrite <- inject_Z_mult, <- Zle_Qle. lia.
Qed.

Lemma midpoint_bounds (a b : Z) :
  a ≤ b → a ≤ Math_round ((inject_Z a + inject_Z b) / 2)%Q ≤ b.
Proof.
  intros Hab. rewrite Zle_Qle in Hab.
  apply Math_round_between.
  - apply Qle_shift_div_l; lra.
  - apply Qle_shift_div_r; lra.
Qed.

Lemma min_of_le_max_of x xs : min_of x xs ≤ max_of x xs.
Proof.
  destruct (min_of_spec x xs) as [_ Hmin], (max_of_spec x xs) as [Hmax _].
  rewrite Forall_forall in Hmin. by apply Hmin.
Qed.

Lemma aggregated_entry_inv rs a :
  a ∈ aggregatedWeather rs →
  ∃ h d0 ds, (h < 5)%nat ∧ hourDataPoints rs h = d0 :: ds
             ∧ a = aggregate_points d0 ds.
Proof.
  intros Ha. rewrite aggregatedWeather_slots in Ha.
  repeat (apply elem_of_app in Ha as [Ha|Ha]);
    apply slot_inv in Ha as (d0 & ds & Hpts & ->);
    [exists 0%nat|exists 1%nat|exists 2%nat|exists 3%nat|exists 4%nat];
    exists d0, ds; (split; [lia|done]).
Qed.

(** X8. Every aggregated entry is flagged as aggregated, is located at
    "GPX Route", and carries a minimum and a maximum temperature with the
    representative temperature between the two. *)
Theorem aggregated_entry_ordered rs a :
  a ∈ aggregatedWeather rs →
  isAggregated a = true
  ∧ location a = Some "GPX Route"
  ∧ ∃ tmin tmax,
      temperatureMin a = Some tmin ∧ temperatureMax a = Some tmax
      ∧ tmin ≤ temperature a ≤ tmax.
Proof.
  intros (h & d0 & ds & _ & _ & ->)%aggregated_entry_inv.
  split; [done|]. split; [done|].
  eexists _, _. split; [reflexivity|]. split; [reflexivity|].
  apply midpoint_bounds, min_of_le_max_of.
Qed.

Lemma aggregate_points_within R d0 ds :
  Forall (within R) (d0 :: ds) →
  within R (aggregate_points d0 ds)
  ∧ extremes_within R (aggregate_points d0 ds).
Proof.
  intros Hall.
  assert (Hfield : ∀ (f : WeatherSample → Z) lo hi,
    (∀ w, within R w → lo ≤ f w ≤ hi) →
    Forall (λ x, lo ≤ x ≤ hi) (f <$> d0 :: ds)).
  { intros f lo hi Hf. apply Forall_fmap.
    eapply Forall_impl; [exact Hall|]. exact Hf. }
  assert (Ht := Hfield temperature (t_lo R) (t_hi R) ltac:(by intros ? (?&?&?&?))).
  assert (Hw := Hfield windSpeed (w_lo R) (w_hi R) ltac:(by intros ? (?&?&?&?))).
  assert (Hp := Hfield precipitationChance (p_lo R) (p_hi R)
                  ltac:(by intros ? (?&?&?&?))).
  assert (Hh := Hfield humidity (h_lo R) (h_hi R) ltac:(by intros ? (?&?&?&?))).
  assert (is_min (min_of (temperature d0) (temperature <$> ds))
            (temperature <$> d0 :: ds)) as [Hmin_in _] by apply min_of_spec.
  assert (is_max (max_of (temperature d0) (temperature <$> ds))
            (temperature <$> d0 :: ds)) as [Hmax_in _] by apply max_of_spec.
  assert (is_max (max_of (windSpeed d0) (windSpeed <$> ds))
            (windSpeed <$> d0 :: ds)) as [Hwind_in _] by apply max_of_spec.
  assert (is_max (max_of (precipitationChance d0)
                    (precipitationChance <$> ds))
            (precipitationChance <$> d0 :: ds)) as [Hprec_in _]
    by apply max_of_spec.
  rewrite Forall_forall in Ht, Hw, Hp.
  pose proof (Ht _ Hmin_in) as Hmin. pose proof (Ht _ Hmax_in) as Hmax.
  pose proof (Hw _ Hwind_in) as Hwind. pose proof (Hp _ Hprec_in) as Hprec.
  assert (Hmm : min_of (temperature d0) (temperature <$> ds)
                ≤ max_of (temperature d0) (temperature <$> ds))
    by apply min_of_le_max_of.
  pose proof (midpoint_bounds _ _ Hmm) as Hmid.
  assert (Hne : humidity <$> d0 :: ds ≠ []) by (csimpl; discriminate).
  pose proof (rounded_mean_bounds _ _ _ Hne Hh) as Hhum.
  split; [|split].
  - unfold within, aggregate_points.
    cbn [temperature windSpeed precipitationChance humidity].
    split; [lia|]. split; [exact Hwind|]. split; [exact Hprec|exact Hhum].
  - intros m [= <-]. exact Hmin.
  - intros m [= <-]. exact Hmax.
Qed.

(** X9. Aggregation keeps values within the bounds of its inputs: when the
    temperature, wind speed, precipitation chance and humidity of every
    sample of every point lie within given bounds, so do those of every
    aggregated entry, and its minimum and maximum temperature with them. *)
Theorem aggregatedWeather_keeps_bounds rs R :
  Forall (Forall (within R)) rs →
  Forall (λ a, within R a ∧ extremes_within R a) (aggregatedWeather rs).
Proof.
  intros Hall. apply Forall_forall.
  intros a (h & d0 & ds & _ & Hpts & ->)%aggregated_entry_inv.
  apply aggregate_points_within. rewrite <- Hpts.
  apply Forall_forall. intros s (r & Hr & Hs)%elem_of_hourDataPoints.
  rewrite Forall_forall in Hall. specialize (Hall r Hr).
  rewrite Forall_forall in Hall. by eapply Hall, list_elem_of_lookup_2.
Qed.

(** X10. Aggregating the forecast of a single point changes no value: the
    entry of each of the first five hours has the temperature of the
    point's sample as its temperature, minimum and maximum, and the same
    wind speed, precipitation chance, humidity, time and weather code. *)
Theorem aggregatedWeather_single_point (r : list WeatherSample) h s :
  (h < 5)%nat → r !! h = Some s →
  ∃ a, aggregatedWeather [r] !! h = Some a
    ∧ temperature a = temperature s
    ∧ temperatureMin a = Some (temperature s)
    ∧ temperatureMax a = Some (temperature s)
    ∧ windSpeed a = windSpeed s
    ∧ precipitationChance a = precipitationChance s
    ∧ humidity a = humidity s
    ∧ time a = time s
    ∧ weatherCode a = weatherCode s.
Proof.
  intros Hh Hs. exists (aggregate_points s []).
  rewrite aggregatedWeather_lookup by done.
  rewrite (slot_cons [r] h s []) by (unfold hourDataPoints; csimpl; by rewrite Hs).
  split; [done|]. unfold aggregate_points, min_of, max_of, sum_of.
  cbv zeta.
  cbn [temperature temperatureMin temperatureMax windSpeed
       precipitationChance humidity time weatherCode].
  csimpl. split_and!; try done.
  - apply Math_round_midpoint_same.
  - rewrite <- (Math_round_inject_Z (humidity s)) at 2.
    apply Math_round_comp. rewrite Z.add_0_l.
    change (inject_Z (Z.of_nat 1)) with 1%Q. field.
Qed.

Lemma slot_temperatureMin rs h :
  temperatureMin <$> slot rs h
  = Some <$> group_min (temperature <$> hourDataPoints rs h).
Proof. unfold slot. by destruct (hourDataPoints rs h). Qed.

(** The least of the group minima is the least element overall. *)
Lemma is_min_groups (groups : list (list Z)) m :
  is_min m (groups ≫= group_min) → is_min m (mjoin groups).
Proof.
  intros [Hin Hall]. split.
  - apply list_elem_of_bind in Hin as (g & Hm & Hg).
    apply list_elem_of_join. exists g. split; [|done].
    destruct g as [|x xs]; [by apply elem_of_nil in Hm|].
    apply list_elem_of_singleton in Hm as ->. apply min_of_spec.
  - apply Forall_forall. intros x (g & Hx & Hg)%list_elem_of_join.
    destruct g as [|y ys]; [by apply elem_of_nil in Hx|].
    destruct (min_of_spec y ys) as [_ Hmin].
    rewrite Forall_forall in Hmin, Hall.
    assert (min_of y ys ∈ groups ≫= group_min) as Hmem
      by (apply list_elem_of_bind; exists (y :: ys); split; [left|done]).
    specialize (Hall _ Hmem). specialize (Hmin _ Hx). lia.
Qed.

(** The five slots collect the first five samples of every point. *)
Lemma elem_of_route_samples rs s :
  s ∈ route_samples rs ↔ ∃ h, (h < 5)%nat ∧ s ∈ hourDataPoints rs h.
Proof.
  unfold route_samples. rewrite list_elem_of_bind. split.
  - intros (r & (h & Hs & Hh)%elem_of_take & Hr).
    exists h. split; [done|]. apply elem_of_hourDataPoints. eauto.
  - intros (h & Hh & (r & Hr & Hs)%elem_of_hourDataPoints).
    exists r. split; [|done]. apply elem_of_take. eauto.
Qed.

(** X11. Coldest-point policy, end to end: when some point has a sample in
    one of the five hour slots and no such sample has temperature 0, the
    base temperature that [generateRecommendations] derives from the
    aggregate is the least temperature among the samples of all the points
    in the five slots. *)
Theorem avgTemp_coldest_sample rs :
  route_samples rs ≠ [] →
  Forall (λ s, temperature s ≠ 0) (route_samples rs) →
  ∃ m, avgTemp (aggregatedWeather rs) = Fin (inject_Z m)
       ∧ is_min m (temperature <$> route_samples rs).
Proof.
  intros Hne Hnz.
  set (groups := (λ h, temperature <$> hourDataPoints rs h) <$> seq 0 5).
  assert (Hall : ∀ x, x ∈ mjoin groups
                      ↔ x ∈ temperature <$> route_samples rs).
  { intros x. rewrite list_elem_of_join, list_elem_of_fmap. split.
    - intros (g & Hx & (h & -> & Hh%elem_of_seq)%list_elem_of_fmap).
      apply list_elem_of_fmap in Hx as (s & -> & Hs).
      exists s. split; [done|]. apply elem_of_route_samples.
      exists h. split; [lia|done].
    - intros (s & -> & (h & Hh & Hs)%elem_of_route_samples).
      exists (temperature <$> hourDataPoints rs h). split.
      + apply list_elem_of_fmap. eauto.
      + apply list_elem_of_fmap. exists h.
        split; [done|]. apply elem_of_seq. lia. }
  assert (Hmins : temperatureMin <$> aggregatedWeather rs
                  = Some <$> (groups ≫= group_min)).
  { rewrite aggregatedWeather_slots, !fmap_app, !slot_temperatureMin.
    unfold groups. simpl. by rewrite !fmap_app, !app_nil_r. }
  assert (Hsub : ∀ m, m ∈ groups ≫= group_min → m ∈ mjoin groups).
  { intros m (g & Hm & Hg)%list_elem_of_bind.
    apply list_elem_of_join. exists g. split; [|done].
    destruct g as [|x xs]; [by apply elem_of_nil in Hm|].
    apply list_elem_of_singleton in Hm as ->. apply min_of_spec. }
  assert (Hagg : aggregatedWeather rs ≠ []).
  { intros Hnil.
    destruct (route_samples rs) as [|s ss] eqn:Hss; [done|].
    assert (s ∈ route_samples rs) as Hs by (rewrite Hss; left).
    apply elem_of_route_samples in Hs as (h & Hh & Hs).
    destruct (hourDataPoints rs h) as [|d0 ds] eqn:Hpts;
      [by apply elem_of_nil in Hs|].
    pose proof (aggregatedWeather_lookup rs h Hh) as Hl.
    rewrite (slot_cons _ _ _ _ Hpts), Hnil in Hl. done. }
  destruct (avgTemp_coldest (aggregatedWeather rs) (groups ≫= group_min))
    as (m & Havg & Hmin); [done| |done| |].
  - destruct (aggregatedWeather rs) as [|a ws] eqn:Hws; [done|].
    assert (a ∈ aggregatedWeather rs) as Ha by (rewrite Hws; left).
    by apply aggregated_entry_inv in Ha as (h & d0 & ds & _ & _ & ->).
  - apply Forall_forall. intros m Hm%Hsub%Hall.
    apply list_elem_of_fmap in Hm as (s & -> & Hs).
    rewrite Forall_forall in Hnz. by apply Hnz.
  - exists m. split; [done|].
    destruct (is_min_groups _ _ Hmin) as [Hin Hle].
    split; [by apply Hall|].
    apply Forall_forall. intros x Hx%Hall.
    rewrite Forall_forall in Hle. by apply Hle.
Qed.

End AggregationBounds.

(** Witness of X8, on the route whose coldest point is at 0 degrees. *)
Lemma aggregated_entry_ordered_witness :
  let a := aggregate_points (sample_at 0 71 0 5 0 60)
             [sample_at 0 71 10 5 0 60] in
  isAggregated a = true
  ∧ location a = Some "GPX Route"
  ∧ ∃ tmin tmax,
      temperatureMin a = Some tmin ∧ temperatureMax a = Some tmax
      ∧ tmin ≤ temperature a ≤ tmax.
Proof.
  apply (aggregated_entry_ordered zero_degree_route). left.
Defined.

(** Witness of X9: mock forecasts of two points stay within the mock
    bounds. *)
Lemma aggregatedWeather_keeps_bounds_witness :
  Forall (λ a, within mock_bounds a ∧ extremes_within mock_bounds a)
    (aggregatedWeather
       [(λ i, mock_object (λ _, 0%Q) [] (hour_after 0 i) i) <$> seq 0 5;
        (λ i, mock_object (λ _, 1 # 2)%Q [] (hour_after 0 i) i)
          <$> seq 0 5]).
Proof.
  apply (aggregatedWeather_keeps_bounds _ mock_bounds).
  repeat constructor; vm_compute; congruence.
Defined.

(** Witness of X10. *)
Lemma aggregatedWeather_single_point_witness :
  ∃ a, aggregatedWeather [rainy_point] !! 0%nat = Some a
    ∧ temperature a = 46
    ∧ temperatureMin a = Some 46
    ∧ temperatureMax a = Some 46
    ∧ windSpeed a = 9
    ∧ precipitationChance a = 80
    ∧ humidity a = 90
    ∧ time a = 0
    ∧ weatherCode a = 61.
Proof.
  apply (aggregatedWeather_single_point rainy_point 0
           (sample_at 0 61 46 9 80 90)); [lia|reflexivity].
Defined.

(** Witness of X11: of two points at 20 and 12 degrees, the second decides:
    the base temperature is 12. *)
Lemma avgTemp_coldest_sample_witness :
  avgTemp (aggregatedWeather [[sample_at 0 0 20 5 0 60];
                              [sample_at 0 0 12 5 0 60]])
  = Fin (inject_Z 12).
Proof.
  destruct (avgTemp_coldest_sample [[sample_at 0 0 20 5 0 60];
                                    [sample_at 0 0 12 5 0 60]])
    as (m & Havg & Hin & Hle).
  - done.
  - repeat constructor; done.
  - rewrite Havg. do 2 f_equal.
    apply Forall_cons in Hle as [_ [Hle _]%Forall_cons].
    apply elem_of_cons in Hin as [->|Hin]; [done|].
    by apply list_elem_of_singleton in Hin.
Defined.

(** ** Route weather *)

Section GPXWeatherFacts.

Context (toFixed2 : Q → string).
Implicit Types (points : list RoutePoint) (W : Provider).

(** The fetch for the sampled point at position [k]. *)
Local Abbreviation point_fetch W rnd startTime :=
  (λ (k : nat) (point : RoutePoint),
     fetchWeatherData W (rnd k) (point_locations point) startTime
       (Some (point_coords toFixed2 point))).

(** A fetch throws only when the mock generator does. *)
Lemma fetchWeatherData_thrown W rnd locations startTime providedCoords
    error :
  fetchWeatherData W rnd locations startTime providedCoords = Throw error →
  ¬ five_hours startTime.
Proof.
  intros Hrun Hdates.
  destruct startTime as [start|]; [|done].
  destruct (resolve_coords W locations providedCoords) as [coords|] eqn:Hc;
    [destruct (forecast W coords) as [hourly|] eqn:Hf|].
  - by rewrite (fetchWeatherData_ok _ _ _ _ _ _ _ Hc Hf) in Hrun.
  - rewrite fetchWeatherData_caught in Hrun by eauto.
    by rewrite generateMockWeather_dates in Hrun.
  - rewrite fetchWeatherData_caught in Hrun by eauto.
    by rewrite generateMockWeather_dates in Hrun.
Qed.

(** The fetch of a point whose forecast fails: the mock samples, or the
    exception of the mock generator. *)
Lemma fetchWeatherData_failed W rnd locations startTime coords :
  forecast W coords = None →
  fetchWeatherData W rnd locations startTime (Some coords)
  = match generateMockWeather rnd locations startTime with
    | Return weatherData => Return (weatherData, None)
    | Throw error => Throw error
    end.
Proof. intros Hf. apply fetchWeatherData_caught. right. eauto. Qed.

(** [imap] as a map over the positions paired with the elements. *)
Lemma imap_indexed {X Y} (f : nat → X → Y) (l : list X) :
  imap f l = (λ kp, f kp.1 kp.2) <$> indexed l.
Proof. unfold indexed. by rewrite fmap_imap. Qed.

(** When the start time and the four hours after it are dates, the
    fetches of all the points return. *)
Lemma route_results W rnd points startTime :
  five_hours startTime →
  ∃ allWeatherResults,
    mapM returned (imap (point_fetch W rnd startTime) points)
    = Some allWeatherResults
    ∧ Forall2 (λ kp result,
                 point_fetch W rnd startTime kp.1 kp.2 = Return result)
        (indexed points) allWeatherResults.
Proof.
  intros Hdates.
  destruct (mapM returned (imap (point_fetch W rnd startTime) points))
    as [allWeatherResults|] eqn:Hall.
  - exists allWeatherResults. split; [done|].
    apply mapM_Some in Hall. rewrite imap_indexed in Hall.
    apply Forall2_fmap_l in Hall.
    eapply Forall2_impl; [exact Hall|].
    intros [k point] result. simpl. by destruct (fetchWeatherData _ _ _ _ _);
      intros [= ->].
  - apply mapM_None in Hall. apply Exists_exists in Hall as (c & Hc & Hnone).
    apply elem_of_lookup_imap_1 in Hc as (k & point & -> & _).
    destruct (fetchWeatherData W (rnd k) (point_locations point) startTime
                (Some (point_coords toFixed2 point))) as [r|error] eqn:Hrun;
      [done|].
    by apply fetchWeatherData_thrown in Hrun.
Qed.

(** All the points are defined and all the fetches return: the [try]
    block returns the aggregate. *)
Lemma fetchGPXWeatherData_defined W rnd points startTime allWeatherResults :
  mapM returned (imap (point_fetch W rnd startTime) points)
  = Some allWeatherResults →
  fetchGPXWeatherData toFixed2 W rnd (Some <$> points) startTime
  = Return (aggregatedWeather (fst <$> allWeatherResults),
            route_coords <$> head points).
Proof.
  intros Hall. unfold fetchGPXWeatherData.
  rewrite mapM_fmap_Some by done. cbn [mbind option_bind]. rewrite Hall.
  by destruct points.
Qed.

(** An undefined point or a fetch that throws: the [catch] block
    decides. *)
Lemma fetchGPXWeatherData_caught W rnd sampledPoints startTime :
  mapM id sampledPoints = None
  ∨ (∃ points, mapM id sampledPoints = Some points
               ∧ mapM returned (imap (point_fetch W rnd startTime) points)
                 = None) →
  fetchGPXWeatherData toFixed2 W rnd sampledPoints startTime
  = match generateMockWeather (rnd (length sampledPoints)) ["GPX Route"]
            startTime with
    | Return weatherData => Return (weatherData, None)
    | Throw error => Throw error
    end.
Proof.
  intros [Hp|(points & Hp & Hall)]; unfold fetchGPXWeatherData;
    rewrite Hp; cbn [mbind option_bind]; by rewrite ?Hall.
Qed.

(** When the fetch of a point throws, the route weather throws: the
    [catch] block calls the mock generator for the same start time. *)
Lemma fetchGPXWeatherData_thrown W rnd points startTime k point :
  points !! k = Some point →
  forecast W (point_coords toFixed2 point) = None →
  ¬ five_hours startTime →
  fetchGPXWeatherData toFixed2 W rnd (Some <$> points) startTime
  = Throw "RangeError: Invalid time value".
Proof.
  intros Hk Hf Hdates.
  rewrite fetchGPXWeatherData_caught.
  - by rewrite generateMockWeather_invalid.
  - right. exists points. split; [by apply mapM_fmap_Some|].
    apply mapM_None, Exists_exists.
    exists (Throw "RangeError: Invalid time value"). split; [|done].
    assert (point_fetch W rnd startTime k point
            = Throw "RangeError: Invalid time value") as <-.
    { cbv beta. rewrite fetchWeatherData_failed by done.
      by rewrite generateMockWeather_invalid. }
    exact (elem_of_lookup_imap_2 (point_fetch W rnd startTime) points point
             k Hk).
Qed.

Lemma aggregatedWeather_length_le (rs : list (list WeatherSample)) :
  (length (aggregatedWeather rs) ≤ 5)%nat.
Proof.
  rewrite aggregatedWeather_slots, !length_app.
  pose proof (slot_length_le rs 0). pose proof (slot_length_le rs 1).
  pose proof (slot_length_le rs 2). pose proof (slot_length_le rs 3).
  pose proof (slot_length_le rs 4). lia.
Qed.

Lemma aggregatedWeather_full (rs : list (list WeatherSample)) r :
  r ∈ rs → (5 ≤ length r)%nat → length (aggregatedWeather rs) = 5%nat.
Proof.
  intros Hr Hlen.
  assert (5 ≤ max_list (length <$> rs))%nat.
  { etrans; [exact Hlen|].
    apply max_list_elem_of_le, list_elem_of_fmap. eauto. }
  rewrite aggregatedWeather_slots, !length_app, !slot_length.
  by rewrite !decide_True by lia.
Qed.

Lemma aggregatedWeather_flagged (rs : list (list WeatherSample)) :
  Forall (λ a, isAggregated a = true) (aggregatedWeather rs).
Proof.
  apply Forall_forall.
  by intros a (h & d0 & ds & _ & _ & ->)%aggregated_entry_inv.
Qed.

(** X12. For a route whose sampled points are all defined, when the start
    time and the four hours after it are dates, every per-point fetch
    returns and the weather of the route is the aggregate of the per-point
    forecasts, taken in the order of the points: at most five entries,
    each flagged as aggregated, so that a non-empty result makes
    [generateRecommendations] take the coldest-point branch; the returned
    coordinates are those of the first sampled point under the name
    "GPX Route", and there are none for an empty route, whose weather is
    empty. *)
Theorem fetchGPXWeatherData_aggregate W rnd points startTime :
  five_hours startTime →
  ∃ allWeatherResults weatherData,
    Forall2 (λ kp result,
               fetchWeatherData W (rnd kp.1) (point_locations kp.2)
                 startTime (Some (point_coords toFixed2 kp.2))
               = Return result)
      (indexed points) allWeatherResults
    ∧ weatherData = aggregatedWeather (fst <$> allWeatherResults)
    ∧ fetchGPXWeatherData toFixed2 W rnd (Some <$> points) startTime
      = Return (weatherData, route_coords <$> head points)
    ∧ (length weatherData ≤ 5)%nat
    ∧ Forall (λ a, isAggregated a = true) weatherData
    ∧ (weatherData ≠ [] → is_aggregated weatherData = true)
    ∧ (points = [] → weatherData = []).
Proof.
  intros Hdates.
  destruct (route_results W rnd points startTime Hdates)
    as (allWeatherResults & Hall & Hresults).
  exists allWeatherResults, (aggregatedWeather (fst <$> allWeatherResults)).
  split_and!.
  - exact Hresults.
  - done.
  - by apply fetchGPXWeatherData_defined.
  - apply aggregatedWeather_length_le.
  - apply aggregatedWeather_flagged.
  - intros Hne.
    pose proof (aggregatedWeather_flagged (fst <$> allWeatherResults))
      as Hflag.
    destruct Hflag as [|a ws Ha _]; [done|exact Ha].
  - intros ->. apply Forall2_nil_inv_l in Hresults. by subst.
Qed.

(** X13. An undefined entry among the sampled points makes the route
    weather that of the [catch] block. When the start time and the four
    hours after it are dates, it is the mock generator's: five plain
    samples located at "GPX Route", which are not aggregated, and no
    coordinates. Otherwise (the start time does not parse, or is at the
    end of the range of dates) the mock generator throws, and the call
    with it. *)
Theorem fetchGPXWeatherData_undefined_point W rnd sampledPoints startTime :
  None ∈ sampledPoints →
  (five_hours startTime →
     ∃ weatherData,
       fetchGPXWeatherData toFixed2 W rnd sampledPoints startTime
       = Return (weatherData, None)
       ∧ generateMockWeather (rnd (length sampledPoints)) ["GPX Route"]
           startTime
         = Return weatherData
       ∧ length weatherData = 5%nat
       ∧ Forall (λ w, location w = Some "GPX Route") weatherData
       ∧ is_aggregated weatherData = false)
  ∧ (¬ five_hours startTime →
     fetchGPXWeatherData toFixed2 W rnd sampledPoints startTime
     = Throw "RangeError: Invalid time value").
Proof.
  intros Hin.
  assert (Hp : mapM id sampledPoints = None).
  { apply mapM_None, Exists_exists. by exists None. }
  rewrite fetchGPXWeatherData_caught by eauto.
  split.
  - intros Hdates. destruct startTime as [start|]; [|done].
    eexists. rewrite generateMockWeather_dates by done.
    split_and!; try done. by repeat constructor.
  - intros Hdates. by rewrite generateMockWeather_invalid.
Qed.

(** The result of the fetch at position [k] is among the results. *)
Lemma route_results_lookup W rnd points startTime allWeatherResults k point
    result :
  Forall2 (λ kp r, point_fetch W rnd startTime kp.1 kp.2 = Return r)
    (indexed points) allWeatherResults →
  points !! k = Some point →
  point_fetch W rnd startTime k point = Return result →
  result ∈ allWeatherResults.
Proof.
  intros Hresults Hk Hrun.
  assert (indexed points !! k = Some (k, point)) as Hkp.
  { unfold indexed. by rewrite list_lookup_imap, Hk. }
  destruct (Forall2_lookup_l _ _ _ _ _ Hresults Hkp) as (r & Hr & Heq).
  simpl in Heq. rewrite Hrun in Heq. injection Heq as <-.
  by eapply list_elem_of_lookup_2.
Qed.

(** When the forecast of a point fails and the mock generator returns,
    the aggregate has five entries. *)
Lemma route_weather_full W rnd points (start : Z) allWeatherResults k point :
  five_hours (Some start) →
  Forall2 (λ kp r, point_fetch W rnd (Some start) kp.1 kp.2 = Return r)
    (indexed points) allWeatherResults →
  points !! k = Some point →
  forecast W (point_coords toFixed2 point) = None →
  length (aggregatedWeather (fst <$> allWeatherResults)) = 5%nat.
Proof.
  intros Hdates Hresults Hk Hf.
  eapply (aggregatedWeather_full _
            ((λ i, mock_object (rnd k) (point_locations point)
                     (hour_after start i) i) <$> seq 0 5)); [|done].
  apply list_elem_of_fmap. eexists (_, None). split; [done|].
  eapply (route_results_lookup W rnd points (Some start)); [done..|].
  cbv beta. rewrite fetchWeatherData_failed by done.
  by rewrite generateMockWeather_dates.
Qed.

(** X14. When the forecast of one sampled point fails and the start time
    and the four hours after it are dates, that point contributes its five
    mock samples, and the aggregate has an entry for each of the five
    hours whatever the other points give. Otherwise the mock generator
    throws for that point and again in the [catch] block, and the call
    throws. *)
Theorem fetchGPXWeatherData_failed_point W rnd points startTime k point :
  points !! k = Some point →
  forecast W (point_coords toFixed2 point) = None →
  (five_hours startTime →
     ∃ weatherData,
       fetchGPXWeatherData toFixed2 W rnd (Some <$> points) startTime
       = Return (weatherData, route_coords <$> head points)
       ∧ length weatherData = 5%nat)
  ∧ (¬ five_hours startTime →
     fetchGPXWeatherData toFixed2 W rnd (Some <$> points) startTime
     = Throw "RangeError: Invalid time value").
Proof.
  intros Hk Hf. split.
  - intros Hdates. destruct startTime as [start|]; [|done].
    destruct (route_results W rnd points (Some start) Hdates)
      as (allWeatherResults & Hall & Hresults).
    eexists. split; [by apply fetchGPXWeatherData_defined|].
    by eapply route_weather_full.
  - intros Hdates. by eapply fetchGPXWeatherData_thrown.
Qed.

Lemma mock_ranges_within w : mock_ranges w → within mock_bounds w.
Proof. done. Qed.

(** X15. Without any forecast (every provider call fails), with random
    draws in [0, 1) and a start time that is a date as are the four hours
    after it, the weather of a non-empty route has five entries whose
    temperature, minimum and maximum are within 45..85, wind speed within
    5..20, precipitation chance within 0..100 and humidity within 40..80.
    For any other start time the call throws. *)
Theorem fetchGPXWeatherData_offline W rnd points startTime :
  (∀ coords, forecast W coords = None) →
  (∀ k n, (0 <= rnd k n)%Q ∧ (rnd k n < 1)%Q) →
  points ≠ [] →
  (five_hours startTime →
     ∃ weatherData,
       fetchGPXWeatherData toFixed2 W rnd (Some <$> points) startTime
       = Return (weatherData, route_coords <$> head points)
       ∧ length weatherData = 5%nat
       ∧ Forall (λ a, within mock_bounds a ∧ extremes_within mock_bounds a)
           weatherData)
  ∧ (¬ five_hours startTime →
     fetchGPXWeatherData toFixed2 W rnd (Some <$> points) startTime
     = Throw "RangeError: Invalid time value").
Proof.
  intros Hoff Hrnd Hne.
  destruct points as [|point0 points']; [done|].
  set (points := point0 :: points') in *.
  assert (Hk : points !! 0%nat = Some point0) by done.
  split.
  - intros Hdates. destruct startTime as [start|]; [|done].
    destruct (route_results W rnd points (Some start) Hdates)
      as (allWeatherResults & Hall & Hresults).
    eexists. split; [by apply fetchGPXWeatherData_defined|]. split.
    + by eapply route_weather_full.
    + apply Forall_forall.
      intros a (h & d0 & ds & _ & Hpts & ->)%aggregated_entry_inv.
      apply aggregate_points_within. rewrite <- Hpts.
      apply Forall_forall. intros s (r & Hr & Hs)%elem_of_hourDataPoints.
      apply list_elem_of_fmap in Hr as (res & -> & Hres).
      apply list_elem_of_lookup in Hres as [k Hres].
      destruct (Forall2_lookup_r _ _ _ _ _ Hresults Hres)
        as ([k' point] & Hkp & Hrun).
      simpl in Hrun. rewrite fetchWeatherData_failed in Hrun by done.
      rewrite generateMockWeather_dates in Hrun by done.
      injection Hrun as <-. cbn [fst] in Hs.
      apply list_elem_of_lookup_2 in Hs.
      assert (∃ i time, s = mock_object (rnd k') (point_locations point)
                              time i) as (i & time & ->).
      { repeat (apply elem_of_cons in Hs as [->|Hs]); eauto.
        by apply elem_of_nil in Hs. }
      by apply mock_ranges_within, mock_object_ranges.
  - intros Hdates. by eapply fetchGPXWeatherData_thrown.
Qed.

(** X16. From the file to the route weather. When the reader resolves, the
    application samples the points for a target of 10; the sampled points
    are defined route points in their order, starting with the first, and
    each has a name, so that neither the "Point n" nor the "Lat, Lon" label
    is used; the route weather is then centred on the first point of the
    file: it is returned with these coordinates when the start time and
    the four hours after it are dates, and never with others. *)
Theorem parsed_route_sampled W rnd file points metadata startTime :
  parseGPXFile file = Resolve (points, metadata) →
  ∃ sampled first,
    (∀ fuel, (length points ≤ fuel)%nat →
       samplePoints None fuel (Some <$> points) 10
       = Some (Return (Some <$> sampled)))
    ∧ sampled `sublist_of` points
    ∧ head points = Some first ∧ head sampled = Some first
    ∧ Forall (λ p, point_locations p = [p_name p]
                   ∧ name (point_coords toFixed2 p) = p_name p) sampled
    ∧ (five_hours startTime →
       ∃ weatherData,
         fetchGPXWeatherData toFixed2 W rnd (Some <$> sampled) startTime
         = Return (weatherData, Some (route_coords first)))
    ∧ (∀ weatherData found,
         fetchGPXWeatherData toFixed2 W rnd (Some <$> sampled) startTime
         = Return (weatherData, found) →
         found = Some (route_coords first)).
Proof.
  intros Hparse.
  assert (Hidx : well_indexed points ∧ points ≠ []).
  { unfold parseGPXFile in Hparse. destruct file as [|[d|]]; try done.
    destruct (parsererror d); [done|].
    case_decide as Hlen; [done|]. injection Hparse as <- _.
    split; [apply collect_points_well_indexed|].
    intros Hnil. by rewrite Hnil in Hlen. }
  destruct Hidx as [Hidx Hne].
  destruct points as [|first points']; [done|].
  set (points := first :: points') in *.
  assert (Hnames : ∀ sampled, sampled `sublist_of` points →
    Forall (λ p, point_locations p = [p_name p]
                 ∧ name (point_coords toFixed2 p) = p_name p) sampled).
  { intros sampled Hsub. apply Forall_forall. intros p Hp.
    apply (elem_of_sublist _ _ _ Hp) in Hsub as Hp'. clear Hp.
    rename Hp' into Hp.
    apply list_elem_of_lookup in Hp as [i Hi].
    destruct (Hidx i p Hi) as [_ Hname].
    unfold point_locations, point_coords. simpl.
    by rewrite !decide_False. }
  assert (Hweather : ∀ sampled, head sampled = Some first →
    (five_hours startTime →
     ∃ weatherData,
       fetchGPXWeatherData toFixed2 W rnd (Some <$> sampled) startTime
       = Return (weatherData, Some (route_coords first)))
    ∧ (∀ weatherData found,
         fetchGPXWeatherData toFixed2 W rnd (Some <$> sampled) startTime
         = Return (weatherData, found) →
         found = Some (route_coords first))).
  { intros sampled Hhead. split.
    - intros Hdates.
      destruct (route_results W rnd sampled startTime Hdates)
        as (allWeatherResults & Hall & _).
      eexists. rewrite (fetchGPXWeatherData_defined _ _ _ _ _ Hall).
      by rewrite Hhead.
    - intros weatherData found.
      destruct (mapM returned (imap (point_fetch W rnd startTime) sampled))
        as [allWeatherResults|] eqn:Hall.
      + rewrite (fetchGPXWeatherData_defined _ _ _ _ _ Hall), Hhead.
        by intros [= _ <-].
      + rewrite fetchGPXWeatherData_caught
          by (right; exists sampled; split; [by apply mapM_fmap_Some|done]).
        apply mapM_None in Hall.
        apply Exists_exists in Hall as (c & Hc & Hnone).
        apply elem_of_lookup_imap_1 in Hc as (k & point & -> & _).
        destruct (fetchWeatherData W (rnd k) (point_locations point)
                    startTime (Some (point_coords toFixed2 point)))
          as [r|error] eqn:Hrun; [done|].
        apply fetchWeatherData_thrown in Hrun.
        by rewrite generateMockWeather_invalid. }
  destruct (decide (Z.of_nat (length points) ≤ 10)) as [Hshort|Hlong].
  - exists points, first. split_and!; try done.
    + intros fuel _. apply samplePoints_short. by rewrite length_fmap.
    + by apply Hnames.
    + by apply Hweather.
    + by apply Hweather.
  - destruct (samplePoints_indices None (Some <$> points) 10)
      as (idxs & Hrun & Hsorted & Hrange & Hcount);
      [lia|rewrite length_fmap; lia|].
    rewrite decide_True in Hrun by (unfold MAX_ARRAY_LENGTH; lia).
    rewrite length_fmap in Hrun, Hsorted, Hrange.
    set (all := 0%nat :: idxs ++ [pred (length points)]) in *.
    assert (Hout : at_index None (Some <$> points) <$> all
                   = Some <$> (at_index first points <$> all)).
    { rewrite <- list_fmap_compose. apply Forall_fmap_ext.
      eapply Forall_impl; [exact Hrange|]. intros j Hj. cbv beta in Hj.
      unfold at_index, compose. rewrite list_lookup_fmap.
      by destruct (lookup_lt_is_Some_2 points j Hj) as [p ->]. }
    assert (Hsub : (at_index first points <$> all) `sublist_of` points).
    { apply (at_index_sorted_sublist first points all 0 Hsorted).
      eapply Forall_impl; [exact Hrange|]. simpl. lia. }
    exists (at_index first points <$> all), first. split_and!; try done.
    + intros fuel Hfuel. rewrite Hrun by done. by rewrite Hout.
    + by apply Hnames.
    + by apply Hweather.
    + by apply Hweather.
Qed.

End GPXWeatherFacts.

(** Witness of X13: a route whose second sampled point is undefined, for a
    start time that is a date and for one that does not parse. *)
Lemma fetchGPXWeatherData_undefined_point_witness :
  (∃ weatherData,
     fetchGPXWeatherData (λ _, "0.00") example_provider (λ _ _, 0%Q)
       [head (collect_points example_document); None] (Some 0)
     = Return (weatherData, None)
     ∧ generateMockWeather (λ _, 0%Q) ["GPX Route"] (Some 0)
       = Return weatherData
     ∧ length weatherData = 5%nat
     ∧ Forall (λ w, location w = Some "GPX Route") weatherData
     ∧ is_aggregated weatherData = false)
  ∧ fetchGPXWeatherData (λ _, "0.00") example_provider (λ _ _, 0%Q)
      [head (collect_points example_document); None] None
    = Throw "RangeError: Invalid time value".
Proof.
  split.
  - apply (fetchGPXWeatherData_undefined_point (λ _, "0.00")
             example_provider (λ _ _, 0%Q)
             [head (collect_points example_document); None] (Some 0)).
    + right. left.
    + unfold five_hours, hour_after, MAX_TIME. lia.
  - apply (fetchGPXWeatherData_undefined_point (λ _, "0.00")
             example_provider (λ _ _, 0%Q)
             [head (collect_points example_document); None] None).
    + right. left.
    + intros [].
Defined.

(** Witness of X14 and X15: the points of the example document, offline. *)
Lemma fetchGPXWeatherData_failed_point_witness :
  (∃ weatherData,
     fetchGPXWeatherData (λ _, "0.00") offline_provider
       (λ _ _, (1 # 2)%Q) (Some <$> collect_points example_document)
       (Some 0)
     = Return (weatherData,
               route_coords <$> head (collect_points example_document))
     ∧ length weatherData = 5%nat)
  ∧ fetchGPXWeatherData (λ _, "0.00") offline_provider
      (λ _ _, (1 # 2)%Q) (Some <$> collect_points example_document) None
    = Throw "RangeError: Invalid time value".
Proof.
  split.
  - eapply (fetchGPXWeatherData_failed_point (λ _, "0.00") offline_provider
              (λ _ _, (1 # 2)%Q) (collect_points example_document)
              (Some 0) 1); [reflexivity..|].
    unfold five_hours, hour_after, MAX_TIME. lia.
  - eapply (fetchGPXWeatherData_failed_point (λ _, "0.00") offline_provider
              (λ _ _, (1 # 2)%Q) (collect_points example_document)
              None 1); [reflexivity..|].
    intros [].
Defined.

Lemma fetchGPXWeatherData_offline_witness :
  (∃ weatherData,
     fetchGPXWeatherData (λ _, "0.00") offline_provider
       (λ _ _, (1 # 2)%Q) (Some <$> collect_points example_document)
       (Some 0)
     = Return (weatherData,
               route_coords <$> head (collect_points example_document))
     ∧ length weatherData = 5%nat
     ∧ Forall (λ a, within mock_bounds a ∧ extremes_within mock_bounds a)
         weatherData)
  ∧ fetchGPXWeatherData (λ _, "0.00") offline_provider
      (λ _ _, (1 # 2)%Q) (Some <$> collect_points example_document)
      (Some (MAX_TIME - 1))
    = Throw "RangeError: Invalid time value".
Proof.
  assert (Hrnd : ∀ k n : nat, (0 <= 1 # 2)%Q ∧ (1 # 2 < 1)%Q)
    by (intros k n; lra).
  split.
  - apply (fetchGPXWeatherData_offline (λ _, "0.00") offline_provider
             (λ _ _, (1 # 2)%Q) (collect_points example_document) (Some 0));
      [reflexivity|exact Hrnd|discriminate|].
    unfold five_hours, hour_after, MAX_TIME. lia.
  - apply (fetchGPXWeatherData_offline (λ _, "0.00") offline_provider
             (λ _ _, (1 # 2)%Q) (collect_points example_document)
             (Some (MAX_TIME - 1)));
      [reflexivity|exact Hrnd|discriminate|].
    unfold five_hours, hour_after, MAX_TIME. lia.
Defined.

(** Witness of X16: the example document. *)
Lemma parsed_route_sampled_witness :
  ∃ sampled first,
    (∀ fuel, (length (collect_points example_document) ≤ fuel)%nat →
       samplePoints None fuel (Some <$> collect_points example_document) 10
       = Some (Return (Some <$> sampled)))
    ∧ sampled `sublist_of` collect_points example_document
    ∧ head (collect_points example_document) = Some first
    ∧ head sampled = Some first
    ∧ Forall (λ p, point_locations p = [p_name p]
                   ∧ name (point_coords (λ _, "0.00") p) = p_name p) sampled
    ∧ (five_hours (Some 0) →
       ∃ weatherData,
         fetchGPXWeatherData (λ _, "0.00") example_provider (λ _ _, 0%Q)
           (Some <$> sampled) (Some 0)
         = Return (weatherData, Some (route_coords first)))
    ∧ (∀ weatherData found,
         fetchGPXWeatherData (λ _, "0.00") example_provider (λ _ _, 0%Q)
           (Some <$> sampled) (Some 0)
         = Return (weatherData, found) →
         found = Some (route_coords first)).
Proof.
  apply (parsed_route_sampled (λ _, "0.00") example_provider (λ _ _, 0%Q)
           (Loaded (Some example_document))
           (collect_points example_document)
           {| meta_name := "Tour"; totalPoints := 3 |} (Some 0)).
  reflexivity.
Defined.

(** ** Recommendation engine: effort, empty forecast, outer layers *)

Section RecommendationEdges.

Implicit Types (weatherData : list WeatherSample) (effort : EffortLevel).

(** X17. An effort level that is not one of the four ids makes
    [generateRecommendations] throw, whatever the activity and the
    forecast. *)
Theorem generateRecommendations_unknown_effort activity weatherData
    effortLevel :
  effortLevel ∉ EFFORT_IDS →
  generateRecommendations activity weatherData effortLevel
  = Throw "TypeError".
Proof.
  intros Hnot. unfold generateRecommendations, find_effort.
  destruct (list_find _ _) as [[i e]|] eqn:Hfind; [|done].
  apply list_find_Some in Hfind as (He & <- & _).
  exfalso. apply Hnot. unfold EFFORT_IDS.
  apply list_elem_of_fmap. exists e. split; [done|].
  by eapply list_elem_of_lookup_2.
Qed.

Lemma sum_of_lower (lo : Z) xs :
  Forall (λ x, lo ≤ x) xs → lo * Z.of_nat (length xs) ≤ sum_of xs.
Proof.
  induction 1 as [|x xs Hx _ IH]; [unfold sum_of; simpl; lia|].
  rewrite sum_of_cons. simpl length. lia.
Qed.

Lemma warmest_NaN : warmest NaN.
Proof. by intros c _. Qed.

Lemma warmest_Fin (q : Q) : (65 <= q)%Q → warmest (Fin q).
Proof.
  intros Hq c Hc. unfold JsNum.ltb.
  apply negb_false_iff, Qle_bool_iff. lra.
Qed.

Lemma layers_object_warmest temp temp' wind wind' :
  warmest temp → warmest temp' →
  JsInt.gtb wind (Fin 15) = false → JsInt.gtb wind' (Fin 15) = false →
  layers_object temp wind false = layers_object temp' wind' false.
Proof.
  intros Ht Ht' Hw Hw'.
  unfold layers_object, getRunningLayers, getMountainBikeLayers,
    getRoadBikeLayers, getDownhillSkiLayers, getBackcountrySkiLayers,
    getNordicSkiLayers.
  rewrite Hw, Hw'.
  rewrite !(Ht 20%Q), !(Ht 32%Q), !(Ht 40%Q), !(Ht 45%Q), !(Ht 50%Q),
    !(Ht 60%Q), !(Ht 65%Q) by lra.
  rewrite !(Ht' 20%Q), !(Ht' 32%Q), !(Ht' 40%Q), !(Ht' 45%Q), !(Ht' 50%Q),
    !(Ht' 60%Q), !(Ht' 65%Q) by lra.
  done.
Qed.

Lemma hasRain_false weatherData :
  Forall (λ w, precipitationChance w ≤ 30) weatherData →
  hasRain weatherData = false.
Proof.
  unfold hasRain. induction 1 as [|w ws Hw _ IH]; [done|].
  simpl. rewrite IH. by destruct (Z.ltb_spec 30 (precipitationChance w)); [lia|].
Qed.

Lemma maxWind_le (c : Z) weatherData :
  Forall (λ w, windSpeed w ≤ c) weatherData →
  JsInt.gtb (maxWind weatherData) (Fin c) = false.
Proof.
  intros Hall. unfold maxWind, Math_max.
  destruct weatherData as [|w ws]; [done|]. csimpl.
  assert (is_max (max_of (windSpeed w) (windSpeed <$> ws))
            (windSpeed <$> w :: ws)) as [Hin _] by apply max_of_spec.
  apply list_elem_of_fmap in Hin as (w' & -> & Hw').
  rewrite Forall_forall in Hall. specialize (Hall _ Hw').
  unfold JsInt.gtb, JsInt.ltb. by destruct (Z.ltb_spec c (windSpeed w')); [lia|].
Qed.

(** X18. An empty forecast is dressed like hot, calm and dry weather: for
    every activity and effort level, the result for no sample at all is
    the result for any plain forecast whose samples are all at 75 degrees
    or more with wind at most 15 mph and precipitation chance at most 30
    percent. *)
Theorem generateRecommendations_empty_forecast activity effortLevel
    weatherData :
  weatherData ≠ [] → is_aggregated weatherData = false →
  Forall hot_calm_dry weatherData →
  generateRecommendations activity [] effortLevel
  = generateRecommendations activity weatherData effortLevel.
Proof.
  intros Hne Hagg Hall. unfold generateRecommendations.
  destruct (find_effort effortLevel) as [effort|] eqn:Heffort; [|done].
  assert (effortLevel ∈ EFFORT_IDS) as Hvalid.
  { unfold find_effort in Heffort.
    destruct (list_find _ _) as [[i e]|] eqn:Hfind; [|done].
    apply list_find_Some in Hfind as (He & <- & _).
    apply list_elem_of_fmap. exists e. split; [done|].
    by eapply list_elem_of_lookup_2. }
  apply find_effort_valid in Hvalid as (effort' & Heffort' & _ & Hfactor).
  rewrite Heffort in Heffort'. injection Heffort' as <-.
  assert (Htemp : Forall (λ x, 75 ≤ x) (temperature <$> weatherData)).
  { apply Forall_fmap. eapply Forall_impl; [exact Hall|]. by intros w [? _]. }
  apply sum_of_lower in Htemp. rewrite length_fmap in Htemp.
  assert (Hn : (0 < inject_Z (Z.of_nat (length weatherData)))%Q).
  { change 0%Q with (inject_Z 0). rewrite <- Zlt_Qlt.
    destruct weatherData; [done|simpl; lia]. }
  assert (Hmean : (75 <= inject_Z (sum_of (temperature <$> weatherData))
                         / inject_Z (Z.of_nat (length weatherData)))%Q).
  { apply Qle_shift_div_l; [done|].
    change 75%Q with (inject_Z 75). rewrite <- inject_Z_mult, <- Zle_Qle.
    lia. }
  rewrite (hasRain_false weatherData)
    by (eapply Forall_impl; [exact Hall|]; by intros w (_ & _ & ?)).
  f_equal. f_equal. f_equal.
  apply layers_object_warmest.
  - apply warmest_NaN.
  - rewrite (feltTemp_finite _ _ _ (avgTemp_mean _ Hne Hagg)).
    apply warmest_Fin.
    destruct Hfactor as [[_ ->]|[[_ ->]|[[_ ->]|[_ ->]]]]; lra.
  - done.
  - apply maxWind_le.
    eapply Forall_impl; [exact Hall|]. by intros w (_ & ? & _).
Qed.

(** The wind and rain items of the running table and their triggers. *)
Lemma getRunningLayers_outer temp wind rain :
  (windbreaker ∈ getRunningLayers temp wind rain
   ↔ JsInt.gtb wind (Fin 15) = true)
  ∧ (rain_jacket ∈ getRunningLayers temp wind rain ↔ rain = true).
Proof.
  unfold getRunningLayers, windbreaker, rain_jacket.
  destruct (JsNum.ltb temp 32), (JsNum.ltb temp 50), (JsNum.ltb temp 65),
    (JsInt.gtb wind (Fin 15)), rain; simpl;
    (split; split; intros H; try done;
     try (repeat (apply elem_of_cons in H as [H|H];
                  [discriminate H|]);
          by apply elem_of_nil in H);
     set_solver).
Qed.

Lemma maxWind_gt (c : Z) weatherData :
  JsInt.gtb (maxWind weatherData) (Fin c) = true
  ↔ Exists (λ w, c < windSpeed w) weatherData.
Proof.
  split.
  - intros Hgt.
    destruct (decide (Exists (λ w, c < windSpeed w) weatherData))
      as [|Hno]; [done|].
    rewrite maxWind_le in Hgt; [done|].
    apply Forall_forall. intros w Hw.
    destruct (decide (windSpeed w ≤ c)); [done|].
    exfalso. apply Hno, Exists_exists. exists w. split; [done|lia].
  - intros (w & Hw & Hc)%Exists_exists. unfold maxWind, Math_max.
    destruct weatherData as [|w0 ws]; [by apply elem_of_nil in Hw|]. csimpl.
    assert (is_max (max_of (windSpeed w0) (windSpeed <$> ws))
              (windSpeed <$> w0 :: ws)) as [_ Hall] by apply max_of_spec.
    rewrite Forall_forall in Hall.
    assert (windSpeed w ≤ max_of (windSpeed w0) (windSpeed <$> ws))
      by (apply Hall, list_elem_of_fmap; eauto).
    unfold JsInt.gtb, JsInt.ltb. apply Z.ltb_lt. lia.
Qed.

Lemma hasRain_true weatherData :
  hasRain weatherData = true
  ↔ Exists (λ w, 30 < precipitationChance w) weatherData.
Proof.
  unfold hasRain. rewrite existsb_exists, Exists_exists.
  split; intros (w & Hw & Hp); exists w.
  - apply list_elem_of_In in Hw. split; [done|]. by apply Z.ltb_lt.
  - apply list_elem_of_In in Hw. split; [done|]. by apply Z.ltb_lt.
Qed.

(** X19. For a run with a valid effort level, the windbreaker is
    recommended exactly when some sample has a wind speed above 15 mph,
    and the waterproof jacket exactly when some sample has a precipitation
    chance above 30 percent. *)
Theorem run_outer_layers weatherData effortLevel :
  effortLevel ∈ EFFORT_IDS →
  ∃ items,
    generateRecommendations "run" weatherData effortLevel
      = Return (Array items)
    ∧ (windbreaker ∈ items ↔ Exists (λ w, 15 < windSpeed w) weatherData)
    ∧ (rain_jacket ∈ items
       ↔ Exists (λ w, 30 < precipitationChance w) weatherData).
Proof.
  intros (effort & Heffort & _)%find_effort_valid.
  unfold generateRecommendations. rewrite Heffort.
  eexists. split; [reflexivity|].
  rewrite <- maxWind_gt, <- hasRain_true.
  apply getRunningLayers_outer.
Qed.

(** The safety items of the six tables. *)
Lemma layer_tables_safety temp wind rain :
  mk "Safety" "Helmet" "Essential safety"
    ∈ getMountainBikeLayers temp wind rain
  ∧ mk "Safety" "Helmet" "Essential safety"
    ∈ getRoadBikeLayers temp wind rain
  ∧ mk "Safety" "Ski helmet" "Essential safety"
    ∈ getDownhillSkiLayers temp wind rain
  ∧ mk "Safety" "Ski helmet" "Safety"
    ∈ getBackcountrySkiLayers temp wind rain
  ∧ Forall (λ x, type x ≠ "Safety") (getRunningLayers temp wind rain)
  ∧ Forall (λ x, type x ≠ "Safety") (getNordicSkiLayers temp wind rain).
Proof.
  unfold getRunningLayers, getMountainBikeLayers, getRoadBikeLayers,
    getDownhillSkiLayers, getBackcountrySkiLayers, getNordicSkiLayers.
  split_and!;
    repeat match goal with
           | |- context [JsNum.ltb temp ?c] => destruct (JsNum.ltb temp c)
           end;
    destruct (JsInt.gtb wind (Fin 15)), rain; simpl;
    first [set_solver | repeat constructor; discriminate].
Qed.

(** X20. With a valid effort level and any forecast, a helmet is always
    among the recommendations for mountain biking, road biking, downhill
    skiing and backcountry skiing, and no safety item is ever recommended
    for running or Nordic skiing. *)
Theorem safety_items weatherData effortLevel :
  effortLevel ∈ EFFORT_IDS →
  (∀ activity,
     activity ∈ ["mountain-bike"; "road-bike"; "downhill-ski";
                 "backcountry-ski"] →
     ∃ items x,
       generateRecommendations activity weatherData effortLevel
         = Return (Array items)
       ∧ x ∈ items ∧ type x = "Safety"
       ∧ (item x = "Helmet" ∨ item x = "Ski helmet"))
  ∧ (∀ activity, activity ∈ ["run"; "nordic-ski"] →
     ∃ items,
       generateRecommendations activity weatherData effortLevel
         = Return (Array items)
       ∧ Forall (λ x, type x ≠ "Safety") items).
Proof.
  intros (effort & Heffort & _)%find_effort_valid.
  pose proof (layer_tables_safety (feltTemp weatherData effort)
                (maxWind weatherData) (hasRain weatherData))
    as (Hmtb & Hroad & Hdown & Hback & Hrun & Hnordic).
  unfold generateRecommendations. rewrite Heffort. split.
  - intros activity Hin.
    repeat (apply elem_of_cons in Hin as [->|Hin]);
      [| | | |by apply elem_of_nil in Hin];
      eexists _, _; (split; [reflexivity|]); (split; [eassumption|]);
      (split; [reflexivity|]); eauto.
  - intros activity Hin.
    repeat (apply elem_of_cons in Hin as [->|Hin]);
      [| |by apply elem_of_nil in Hin];
      eexists; (split; [reflexivity|]); assumption.
Qed.

End RecommendationEdges.

(** Witness of X17: an effort level that does not exist. *)
Lemma generateRecommendations_unknown_effort_witness :
  generateRecommendations "run" [sample_at 0 0 50 5 0 60] "sprint"
  = Throw "TypeError".
Proof.
  apply generateRecommendations_unknown_effort.
  unfold EFFORT_IDS. simpl. intros Hin.
  repeat (apply elem_of_cons in Hin as [Hin|Hin]; [discriminate Hin|]).
  by apply elem_of_nil in Hin.
Defined.

(** Witness of X18: Nordic skiing without forecast and at 80 degrees. *)
Lemma generateRecommendations_empty_forecast_witness :
  generateRecommendations "nordic-ski" [] "easy"
  = generateRecommendations "nordic-ski" [sample_at 0 0 80 5 0 60] "easy".
Proof.
  apply generateRecommendations_empty_forecast.
  - done.
  - reflexivity.
  - repeat constructor; simpl; lia.
Defined.

(** Witness of X19. *)
Lemma run_outer_layers_witness :
  ∃ items,
    generateRecommendations "run" [sample_at 0 0 50 20 50 60] "tempo"
      = Return (Array items)
    ∧ (windbreaker ∈ items
       ↔ Exists (λ w, 15 < windSpeed w) [sample_at 0 0 50 20 50 60])
    ∧ (rain_jacket ∈ items
       ↔ Exists (λ w, 30 < precipitationChance w)
           [sample_at 0 0 50 20 50 60]).
Proof.
  apply run_outer_layers. unfold EFFORT_IDS. simpl. set_solver.
Defined.

(** Witness of X20. *)
Lemma safety_items_witness :
  (∃ items x,
     generateRecommendations "road-bike" [sample_at 0 0 50 5 0 60] "easy"
       = Return (Array items)
     ∧ x ∈ items ∧ type x = "Safety"
     ∧ (item x = "Helmet" ∨ item x = "Ski helmet"))
  ∧ (∃ items,
       generateRecommendations "run" [sample_at 0 0 50 5 0 60] "easy"
         = Return (Array items)
       ∧ Forall (λ x, type x ≠ "Safety") items).
Proof.
  assert ("easy" ∈ EFFORT_IDS) as Heasy
    by (unfold EFFORT_IDS; simpl; set_solver).
  destruct (safety_items [sample_at 0 0 50 5 0 60] "easy" Heasy)
    as [Hhelmet Hnone].
  split; [apply Hhelmet; right; left|apply Hnone; left].
Defined.

(** ** Location list of the search form *)

(** X21. The search form keeps between one and three locations: adding a
    location to such a list and removing the location at any position
    from it both give a list of one to three locations; removing never
    leaves the list empty, and adding changes nothing once there are
    three. *)
Theorem locations_one_to_three (locations : list string) :
  (1 ≤ length locations ≤ 3)%nat →
  (1 ≤ length (handleAddLocation locations) ≤ 3)%nat
  ∧ (length locations = 3%nat → handleAddLocation locations = locations)
  ∧ ∀ index,
      (1 ≤ length (handleRemoveLocation locations index) ≤ 3)%nat
      ∧ (length locations = 1%nat → index = 0%nat →
         handleRemoveLocation locations index = [""]).
Proof.
  intros Hlen. unfold handleAddLocation, handleRemoveLocation.
  split; [|split].
  - case_decide; [rewrite length_app; simpl|]; lia.
  - intros H3. by rewrite decide_False by lia.
  - intros index.
    assert (length (delete index locations) ≤ length locations)%nat as Hdel.
    { rewrite delete_take_drop, length_app, length_take, length_drop. lia. }
    split.
    + case_decide; simpl; lia.
    + intros H1 ->. destruct locations as [|x [|??]]; simpl in *; done || lia.
Qed.

Lemma locations_one_to_three_witness :
  (1 ≤ length (handleAddLocation ["Chamonix"; "Les Houches"]) ≤ 3)%nat
  ∧ handleRemoveLocation [""] 0 = [""].
Proof.
  destruct (locations_one_to_three ["Chamonix"; "Les Houches"])
    as (Hadd & _); [simpl; lia|].
  destruct (locations_one_to_three [""]) as (_ & _ & Hremove);
    [simpl; lia|].
  split; [exact Hadd|]. by apply (Hremove 0%nat).
Defined.

(** Witness of X12: the example document with the example provider, whose
    forecast gives three hours at 21 degrees (rounded from 20.5). *)
Lemma fetchGPXWeatherData_aggregate_witness :
  ∃ weatherData,
    fetchGPXWeatherData (λ _, "0.00") example_provider (λ _ _, 0%Q)
      (Some <$> collect_points example_document) (Some 0)
    = Return (weatherData,
              route_coords <$> head (collect_points example_document))
    ∧ temperature <$> weatherData = [21; 21; 21]
    ∧ is_aggregated weatherData = true.
Proof.
  destruct (fetchGPXWeatherData_aggregate (λ _, "0.00") example_provider
              (λ _ _, 0%Q) (collect_points example_document) (Some 0))
    as (allWeatherResults & weatherData & _ & _ & Hrun & _ & _ & Hagg & _).
  { unfold five_hours, hour_after, MAX_TIME. lia. }
  exists weatherData. split; [exact Hrun|].
  assert (Heq : Return (weatherData,
                        route_coords
                          <$> head (collect_points example_document))
                = Return (aggregatedWeather
                            (replicate 3
                               ((λ i : nat,
                                   {| location := Some "x";
                                      time := hour_after 0 i;
                                      temperature := 21;
                                      temperatureMin := None;
                                      temperatureMax := None;
                                      windSpeed := 7;
                                      precipitationChance := 0;
                                      humidity := 55; weatherCode := 3;
                                      isAggregated := false |})
                                  <$> seq 0 3)),
                          route_coords
                            <$> head (collect_points example_document)))
    by (rewrite <- Hrun; vm_compute; reflexivity).
  injection Heq as ->.
  split; [vm_compute; reflexivity|]. apply Hagg. discriminate.
Defined.
